(** * ModbusPy: the Modbus RTU industrial server

    A shallow embedding of [ModbusIndustrialServer]
    (modbus_industrial_server.py): the CRC codec, the slave store, the
    nine request handlers and the dispatcher [_process_request], followed
    by the properties of the specification that concern them.

    Conventions of the embedding.
    - A Python [bytes] object is a [list byte]; a Python [int] is a [Z].
      [bytes(list_of_ints)] is partial (ValueError outside range(256)).
    - A raised exception is [None] in the option monad, or [Raised] where
      the function's own return value is already an [Optional]; [add_slave]
      returns the server afterwards together with the error it raised.
    - The dictionaries of the server ([slaves], [stats]) and of a slave
      (registers, coils, file records) are finite maps keyed by [Z].
      Each slave owns its dictionaries (as [create_example_slave] and the
      configuration loader build them), so a map per slave is faithful.
    - The serial port is an open flag together with the list of frames
      written so far; the logger is not modelled (no claim reads it, and it
      touches neither the store, the counters nor the port).
    - [time.time()] is a clock reading handed to the dispatcher. *)

From Stdlib Require Import ZArith List Lia Bool.
From Stdlib Require Import Strings.Byte.
From stdpp Require Import base option list gmap strings.

Local Open Scope Z_scope.

(** ** Python bytes and integers *)

Module Py.

Definition bytes : Type := list byte.

#[global] Instance byte_eq_dec : EqDecision byte := Byte.byte_eq_dec.

(** The integer value of one byte, as indexing a [bytes] object yields. *)
Definition byte_to_int (b : byte) : Z := Z.of_N (Byte.to_N b).

(** One element of [bytes(iterable)]: ValueError unless in range(256). *)
Definition int_to_byte (n : Z) : option byte :=
  if (0 <=? n) && (n <? 256) then Byte.of_N (Z.to_N n) else None.

(** [bytes(list_of_ints)] *)
Definition bytes_of_ints (l : list Z) : option bytes := mapM int_to_byte l.

(** [list(some_bytes)] *)
Definition ints_of_bytes (b : bytes) : list Z := byte_to_int <$> b.

(** [data[i]] for an index the caller has already checked against
    [len(data)]; every use in the server sits behind such a check. *)
Definition at_ (data : bytes) (i : nat) : Z :=
  byte_to_int (nth i data Byte.x00).

(** [data[:-k]] and [data[-k:]] for a positive literal [k]. *)
Definition slice_until_last (k : nat) (data : bytes) : bytes :=
  take (length data - k)%nat data.
Definition slice_last (k : nat) (data : bytes) : bytes :=
  drop (length data - k)%nat data.

(** [data[i:i+n]] *)
Definition slice (i n : nat) (data : bytes) : bytes := take n (drop i data).

(** The base-256 digits of [n], least significant first. *)
Fixpoint little_endian_digits (length : nat) (n : Z) : list Z :=
  match length with
  | O => []
  | S k => n mod 256 :: little_endian_digits k (n / 256)
  end.

(** [n.to_bytes(length, 'little')]: OverflowError when [n] is negative
    or does not fit in [length] bytes. *)
Definition int_to_bytes_little (length : nat) (n : Z) : option bytes :=
  if (n <? 0) || (256 ^ Z.of_nat length <=? n) then None
  else bytes_of_ints (little_endian_digits length n).

(** The byte whose value is [n mod 256]; total, used to write down
    expected frames. *)
Definition wrap_byte (n : Z) : byte :=
  default Byte.x00 (Byte.of_N (Z.to_N (n mod 256))).

End Py.
Import Py.

(** ** CRC codec *)

(** One turn of the inner loop of [_calculate_crc]:
<<
    if (crc & 0x0001):
        crc >>= 1
        crc ^= 0xA001
    else:
        crc >>= 1
>> *)
Definition crc_shift (crc : Z) : Z :=
  if negb (Z.land crc 0x0001 =? 0) then
    let crc := Z.shiftr crc 1 in
    Z.lxor crc 0xA001
  else
    Z.shiftr crc 1.

(** The body of [for byte in data]. *)
Definition crc_update (crc : Z) (b : byte) : Z :=
  let crc := Z.lxor crc (byte_to_int b) in
  Nat.iter 8 crc_shift crc.

(** The value of the local [crc] when the outer loop ends. *)
Definition crc_register (data : bytes) : Z := fold_left crc_update data 0xFFFF.

Definition _calculate_crc (data : bytes) : option bytes :=
  int_to_bytes_little 2 (crc_register data).

Definition _validate_crc (data : bytes) : option bool :=
  if (length data <? 3)%nat then Some false
  else
    let received_crc := slice_last 2 data in
    calculated_crc ← _calculate_crc (slice_until_last 2 data);
    Some (bool_decide (received_crc = calculated_crc)).

(** The CRC of the specification, following its bit-level loop word for
    word over the input bytes taken as integers:
<<
    crc = 0xFFFF
    for each byte b in input:
        crc ^= b
        repeat 8 times:
            if crc & 1: crc = (crc >> 1) XOR 0xA001
            else:       crc = crc >> 1
    emit: [crc & 0xFF, (crc >> 8) & 0xFF]
>> *)
Module CrcSpec.

Definition bit_round (crc : Z) : Z :=
  if Z.testbit crc 0 then Z.lxor (Z.shiftr crc 1) 0xA001 else Z.shiftr crc 1.

Fixpoint repeat_times {A} (n : nat) (f : A → A) (x : A) : A :=
  match n with O => x | S k => repeat_times k f (f x) end.

Fixpoint run (crc : Z) (input : list Z) : Z :=
  match input with
  | [] => crc
  | b :: rest => run (repeat_times 8 bit_round (Z.lxor crc b)) rest
  end.

Definition crc16 (input : list Z) : Z := run 0xFFFF input.

Definition emit (crc : Z) : list Z :=
  [Z.land crc 0xFF; Z.land (Z.shiftr crc 8) 0xFF].

End CrcSpec.

(** The range the local [crc] stays in. *)
Definition crc_range (crc : Z) : Prop := 0 <= crc < 65536.

(** The two CRC bytes as a total function; [_calculate_crc] is shown below
    to return exactly these. *)
Definition crc_bytes (data : bytes) : bytes :=
  let crc := crc_register data in
  [wrap_byte crc; wrap_byte (Z.shiftr crc 8)].

(** A body followed by its CRC: every frame the server puts on the wire. *)
Definition framed (body : bytes) : bytes := body ++ crc_bytes body.

(** ** Data model *)

Record SlaveConfig := mkSlaveConfig {
  slave_id : Z;
  name : string;
  description : string;
  holding_registers : gmap Z Z;
  input_registers : gmap Z Z;
  coils : gmap Z bool;
  discrete_inputs : gmap Z bool;
  file_records : gmap Z (gmap Z bytes)
}.

Record ConnectionStats := mkConnectionStats {
  total_requests : Z;
  successful_requests : Z;
  failed_requests : Z;
  last_request_time : Z;
  connection_uptime : Z;
  bytes_sent : Z;
  bytes_received : Z
}.

(** [ConnectionStats()] *)
Definition fresh_stats : ConnectionStats := mkConnectionStats 0 0 0 0 0 0 0.

(** The part of [ModbusIndustrialServer] the requests act on. *)
Record Server := mkServer {
  max_slaves : Z;                       (* config['server']['max_slaves'] *)
  slaves : gmap Z SlaveConfig;
  stats : gmap Z ConnectionStats;
  port_open : bool;                     (* serial_port and serial_port.is_open *)
  port_written : list bytes             (* frames given to serial_port.write *)
}.

Definition set_slaves (m : gmap Z SlaveConfig) (st : Server) : Server :=
  mkServer (max_slaves st) m (stats st) (port_open st) (port_written st).

Definition set_stats (m : gmap Z ConnectionStats) (st : Server) : Server :=
  mkServer (max_slaves st) (slaves st) m (port_open st) (port_written st).

Definition set_port_written (w : list bytes) (st : Server) : Server :=
  mkServer (max_slaves st) (slaves st) (stats st) (port_open st) w.

Definition set_coils (c : gmap Z bool) (s : SlaveConfig) : SlaveConfig :=
  mkSlaveConfig (slave_id s) (name s) (description s) (holding_registers s)
    (input_registers s) c (discrete_inputs s) (file_records s).

Definition set_holding_registers (h : gmap Z Z) (s : SlaveConfig) : SlaveConfig :=
  mkSlaveConfig (slave_id s) (name s) (description s) h
    (input_registers s) (coils s) (discrete_inputs s) (file_records s).

(** Mutating the slave object held in [self.slaves[slave_id]]. *)
Definition store_slave (sid : Z) (s : SlaveConfig) (st : Server) : Server :=
  set_slaves (<[sid := s]> (slaves st)) st.

(** ** Slave store *)

Inductive AddSlaveError := MaximumSlavesReached (limit : Z).

(** [add_slave] returns the server as it is afterwards, and the ValueError
    if one was raised. *)
Definition add_slave (st : Server) (slave_config : SlaveConfig)
  : Server * option AddSlaveError :=
  if Z.of_nat (size (slaves st)) >=? max_slaves st then
    (st, Some (MaximumSlavesReached (max_slaves st)))
  else
    (set_stats (<[slave_id slave_config := fresh_stats]> (stats st))
       (set_slaves (<[slave_id slave_config := slave_config]> (slaves st)) st),
     None).

(** The default configuration: an empty server with [max_slaves] 10. *)
Definition new_server (open : bool) : Server := mkServer 10 ∅ ∅ open [].

(** ** Sending *)

Definition _send_response (st : Server) (response : bytes) : Server :=
  if port_open st then set_port_written (port_written st ++ [response]) st
  else st.

(** [bytes(response_data)] followed by its CRC; [None] when either raises. *)
Definition pack_with_crc (response_data : list Z) : option bytes :=
  response_bytes ← bytes_of_ints response_data;
  crc ← _calculate_crc response_bytes;
  Some (response_bytes ++ crc).

Definition _send_exception_response
    (st : Server) (slave_id function_code exception_code : Z) : Server :=
  match pack_with_crc [slave_id; Z.lor function_code 0x80; exception_code] with
  | Some full_response => _send_response st full_response
  | None => st
  end.

(** ** Request handlers *)

(** What a handler call ends with: a returned [Optional[bytes]], or an
    exception that leaves the handler. *)
Inductive Outcome :=
| Returned (response : option bytes)
| Raised.

(** [(request_data[i] << 8) | request_data[i+1]] *)
Definition word_at (request_data : bytes) (i : nat) : Z :=
  Z.lor (Z.shiftl (at_ request_data i) 8) (at_ request_data (S i)).

(** The two bytes one address adds to a register read. *)
Definition register_bytes (registers : gmap Z Z) (addr : Z) : list Z :=
  match registers !! addr with
  | Some value => [Z.land (Z.shiftr value 8) 0xFF; Z.land value 0xFF]
  | None => [0x00; 0x00]
  end.

(** The common body of the two register reads, which differ in the
    function code and in the dictionary they read. *)
Definition read_registers (function_code : Z)
    (registers : SlaveConfig → gmap Z Z)
    (st : Server) (slave_id : Z) (request_data : bytes) : Server * Outcome :=
  if (length request_data <? 8)%nat then (st, Returned None)
  else
    let start_address := word_at request_data 2 in
    let quantity := word_at request_data 4 in
    if (quantity <? 1) || (quantity >? 125) then
      (_send_exception_response st slave_id function_code 0x03, Returned None)
    else
      match slaves st !! slave_id with
      | None => (st, Raised)
      | Some slave =>
        let response_data :=
          [slave_id; function_code; quantity * 2]
          ++ flat_map (register_bytes (registers slave))
               (seqZ start_address quantity) in
        match pack_with_crc response_data with
        | Some response => (st, Returned (Some response))
        | None =>
          (_send_exception_response st slave_id function_code 0x04,
           Returned None)
        end
      end.

Definition _handle_read_holding_registers := read_registers 0x03 holding_registers.
Definition _handle_read_input_registers := read_registers 0x04 input_registers.

(** One data byte of a bit read: the inner [for bit_idx in range(8)]. *)
Definition packed_byte (bits : gmap Z bool) (start_address quantity byte_idx : Z)
  : Z :=
  fold_left
    (fun byte_value bit_idx =>
       let coil_addr := start_address + byte_idx * 8 + bit_idx in
       if coil_addr <? start_address + quantity then
         match bits !! coil_addr with
         | Some true => Z.lor byte_value (Z.shiftl 1 bit_idx)
         | _ => byte_value
         end
       else byte_value)
    (seqZ 0 8) 0.

(** The common body of read coils and read discrete inputs. *)
Definition read_bits (function_code : Z)
    (bits : SlaveConfig → gmap Z bool)
    (st : Server) (slave_id : Z) (request_data : bytes) : Server * Outcome :=
  if (length request_data <? 8)%nat then (st, Returned None)
  else
    let start_address := word_at request_data 2 in
    let quantity := word_at request_data 4 in
    if (quantity <? 1) || (quantity >? 2000) then
      (_send_exception_response st slave_id function_code 0x03, Returned None)
    else
      match slaves st !! slave_id with
      | None => (st, Raised)
      | Some slave =>
        let byte_count := (quantity + 7) / 8 in
        let coil_bytes :=
          packed_byte (bits slave) start_address quantity <$> seqZ 0 byte_count in
        match pack_with_crc ([slave_id; function_code; byte_count] ++ coil_bytes) with
        | Some response => (st, Returned (Some response))
        | None =>
          (_send_exception_response st slave_id function_code 0x04,
           Returned None)
        end
      end.

Definition _handle_read_coils := read_bits 0x01 coils.
Definition _handle_read_discrete_inputs := read_bits 0x02 discrete_inputs.

(** The echo of the two single writes: [request_data[:-2]] with a CRC. *)
Definition echo_response (request_data : bytes) : option bytes :=
  let response_bytes := slice_until_last 2 request_data in
  crc ← _calculate_crc response_bytes;
  Some (response_bytes ++ crc).

Definition _handle_write_single_coil
    (st : Server) (slave_id : Z) (request_data : bytes) : Server * Outcome :=
  if (length request_data <? 8)%nat then (st, Returned None)
  else
    let coil_address := word_at request_data 2 in
    let coil_value := word_at request_data 4 in
    if negb ((coil_value =? 0x0000) || (coil_value =? 0xFF00)) then
      (_send_exception_response st slave_id 0x05 0x03, Returned None)
    else
      match slaves st !! slave_id with
      | None => (st, Raised)
      | Some slave =>
        let st :=
          store_slave slave_id
            (set_coils (<[coil_address := (coil_value =? 0xFF00)]> (coils slave))
               slave) st in
        match echo_response request_data with
        | Some response => (st, Returned (Some response))
        | None => (_send_exception_response st slave_id 0x05 0x04, Returned None)
        end
      end.

Definition _handle_write_single_register
    (st : Server) (slave_id : Z) (request_data : bytes) : Server * Outcome :=
  if (length request_data <? 8)%nat then (st, Returned None)
  else
    let register_address := word_at request_data 2 in
    let register_value := word_at request_data 4 in
    match slaves st !! slave_id with
    | None => (st, Raised)
    | Some slave =>
      let st :=
        store_slave slave_id
          (set_holding_registers
             (<[register_address := register_value]> (holding_registers slave))
             slave) st in
      match echo_response request_data with
      | Some response => (st, Returned (Some response))
      | None => (_send_exception_response st slave_id 0x06 0x04, Returned None)
      end
    end.

(** The loop of write multiple coils over the indices still to do. The
    flag is [false] when [coil_data[byte_idx]] raised IndexError; the
    coils written before that stay written. *)
Fixpoint write_coils (coil_data : bytes) (start_address : Z)
    (indices : list Z) (coils : gmap Z bool) : gmap Z bool * bool :=
  match indices with
  | [] => (coils, true)
  | i :: rest =>
    let byte_idx := i / 8 in
    let bit_idx := i mod 8 in
    let coil_address := start_address + i in
    match coil_data !! Z.to_nat byte_idx with
    | None => (coils, false)
    | Some b =>
      let coil_value :=
        negb (Z.land (byte_to_int b) (Z.shiftl 1 bit_idx) =? 0) in
      write_coils coil_data start_address rest
        (<[coil_address := coil_value]> coils)
    end
  end.

Definition _handle_write_multiple_coils
    (st : Server) (slave_id : Z) (request_data : bytes) : Server * Outcome :=
  if (length request_data <? 9)%nat then (st, Returned None)
  else
    let start_address := word_at request_data 2 in
    let quantity := word_at request_data 4 in
    let byte_count := at_ request_data 6 in
    if (quantity <? 1) || (quantity >? 1968)
       || negb (byte_count =? (quantity + 7) / 8) then
      (_send_exception_response st slave_id 0x0F 0x03, Returned None)
    else
      match slaves st !! slave_id with
      | None => (st, Raised)
      | Some slave =>
        let coil_data := slice 7 (Z.to_nat byte_count) request_data in
        let '(coils', completed) :=
          write_coils coil_data start_address (seqZ 0 quantity) (coils slave) in
        let st := store_slave slave_id (set_coils coils' slave) st in
        let response :=
          if completed then
            pack_with_crc
              ([slave_id; 0x0F] ++ ints_of_bytes (slice 2 4 request_data))
          else None in
        match response with
        | Some response => (st, Returned (Some response))
        | None => (_send_exception_response st slave_id 0x0F 0x04, Returned None)
        end
      end.

(** The loop of write multiple registers, with the same convention. *)
Fixpoint write_registers (register_data : bytes) (start_address : Z)
    (indices : list Z) (registers : gmap Z Z) : gmap Z Z * bool :=
  match indices with
  | [] => (registers, true)
  | i :: rest =>
    let register_address := start_address + i in
    match register_data !! Z.to_nat (i * 2), register_data !! Z.to_nat (i * 2 + 1) with
    | Some hi, Some lo =>
      let register_value := Z.lor (Z.shiftl (byte_to_int hi) 8) (byte_to_int lo) in
      write_registers register_data start_address rest
        (<[register_address := register_value]> registers)
    | _, _ => (registers, false)
    end
  end.

Definition _handle_write_multiple_registers
    (st : Server) (slave_id : Z) (request_data : bytes) : Server * Outcome :=
  if (length request_data <? 9)%nat then (st, Returned None)
  else
    let start_address := word_at request_data 2 in
    let quantity := word_at request_data 4 in
    let byte_count := at_ request_data 6 in
    if (quantity <? 1) || (quantity >? 123)
       || negb (byte_count =? quantity * 2) then
      (_send_exception_response st slave_id 0x10 0x03, Returned None)
    else
      match slaves st !! slave_id with
      | None => (st, Raised)
      | Some slave =>
        let register_data := slice 7 (Z.to_nat byte_count) request_data in
        let '(registers', completed) :=
          write_registers register_data start_address (seqZ 0 quantity)
            (holding_registers slave) in
        let st := store_slave slave_id (set_holding_registers registers' slave) st in
        let response :=
          if completed then
            pack_with_crc
              ([slave_id; 0x10] ++ ints_of_bytes (slice 2 4 request_data))
          else None in
        match response with
        | Some response => (st, Returned (Some response))
        | None => (_send_exception_response st slave_id 0x10 0x04, Returned None)
        end
      end.

(** "Truncate or pad data to requested length". *)
Definition fit_record (file_data : bytes) (record_length : Z) : bytes :=
  let n := Z.of_nat (length file_data) in
  if n >? record_length * 2 then take (Z.to_nat (record_length * 2)) file_data
  else if n <? record_length * 2 then
    file_data ++ replicate (Z.to_nat (record_length * 2 - n)) Byte.x00
  else file_data.

Definition _handle_read_file_records
    (st : Server) (slave_id : Z) (request_data : bytes) : Server * Outcome :=
  if (length request_data <? 10)%nat then (st, Returned None)
  else
    let byte_count := at_ request_data 2 in
    if negb (byte_count =? 7) then
      (_send_exception_response st slave_id 0x14 0x03, Returned None)
    else
      let reference_type := at_ request_data 3 in
      let file_number := word_at request_data 4 in
      let record_number := word_at request_data 6 in
      let record_length := word_at request_data 8 in
      if negb (reference_type =? 6) then
        (_send_exception_response st slave_id 0x14 0x03, Returned None)
      else
        match slaves st !! slave_id with
        | None => (st, Raised)
        | Some slave =>
          let response :=
            match file_records slave !! file_number ≫= (.!! record_number) with
            | Some file_data =>
              let file_data := fit_record file_data record_length in
              let file_response_length := Z.of_nat (length file_data) + 1 in
              let response_data_length := file_response_length + 1 in
              pack_with_crc
                ([slave_id; 0x14; response_data_length; file_response_length;
                  reference_type] ++ ints_of_bytes file_data)
            | None =>
              let file_response_length := 1 in
              let response_data_length := 2 in
              pack_with_crc
                [slave_id; 0x14; response_data_length; file_response_length;
                 reference_type]
            end in
          match response with
          | Some response => (st, Returned (Some response))
          | None =>
            (_send_exception_response st slave_id 0x14 0x04, Returned None)
          end
        end.

(** ** Dispatcher *)

(** The three statistics updates of [_process_request]; each is guarded by
    [if slave_id in self.stats]. *)
Definition count_request (now : Z) (slave_id : Z) (n : nat) (st : Server) : Server :=
  match stats st !! slave_id with
  | Some s =>
    set_stats
      (<[slave_id :=
           mkConnectionStats (total_requests s + 1) (successful_requests s)
             (failed_requests s) now (connection_uptime s) (bytes_sent s)
             (bytes_received s + Z.of_nat n)]> (stats st)) st
  | None => st
  end.

Definition count_success (slave_id : Z) (n : nat) (st : Server) : Server :=
  match stats st !! slave_id with
  | Some s =>
    set_stats
      (<[slave_id :=
           mkConnectionStats (total_requests s) (successful_requests s + 1)
             (failed_requests s) (last_request_time s) (connection_uptime s)
             (bytes_sent s + Z.of_nat n) (bytes_received s)]> (stats st)) st
  | None => st
  end.

Definition count_failure (slave_id : Z) (st : Server) : Server :=
  match stats st !! slave_id with
  | Some s =>
    set_stats
      (<[slave_id :=
           mkConnectionStats (total_requests s) (successful_requests s)
             (failed_requests s + 1) (last_request_time s) (connection_uptime s)
             (bytes_sent s) (bytes_received s)]> (stats st)) st
  | None => st
  end.

(** The if/elif chain on the function code. *)
Definition handler_for (function_code : Z)
  : option (Server → Z → bytes → Server * Outcome) :=
  if function_code =? 0x03 then Some _handle_read_holding_registers
  else if function_code =? 0x04 then Some _handle_read_input_registers
  else if function_code =? 0x01 then Some _handle_read_coils
  else if function_code =? 0x02 then Some _handle_read_discrete_inputs
  else if function_code =? 0x05 then Some _handle_write_single_coil
  else if function_code =? 0x06 then Some _handle_write_single_register
  else if function_code =? 0x0F then Some _handle_write_multiple_coils
  else if function_code =? 0x10 then Some _handle_write_multiple_registers
  else if function_code =? 0x14 then Some _handle_read_file_records
  else None.

(** The function codes the chain has a branch for. *)
Definition supported_function_codes : list Z :=
  [0x01; 0x02; 0x03; 0x04; 0x05; 0x06; 0x0F; 0x10; 0x14].

(** The [except Exception] clause of [_process_request]. *)
Definition on_processing_error (st : Server) (request_data : bytes) : Server :=
  if (2 <=? length request_data)%nat then
    _send_exception_response st (at_ request_data 0) (at_ request_data 1) 0x04
  else st.

(** [if response:] — [None] and the empty bytes object are both false. *)
Definition truthy (response : option bytes) : option bytes :=
  match response with
  | Some (b :: r) => Some (b :: r)
  | _ => None
  end.

Definition _process_request (now : Z) (st : Server) (request_data : bytes)
  : Server :=
  if (length request_data <? 4)%nat then st
  else
    let slave_id := at_ request_data 0 in
    let function_code := at_ request_data 1 in
    let st := count_request now slave_id (length request_data) st in
    match slaves st !! slave_id with
    | None => _send_exception_response st slave_id function_code 0x0B
    | Some _ =>
      match _validate_crc request_data with
      | None => on_processing_error st request_data
      | Some false => st
      | Some true =>
        match handler_for function_code with
        | None => _send_exception_response st slave_id function_code 0x01
        | Some handler =>
          match handler st slave_id request_data with
          | (st, Raised) => on_processing_error st request_data
          | (st, Returned response) =>
            match truthy response with
            | Some response =>
              count_success slave_id (length response) (_send_response st response)
            | None => count_failure slave_id st
            end
          end
        end
      end
    end.

(** ** Frames used to state the properties *)

(** The exception response for [function_code] with [exception_code]. *)
Definition exception_frame (slave_id function_code exception_code : Z) : bytes :=
  framed [wrap_byte slave_id; wrap_byte (Z.lor function_code 0x80);
          wrap_byte exception_code].

(** A request body (identifier, function code, then the fields) with its
    CRC, as a client puts it on the wire. *)
Definition request_of (fields : list Z) : bytes := framed (wrap_byte <$> fields).

(** An eight-byte request: two 16-bit fields, high byte first. *)
Definition request8 (slave_id function_code x y : Z) : bytes :=
  request_of [slave_id; function_code; Z.shiftr x 8; x; Z.shiftr y 8; y].

(** Bytes as they arrive from the wire, given by their values; no CRC is
    added. *)
Definition raw_frame (values : list Z) : bytes := wrap_byte <$> values.

(** The exception code a response frame carries: a response whose
    function-code byte has bit 7 set is an exception response, and its next
    byte is the code. *)
Definition exception_code_of (frame : bytes) : option Z :=
  if Z.testbit (at_ frame 1) 7 then Some (at_ frame 2) else None.

(** What every handler call amounts to on a configured slave: it returns
    (never raises), leaves the counters and the port flag alone, and either
    returns a response for [function_code] without writing to the port, or
    returns [None] after writing nothing or one exception response with
    code 0x03 or 0x04. *)
Definition handler_shape (function_code : Z) (st : Server) (slave_id : Z)
    (result : Server * Outcome) : Prop :=
  ∃ st' r,
    result = (st', Returned r)
    ∧ stats st' = stats st
    ∧ port_open st' = port_open st
    ∧ ((∃ response, r = Some response
          ∧ port_written st' = port_written st
          ∧ at_ response 1 = function_code
          ∧ (2 <= length response)%nat)
       ∨ (r = None
          ∧ ∃ new, port_written st' = port_written st ++ new
              ∧ Forall (λ f, ∃ code, (code = 0x03 ∨ code = 0x04)
                               ∧ f = exception_frame slave_id function_code code)
                  new)).

(** ** The example configuration of [main] *)

(** [b"text" + b"\x00" * n] *)
Definition padded (text : string) (n : nat) : bytes :=
  String.list_byte_of_string text ++ replicate n Byte.x00.

Definition create_example_slave : SlaveConfig :=
  mkSlaveConfig 1 "Example Industrial Device"
    "Simulated industrial device for testing"
    (list_to_map [(2014, 16256); (2015, 17095); (2016, 1000); (2017, 2500);
                  (2018, 750)])
    (list_to_map [(3001, 25); (3002, 1013); (3003, 60)])
    (list_to_map [(1, true); (2, false); (3, true)])
    (list_to_map [(10001, true); (10002, false); (10003, true)])
    (list_to_map
       [(1, list_to_map
              [(0, padded "INDUSTRIAL_DEVICE_V1.0" 8);
               (1, padded "SERIAL_12345678" 12);
               (2, padded "CONFIG_DATA_HERE" 12)])]).

(** The server of [main] once the example slave is added and the port is
    open. *)
Definition example_server : Server :=
  fst (add_slave (new_server true) create_example_slave).

(** A second configuration that reuses identifier 1. *)
Definition spare_slave : SlaveConfig :=
  mkSlaveConfig 1 "Spare" "Same identifier as the example slave" ∅ ∅ ∅ ∅ ∅.

(** ** The rest of the slave store *)

Definition set_input_registers (h : gmap Z Z) (s : SlaveConfig) : SlaveConfig :=
  mkSlaveConfig (slave_id s) (name s) (description s) (holding_registers s)
    h (coils s) (discrete_inputs s) (file_records s).

Definition set_discrete_inputs (c : gmap Z bool) (s : SlaveConfig) : SlaveConfig :=
  mkSlaveConfig (slave_id s) (name s) (description s) (holding_registers s)
    (input_registers s) (coils s) c (file_records s).

Inductive StoreError := KeyError (key : Z).

(** [remove_slave] returns the server afterwards and the KeyError that
    [del self.stats[slave_id]] raises when the statistics are missing; the
    slave is already deleted by then. *)
Definition remove_slave (st : Server) (slave_id : Z) : Server * option StoreError :=
  match slaves st !! slave_id with
  | None => (st, None)
  | Some _ =>
    let st := set_slaves (delete slave_id (slaves st)) st in
    match stats st !! slave_id with
    | Some _ => (set_stats (delete slave_id (stats st)) st, None)
    | None => (st, Some (KeyError slave_id))
    end
  end.

(** The values handed to [update_register]: integers, booleans and [None]
    (a JSON number, boolean or null of the update route). *)
Inductive PyValue :=
| PyInt (n : Z)
| PyBool (b : bool)
| PyNone.

(** [int(value)]; TypeError on [None]. *)
Definition py_int (value : PyValue) : option Z :=
  match value with
  | PyInt n => Some n
  | PyBool b => Some (if b then 1 else 0)
  | PyNone => None
  end.

(** [bool(value)] *)
Definition py_bool (value : PyValue) : bool :=
  match value with
  | PyInt n => negb (n =? 0)
  | PyBool b => b
  | PyNone => false
  end.

Definition update_register (st : Server) (slave_id : Z) (register_type : string)
    (address : Z) (value : PyValue) : Server * bool :=
  match slaves st !! slave_id with
  | None => (st, false)
  | Some slave =>
    if decide (register_type = "holding") then
      match py_int value with
      | Some n =>
        (store_slave slave_id
           (set_holding_registers (<[address := n]> (holding_registers slave))
              slave) st, true)
      | None => (st, false)
      end
    else if decide (register_type = "input") then
      match py_int value with
      | Some n =>
        (store_slave slave_id
           (set_input_registers (<[address := n]> (input_registers slave)) slave)
           st, true)
      | None => (st, false)
      end
    else if decide (register_type = "coil") then
      (store_slave slave_id
         (set_coils (<[address := py_bool value]> (coils slave)) slave) st, true)
    else if decide (register_type = "discrete") then
      (store_slave slave_id
         (set_discrete_inputs (<[address := py_bool value]> (discrete_inputs slave))
            slave) st, true)
    else (st, false)
  end.

(** ** Frame reader *)

(** [serial_port.read(n)] on the bytes that arrive before the timeout: the
    first [n] of them, fewer when fewer arrive; the rest stays in the
    buffer. *)
Definition port_read (n : nat) (rx : bytes) : bytes * bytes :=
  (take n rx, drop n rx).

(** [serial_port.read(1)[0]] followed by [serial_port.read(byte_count + 2)]
    and the concatenation [prefix + bytes([byte_count]) + data]. An empty
    first read raises IndexError, which [_read_request] catches. *)
Definition read_counted (prefix rx : bytes) : option bytes * bytes :=
  let '(one, rx) := port_read 1 rx in
  match one with
  | [] => (None, rx)
  | b :: _ =>
    let byte_count := byte_to_int b in
    let '(data, rx) := port_read (Z.to_nat (byte_count + 2)) rx in
    match bytes_of_ints [byte_count] with
    | Some count_byte => (Some (prefix ++ count_byte ++ data), rx)
    | None => (None, rx)
    end
  end.

(** [_read_request] on the receive buffer: the frame it returns, if any,
    and the bytes left in the buffer. *)
Definition _read_request (rx : bytes) : option bytes * bytes :=
  let '(header, rx) := port_read 2 rx in
  if (length header <? 2)%nat then (None, rx)
  else
    let function_code := at_ header 1 in
    if bool_decide (function_code ∈ [0x01; 0x02; 0x03; 0x04; 0x05; 0x06]) then
      let '(remaining, rx) := port_read 6 rx in
      if (length remaining <? 6)%nat then (None, rx)
      else (Some (header ++ remaining), rx)
    else if (function_code =? 0x0F) || (function_code =? 0x10) then
      let '(byte_count_data, rx) := port_read 4 rx in
      if (length byte_count_data <? 4)%nat then (None, rx)
      else read_counted (header ++ byte_count_data) rx
    else if function_code =? 0x14 then read_counted header rx
    else (None, rx).

(** ** The client of modbus_gui.py *)

(** [ModbusGUI.calculate_crc] has the text of [_calculate_crc]. *)
Definition calculate_crc (data : bytes) : option bytes := _calculate_crc data.

(** [data[start:stop]] for non-negative bounds. *)
Definition slice_range (start stop : Z) (data : bytes) : bytes :=
  take (Z.to_nat stop - Z.to_nat start) (drop (Z.to_nat start) data).

(** The check every response goes through:
<<
    received_crc = response[-2:]
    calculated_crc = self.calculate_crc(response[:-2])
    if received_crc != calculated_crc: return None
>>
    [None] is a raised exception, [Some false] a mismatch. *)
Definition response_crc_matches (response : bytes) : option bool :=
  calculated_crc ← calculate_crc (slice_until_last 2 response);
  Some (bool_decide (slice_last 2 response = calculated_crc)).

(** The record [read_file_records_raw] returns. *)
Record FileRecordData := mkFileRecordData {
  fr_file_number : Z;
  fr_record_number : Z;
  fr_record_length : Z;
  fr_reference_type : Z;
  fr_data : bytes
}.

Section Client.

(** [line request] is what the serial line delivers after
    [self.ser.write(request)]; [connected] is
    [self.is_connected and self.ser]. *)
Variable connected : bool.
Variable line : bytes → bytes.

Definition read_holding_registers_raw (slave_id start_address num_registers : Z)
  : option (list Z) :=
  if negb connected then None
  else
    let attempt : option (option (list Z)) :=
      request_data ←
        bytes_of_ints
          [slave_id; 0x03;
           Z.land (Z.shiftr start_address 8) 0xFF; Z.land start_address 0xFF;
           Z.land (Z.shiftr num_registers 8) 0xFF; Z.land num_registers 0xFF];
      crc ← calculate_crc request_data;
      let full_request := request_data ++ crc in
      let expected := 3 + num_registers * 2 + 2 in
      let response := fst (port_read (Z.to_nat expected) (line full_request)) in
      if Z.of_nat (length response) <? expected then Some None
      else
        matches ← response_crc_matches response;
        if negb matches then Some None
        else
          Some (Some ((λ i, Z.lor (Z.shiftl (at_ response (Z.to_nat (3 + i * 2))) 8)
                              (at_ response (Z.to_nat (4 + i * 2))))
                        <$> seqZ 0 num_registers)) in
    match attempt with
    | Some result => result
    | None => None
    end.

Definition read_file_records_raw
    (slave_id file_number record_number record_length : Z)
  : option FileRecordData :=
  if negb connected then None
  else
    let attempt : option (option FileRecordData) :=
      let byte_count := 7 in
      let reference_type := 6 in
      request_data ←
        bytes_of_ints
          [slave_id; 0x14; byte_count; reference_type;
           Z.land (Z.shiftr file_number 8) 0xFF; Z.land file_number 0xFF;
           Z.land (Z.shiftr record_number 8) 0xFF; Z.land record_number 0xFF;
           Z.land (Z.shiftr record_length 8) 0xFF; Z.land record_length 0xFF];
      crc ← calculate_crc request_data;
      let full_request := request_data ++ crc in
      let '(header_response, rx) := port_read 3 (line full_request) in
      if (length header_response <? 3)%nat then Some None
      else
        let response_data_length := at_ header_response 2 in
        let remaining_response :=
          fst (port_read (Z.to_nat (response_data_length + 2)) rx) in
        if Z.of_nat (length remaining_response) <? response_data_length + 2
        then Some None
        else
          let full_response := header_response ++ remaining_response in
          matches ← response_crc_matches full_response;
          if negb matches then Some None
          else if (length full_response <? 6)%nat then Some None
          else
            let file_response_length := at_ full_response 3 in
            let file_reference_type := at_ full_response 4 in
            let data_start_index := 5 in
            let data_end_index := data_start_index + (file_response_length - 1) in
            if data_end_index >? Z.of_nat (length full_response) - 2
            then Some None
            else
              Some (Some (mkFileRecordData file_number record_number
                            record_length file_reference_type
                            (slice_range data_start_index data_end_index
                               full_response))) in
    match attempt with
    | Some result => result
    | None => None
    end.

End Client.

(** ** Server and client on one line *)

(** The bytes the server puts on the line while it handles what the client
    wrote: the framer takes a request from the buffer, the dispatcher
    handles it, and the frames added to the port are what the client can
    read. *)
Definition server_line (now : Z) (st : Server) (sent : bytes) : bytes :=
  match truthy (fst (_read_request sent)) with
  | Some request_data =>
    mjoin (drop (length (port_written st))
             (port_written (_process_request now st request_data)))
  | None => []
  end.

(** ** Sequences of operations *)

Inductive Operation :=
| AddSlave (slave_config : SlaveConfig)
| RemoveSlave (slave_id : Z)
| UpdateRegister (slave_id : Z) (register_type : string) (address : Z)
    (value : PyValue)
| Request (now : Z) (request_data : bytes).

Definition apply_operation (st : Server) (op : Operation) : Server :=
  match op with
  | AddSlave slave_config => fst (add_slave st slave_config)
  | RemoveSlave slave_id => fst (remove_slave st slave_id)
  | UpdateRegister slave_id register_type address value =>
    fst (update_register st slave_id register_type address value)
  | Request now request_data => _process_request now st request_data
  end.

Definition run (ops : list Operation) (st : Server) : Server :=
  fold_left apply_operation ops st.

(** What the operations keep: statistics exist exactly for the configured
    slaves, every slave is stored under its own identifier, and the number
    of slaves is within the ceiling. *)
Definition store_invariant (st : Server) : Prop :=
  dom (stats st) = dom (slaves st)
  ∧ (∀ k sl, slaves st !! k = Some sl → slave_id sl = k)
  ∧ Z.of_nat (size (slaves st)) <= Z.max 0 (max_slaves st).

(** The counters of a statistics record as [_log_statistics] reads them:
    none is negative, and the requests counted as successful or failed are
    among the requests counted. *)
Definition counters_consistent (s : ConnectionStats) : Prop :=
  0 <= successful_requests s
  ∧ 0 <= failed_requests s
  ∧ successful_requests s + failed_requests s <= total_requests s
  ∧ 0 <= bytes_sent s
  ∧ 0 <= bytes_received s.

Definition stats_consistent (st : Server) : Prop :=
  ∀ k s, stats st !! k = Some s → counters_consistent s.

(** The statistics between [total_requests += 1] and the update that
    follows the handler: the record of [slave_id] has one request counted
    that is neither successful nor failed yet. *)
Definition request_pending (slave_id : Z) (st : Server) : Prop :=
  ∀ k s, stats st !! k = Some s →
    counters_consistent s
    ∧ (k = slave_id →
       successful_requests s + failed_requests s + 1 <= total_requests s).

(** A frame that is a non-empty body followed by the CRC of that body. *)
Definition well_framed (frame : bytes) : Prop :=
  ∃ body, frame = framed body ∧ (1 <= length body)%nat.

(** What a handler call puts on the port: nothing when it returns a
    response (the dispatcher sends it), at most one frame otherwise, and
    every frame well framed. *)
Definition emits (st : Server) (result : Server * Outcome) : Prop :=
  ∃ new,
    port_written (fst result) = port_written st ++ new
    ∧ Forall well_framed new
    ∧ match snd result with
      | Returned (Some response) => well_framed response ∧ new = []
      | Returned None => (length new <= 1)%nat
      | Raised => new = []
      end.

(** Two versions of a slave that differ at most in holding registers and
    coils, the two spaces a request can write. *)
Definition same_read_only (sl sl' : SlaveConfig) : Prop :=
  slave_id sl' = slave_id sl
  ∧ name sl' = name sl
  ∧ description sl' = description sl
  ∧ input_registers sl' = input_registers sl
  ∧ discrete_inputs sl' = discrete_inputs sl
  ∧ file_records sl' = file_records sl.

(** What a handler or a whole request may do to the server besides
    writing to the port and counting: nothing, or replace the addressed
    slave by a version of itself. *)
Definition store_effect (st : Server) (sid : Z) (st' : Server) : Prop :=
  port_open st' = port_open st
  ∧ max_slaves st' = max_slaves st
  ∧ (slaves st' = slaves st
     ∨ ∃ sl sl', slaves st !! sid = Some sl
         ∧ slaves st' = <[sid := sl']> (slaves st)
         ∧ same_read_only sl sl').

(** ** Requests on the receive buffer *)

(** The length the frame reader gives a request, from its function code
    and, for the counted requests, its byte-count field. *)
Definition announced_length (frame : bytes) : option Z :=
  let function_code := at_ frame 1 in
  if bool_decide (function_code ∈ [0x01; 0x02; 0x03; 0x04; 0x05; 0x06]) then
    Some 8
  else if (function_code =? 0x0F) || (function_code =? 0x10) then
    Some (7 + at_ frame 6 + 2)
  else if function_code =? 0x14 then Some (3 + at_ frame 2 + 2)
  else None.

(** A request that is exactly as long as the reader will take it to be. *)
Definition complete_request (frame : bytes) : Prop :=
  announced_length frame = Some (Z.of_nat (length frame)).

(** The frames [_server_loop] obtains in [fuel] turns: a turn does nothing
    unless bytes are waiting, and passes on what [_read_request] returns
    when it is not empty. *)
Fixpoint read_frames (fuel : nat) (rx : bytes) : list bytes :=
  match fuel with
  | O => []
  | S fuel =>
    match rx with
    | [] => []
    | _ =>
      let '(request_data, rx) := _read_request rx in
      match truthy request_data with
      | Some request_data => request_data :: read_frames fuel rx
      | None => read_frames fuel rx
      end
    end
  end.

(** * Properties *)

(** ** Bytes *)

Section Bytes.

Lemma byte_to_int_range (b : byte) : 0 <= byte_to_int b < 256.
Proof.
  unfold byte_to_int. pose proof (Byte.to_N_bounded b). lia.
Qed.

Lemma int_to_byte_of_byte (b : byte) : int_to_byte (byte_to_int b) = Some b.
Proof.
  unfold int_to_byte. pose proof (byte_to_int_range b) as Hr.
  replace ((0 <=? byte_to_int b) && (byte_to_int b <? 256)) with true
    by (symmetry; apply andb_true_iff; split;
        [apply Z.leb_le | apply Z.ltb_lt]; lia).
  unfold byte_to_int. rewrite N2Z.id. apply Byte.of_to_N.
Qed.

Lemma of_N_wrap (n : Z) :
  Byte.of_N (Z.to_N (n mod 256)) = Some (wrap_byte n).
Proof.
  unfold wrap_byte.
  destruct (Byte.of_N (Z.to_N (n mod 256))) as [b|] eqn:E; [reflexivity|].
  apply Byte.of_N_None_iff in E.
  pose proof (Z.mod_pos_bound n 256 eq_refl). lia.
Qed.

Lemma byte_to_int_wrap (n : Z) : byte_to_int (wrap_byte n) = n mod 256.
Proof.
  pose proof (of_N_wrap n) as E. apply Byte.to_of_N in E.
  unfold byte_to_int. rewrite E.
  pose proof (Z.mod_pos_bound n 256 eq_refl). lia.
Qed.

Lemma wrap_byte_to_int (b : byte) : wrap_byte (byte_to_int b) = b.
Proof.
  pose proof (byte_to_int_range b) as Hr.
  pose proof (of_N_wrap (byte_to_int b)) as E.
  rewrite Z.mod_small in E by lia.
  unfold byte_to_int in E at 1. rewrite N2Z.id, Byte.of_to_N in E.
  congruence.
Qed.

Lemma int_to_byte_Some (n : Z) :
  0 <= n < 256 → int_to_byte n = Some (wrap_byte n).
Proof.
  intros Hr. unfold int_to_byte.
  replace ((0 <=? n) && (n <? 256)) with true
    by (symmetry; apply andb_true_iff; split;
        [apply Z.leb_le | apply Z.ltb_lt]; lia).
  rewrite <- (of_N_wrap n). now rewrite Z.mod_small by lia.
Qed.

Lemma int_to_byte_None (n : Z) : ¬ (0 <= n < 256) → int_to_byte n = None.
Proof.
  intros Hr. unfold int_to_byte.
  destruct (0 <=? n) eqn:E1; [|reflexivity].
  destruct (n <? 256) eqn:E2; [|reflexivity].
  apply Z.leb_le in E1. apply Z.ltb_lt in E2. lia.
Qed.

Lemma bytes_of_ints_Some (l : list Z) :
  Forall (fun n => 0 <= n < 256) l →
  bytes_of_ints l = Some (wrap_byte <$> l).
Proof.
  unfold bytes_of_ints. induction 1 as [|n l Hn Hl IH]; [reflexivity|].
  cbn. rewrite (int_to_byte_Some n Hn). cbn. rewrite IH. reflexivity.
Qed.

Lemma bytes_of_ints_None (l : list Z) :
  Exists (fun n => ¬ (0 <= n < 256)) l → bytes_of_ints l = None.
Proof.
  unfold bytes_of_ints. induction 1 as [n l Hn|n l Hl IH]; cbn.
  - now rewrite (int_to_byte_None n Hn).
  - rewrite IH. now destruct (int_to_byte n).
Qed.

Lemma ints_of_bytes_range (b : bytes) :
  Forall (fun n => 0 <= n < 256) (ints_of_bytes b).
Proof.
  unfold ints_of_bytes. apply Forall_fmap, Forall_true. intros x.
  apply byte_to_int_range.
Qed.

Lemma wrap_ints_of_bytes (b : bytes) : wrap_byte <$> ints_of_bytes b = b.
Proof.
  unfold ints_of_bytes. rewrite <- list_fmap_compose.
  rewrite <- (list_fmap_id b) at 2. apply list_fmap_ext.
  intros _ x _. apply wrap_byte_to_int.
Qed.

Lemma ints_of_wrap (l : list Z) :
  Forall (fun n => 0 <= n < 256) l → ints_of_bytes (wrap_byte <$> l) = l.
Proof.
  unfold ints_of_bytes. induction 1 as [|n l Hn Hl IH]; [reflexivity|].
  cbn. rewrite byte_to_int_wrap, Z.mod_small by lia. now f_equal.
Qed.

Lemma at_range (data : bytes) (i : nat) : 0 <= at_ data i < 256.
Proof. apply byte_to_int_range. Qed.

Lemma word_at_range (data : bytes) (i : nat) : 0 <= word_at data i < 65536.
Proof.
  unfold word_at.
  pose proof (at_range data i) as H1. pose proof (at_range data (S i)) as H2.
  rewrite Z.shiftl_mul_pow2 by lia.
  rewrite <- Z.add_nocarry_lor.
  - change (2 ^ 8) with 256. lia.
  - apply Z.bits_inj'. intros n Hn. rewrite Z.land_spec, Z.bits_0.
    destruct (Z.lt_ge_cases n 8) as [Hlt|Hge].
    + rewrite Z.mul_pow2_bits_low by lia. reflexivity.
    + replace (Z.testbit (at_ data (S i)) n) with false;
        [apply andb_false_r|].
      symmetry. destruct (Z.eq_dec (at_ data (S i)) 0) as [->|Hnz];
        [apply Z.bits_0|].
      apply Z.bits_above_log2; [lia|].
      apply Z.lt_le_trans with 8; [|lia].
      apply Z.log2_lt_pow2; [lia|]. change (2 ^ 8) with 256. lia.
Qed.

End Bytes.

(** ** CRC codec *)

Section Crc.

Lemma lxor_below_pow2 (a b n : Z) :
  0 < n → 0 <= a < 2 ^ n → 0 <= b < 2 ^ n → 0 <= Z.lxor a b < 2 ^ n.
Proof.
  intros Hn Ha Hb.
  assert (Hnn : 0 <= Z.lxor a b) by (apply Z.lxor_nonneg; lia).
  split; [exact Hnn|].
  destruct (Z.eq_dec (Z.lxor a b) 0) as [->|Hnz]; [lia|].
  apply Z.log2_lt_pow2; [lia|].
  eapply Z.le_lt_trans; [apply Z.log2_lxor; lia|].
  apply Z.max_lub_lt.
  - destruct (Z.eq_dec a 0) as [->|Ha0]; [cbn; lia|].
    apply Z.log2_lt_pow2; lia.
  - destruct (Z.eq_dec b 0) as [->|Hb0]; [cbn; lia|].
    apply Z.log2_lt_pow2; lia.
Qed.

Lemma crc_shift_range (crc : Z) : crc_range crc → crc_range (crc_shift crc).
Proof.
  unfold crc_range, crc_shift. intros Hr.
  assert (Hs : 0 <= Z.shiftr crc 1 < 32768).
  { rewrite Z.shiftr_div_pow2 by lia. change (2 ^ 1) with 2.
    split; [apply Z.div_pos; lia | apply Z.div_lt_upper_bound; lia]. }
  destruct (negb (Z.land crc 1 =? 0)); [|lia].
  cbn zeta.
  pose proof (lxor_below_pow2 (Z.shiftr crc 1) 0xA001 16) as Hx.
  change (2 ^ 16) with 65536 in Hx. apply Hx; lia.
Qed.

Lemma crc_update_range (crc : Z) (b : byte) :
  crc_range crc → crc_range (crc_update crc b).
Proof.
  intros Hr. unfold crc_update. cbn zeta.
  assert (Hx : crc_range (Z.lxor crc (byte_to_int b))).
  { unfold crc_range in *.
    pose proof (byte_to_int_range b).
    pose proof (lxor_below_pow2 crc (byte_to_int b) 16) as Hx.
    change (2 ^ 16) with 65536 in Hx. apply Hx; lia. }
  cbn [Nat.iter nat_rect]. now do 8 apply crc_shift_range.
Qed.

Lemma fold_crc_update_range (data : bytes) (crc : Z) :
  crc_range crc → crc_range (fold_left crc_update data crc).
Proof.
  revert crc. induction data as [|b data IH]; intros crc Hr; cbn; [exact Hr|].
  apply IH, crc_update_range, Hr.
Qed.

Lemma crc_register_range (data : bytes) : crc_range (crc_register data).
Proof. apply fold_crc_update_range. unfold crc_range. lia. Qed.

(** The inner step of the source and the one of the specification agree. *)
Lemma crc_shift_spec (crc : Z) : crc_shift crc = CrcSpec.bit_round crc.
Proof.
  unfold crc_shift, CrcSpec.bit_round. rewrite Z.bit0_odd.
  change 1 with (Z.ones 1) at 1. rewrite Z.land_ones by lia.
  change (2 ^ 1) with 2. rewrite Zmod_odd.
  destruct (Z.odd crc); reflexivity.
Qed.

Lemma iter_repeat_times {A} (n : nat) (f : A → A) (x : A) :
  Nat.iter n f x = CrcSpec.repeat_times n f x.
Proof.
  revert x. induction n as [|n IH]; intros x; [reflexivity|].
  cbn [CrcSpec.repeat_times]. rewrite <- IH.
  clear IH. induction n as [|n IH]; [reflexivity|].
  cbn [Nat.iter nat_rect] in *. now rewrite IH.
Qed.

Lemma crc_update_spec (crc : Z) (b : byte) :
  crc_update crc b
  = CrcSpec.repeat_times 8 CrcSpec.bit_round (Z.lxor crc (byte_to_int b)).
Proof.
  unfold crc_update. cbn zeta. rewrite iter_repeat_times.
  cbn [CrcSpec.repeat_times]. now rewrite !crc_shift_spec.
Qed.

Lemma fold_crc_update_spec (data : bytes) (crc : Z) :
  fold_left crc_update data crc = CrcSpec.run crc (ints_of_bytes data).
Proof.
  revert crc. induction data as [|b data IH]; intros crc; [reflexivity|].
  cbn [fold_left ints_of_bytes fmap list_fmap CrcSpec.run].
  rewrite IH, crc_update_spec. reflexivity.
Qed.

Lemma crc_register_spec (data : bytes) :
  crc_register data = CrcSpec.crc16 (ints_of_bytes data).
Proof. apply fold_crc_update_spec. Qed.

Lemma int_to_bytes_little_2 (n : Z) :
  0 <= n < 65536 →
  int_to_bytes_little 2 n = Some [wrap_byte n; wrap_byte (Z.shiftr n 8)].
Proof.
  intros Hr. unfold int_to_bytes_little.
  change (256 ^ Z.of_nat 2) with 65536.
  replace ((n <? 0) || (65536 <=? n)) with false
    by (symmetry; apply orb_false_iff; split;
        [apply Z.ltb_ge | apply Z.leb_gt]; lia).
  cbn [little_endian_digits].
  assert (Hq : 0 <= n / 256 < 256)
    by (split; [apply Z.div_pos; lia | apply Z.div_lt_upper_bound; lia]).
  rewrite bytes_of_ints_Some.
  - cbn. f_equal. f_equal.
    + unfold wrap_byte. now rewrite Zmod_mod.
    + f_equal. rewrite Z.shiftr_div_pow2 by lia. change (2 ^ 8) with 256.
      unfold wrap_byte. now rewrite Zmod_mod.
  - repeat constructor; try lia; apply Z.mod_pos_bound; lia.
Qed.

(** [_calculate_crc] never raises, and returns the two CRC bytes. *)
Lemma calculate_crc_total (data : bytes) :
  _calculate_crc data = Some (crc_bytes data).
Proof.
  unfold _calculate_crc, crc_bytes.
  apply int_to_bytes_little_2, crc_register_range.
Qed.

Lemma crc_bytes_ints (data : bytes) :
  ints_of_bytes (crc_bytes data)
  = CrcSpec.emit (CrcSpec.crc16 (ints_of_bytes data)).
Proof.
  unfold crc_bytes, CrcSpec.emit. cbn zeta.
  rewrite <- crc_register_spec.
  cbn [ints_of_bytes fmap list_fmap]. rewrite !byte_to_int_wrap.
  change 255 with (Z.ones 8). rewrite !Z.land_ones by lia.
  reflexivity.
Qed.

Lemma validate_crc_total (data : bytes) :
  _validate_crc data
  = Some (if (length data <? 3)%nat then false
          else bool_decide
                 (slice_last 2 data = crc_bytes (slice_until_last 2 data))).
Proof.
  unfold _validate_crc. destruct (length data <? 3)%nat; [reflexivity|].
  rewrite calculate_crc_total. reflexivity.
Qed.

Lemma pack_with_crc_Some (l : list Z) :
  Forall (fun n => 0 <= n < 256) l →
  pack_with_crc l = Some (framed (wrap_byte <$> l)).
Proof.
  intros Hl. unfold pack_with_crc. rewrite (bytes_of_ints_Some l Hl).
  cbn. rewrite calculate_crc_total. reflexivity.
Qed.

Lemma pack_with_crc_None (l : list Z) :
  Exists (fun n => ¬ (0 <= n < 256)) l → pack_with_crc l = None.
Proof.
  intros Hl. unfold pack_with_crc. now rewrite (bytes_of_ints_None l Hl).
Qed.

Lemma echo_response_total (request_data : bytes) :
  echo_response request_data = Some (framed (slice_until_last 2 request_data)).
Proof.
  unfold echo_response. cbn zeta. rewrite calculate_crc_total. reflexivity.
Qed.

(** A frame that passed validation is its own echo. *)
Lemma validated_frame (data : bytes) :
  _validate_crc data = Some true →
  framed (slice_until_last 2 data) = data.
Proof.
  rewrite validate_crc_total. intros [=H].
  destruct (length data <? 3)%nat; [discriminate|].
  apply bool_decide_eq_true in H. unfold framed. rewrite <- H.
  unfold slice_until_last, slice_last. apply take_drop.
Qed.

Lemma framed_valid (body : bytes) :
  (1 <= length body)%nat → _validate_crc (framed body) = Some true.
Proof.
  intros Hlen. rewrite validate_crc_total.
  assert (Hl : length (framed body) = (length body + 2)%nat)
    by (unfold framed; rewrite length_app; reflexivity).
  rewrite Hl. replace (length body + 2 <? 3)%nat with false
    by (symmetry; apply Nat.ltb_ge; lia).
  f_equal. apply bool_decide_eq_true.
  unfold slice_last, slice_until_last. rewrite Hl.
  replace (length body + 2 - 2)%nat with (length body) by lia.
  unfold framed. rewrite drop_app_length, take_app_length. reflexivity.
Qed.

End Crc.

(** ** The server state under sending and counting *)

Section State.

Lemma lor_below_pow2 (a b n : Z) :
  0 < n → 0 <= a < 2 ^ n → 0 <= b < 2 ^ n → 0 <= Z.lor a b < 2 ^ n.
Proof.
  intros Hn Ha Hb.
  assert (Hnn : 0 <= Z.lor a b) by (apply Z.lor_nonneg; lia).
  split; [exact Hnn|].
  destruct (Z.eq_dec (Z.lor a b) 0) as [->|Hnz]; [lia|].
  apply Z.log2_lt_pow2; [lia|].
  rewrite Z.log2_lor by lia.
  apply Z.max_lub_lt.
  - destruct (Z.eq_dec a 0) as [->|Ha0]; [cbn; lia|].
    apply Z.log2_lt_pow2; lia.
  - destruct (Z.eq_dec b 0) as [->|Hb0]; [cbn; lia|].
    apply Z.log2_lt_pow2; lia.
Qed.

Lemma lor_byte_range (a b : Z) :
  0 <= a < 256 → 0 <= b < 256 → 0 <= Z.lor a b < 256.
Proof. intros Ha Hb. apply (lor_below_pow2 a b 8); cbn; lia. Qed.

Lemma land_byte_range (a : Z) : 0 <= Z.land a 0xFF < 256.
Proof.
  change 255 with (Z.ones 8). rewrite Z.land_ones by lia.
  apply Z.mod_pos_bound. reflexivity.
Qed.

Lemma send_response_open (st : Server) (response : bytes) :
  port_open st = true →
  _send_response st response
  = set_port_written (port_written st ++ [response]) st.
Proof. intros Ho. unfold _send_response. now rewrite Ho. Qed.

Lemma send_response_closed (st : Server) (response : bytes) :
  port_open st = false → _send_response st response = st.
Proof. intros Ho. unfold _send_response. now rewrite Ho. Qed.

Lemma send_response_keeps (st : Server) (response : bytes) :
  slaves (_send_response st response) = slaves st
  ∧ stats (_send_response st response) = stats st
  ∧ port_open (_send_response st response) = port_open st
  ∧ max_slaves (_send_response st response) = max_slaves st.
Proof. unfold _send_response. destruct (port_open st) eqn:E; cbn; auto. Qed.

(** With a byte-sized identifier and function code, the exception response
    is built without error and handed to [_send_response]. *)
Lemma send_exception_response_frame (st : Server) (sid fc code : Z) :
  0 <= sid < 256 → 0 <= fc < 256 → 0 <= code < 256 →
  _send_exception_response st sid fc code
  = _send_response st (exception_frame sid fc code).
Proof.
  intros Hs Hf Hc. unfold _send_exception_response.
  rewrite pack_with_crc_Some; [reflexivity|].
  repeat constructor; try lia; apply lor_byte_range; lia.
Qed.

Lemma send_exception_response_keeps (st : Server) (sid fc code : Z) :
  slaves (_send_exception_response st sid fc code) = slaves st
  ∧ stats (_send_exception_response st sid fc code) = stats st
  ∧ port_open (_send_exception_response st sid fc code) = port_open st
  ∧ max_slaves (_send_exception_response st sid fc code) = max_slaves st.
Proof.
  unfold _send_exception_response.
  destruct (pack_with_crc _); [apply send_response_keeps|auto].
Qed.

Lemma count_request_keeps (now sid : Z) (n : nat) (st : Server) :
  slaves (count_request now sid n st) = slaves st
  ∧ port_open (count_request now sid n st) = port_open st
  ∧ port_written (count_request now sid n st) = port_written st
  ∧ max_slaves (count_request now sid n st) = max_slaves st.
Proof. unfold count_request. destruct (stats st !! sid); cbn; auto. Qed.

Lemma count_success_keeps (sid : Z) (n : nat) (st : Server) :
  slaves (count_success sid n st) = slaves st
  ∧ port_open (count_success sid n st) = port_open st
  ∧ port_written (count_success sid n st) = port_written st
  ∧ max_slaves (count_success sid n st) = max_slaves st.
Proof. unfold count_success. destruct (stats st !! sid); cbn; auto. Qed.

Lemma count_failure_keeps (sid : Z) (st : Server) :
  slaves (count_failure sid st) = slaves st
  ∧ port_open (count_failure sid st) = port_open st
  ∧ port_written (count_failure sid st) = port_written st
  ∧ max_slaves (count_failure sid st) = max_slaves st.
Proof. unfold count_failure. destruct (stats st !! sid); cbn; auto. Qed.

Lemma exception_frame_ints (sid fc code : Z) :
  0 <= sid < 256 → 0 <= fc < 256 → 0 <= code < 256 →
  ∃ lo hi,
    ints_of_bytes (exception_frame sid fc code)
    = [sid; Z.lor fc 0x80; code; lo; hi].
Proof.
  intros Hs Hf Hc.
  pose proof (lor_byte_range fc 0x80 Hf ltac:(lia)) as Hl.
  unfold exception_frame, framed, crc_bytes. cbn zeta.
  eexists _, _. cbn [app ints_of_bytes fmap list_fmap].
  rewrite !byte_to_int_wrap.
  rewrite (Z.mod_small sid), (Z.mod_small (Z.lor fc 128)), (Z.mod_small code)
    by lia.
  reflexivity.
Qed.

(** The dispatcher once the frame is long enough, the slave is configured
    and the CRC has passed. *)
Lemma process_request_dispatch (now : Z) (st : Server) (req : bytes)
    (sl : SlaveConfig) :
  (4 <= length req)%nat →
  slaves st !! at_ req 0 = Some sl →
  _validate_crc req = Some true →
  _process_request now st req
  = let st1 := count_request now (at_ req 0) (length req) st in
    match handler_for (at_ req 1) with
    | None => _send_exception_response st1 (at_ req 0) (at_ req 1) 0x01
    | Some handler =>
      match handler st1 (at_ req 0) req with
      | (st2, Raised) => on_processing_error st2 req
      | (st2, Returned response) =>
        match truthy response with
        | Some response =>
          count_success (at_ req 0) (length response)
            (_send_response st2 response)
        | None => count_failure (at_ req 0) st2
        end
      end
    end.
Proof.
  intros Hlen Hsl Hcrc. unfold _process_request.
  replace (length req <? 4)%nat with false by (symmetry; apply Nat.ltb_ge; lia).
  cbn zeta.
  destruct (count_request_keeps now (at_ req 0) (length req) st) as (Hs & _).
  rewrite Hs, Hsl, Hcrc. reflexivity.
Qed.

End State.

(** ** The read handlers *)

Section Reads.

Lemma register_bytes_range (registers : gmap Z Z) (l : list Z) :
  Forall (fun n => 0 <= n < 256) (flat_map (register_bytes registers) l).
Proof.
  induction l as [|addr l IH]; cbn [flat_map]; [constructor|].
  apply Forall_app. split; [|exact IH].
  unfold register_bytes. destruct (registers !! addr).
  - repeat constructor; apply land_byte_range.
  - repeat constructor; lia.
Qed.

Lemma fold_left_invariant {A B} (P : A → Prop) (f : A → B → A) (l : list B)
    (init : A) :
  P init → (∀ acc x, x ∈ l → P acc → P (f acc x)) → P (fold_left f l init).
Proof.
  revert init. induction l as [|x l IH]; intros init Hi Hstep; cbn; [exact Hi|].
  apply IH.
  - apply Hstep; [left | exact Hi].
  - intros acc y Hy. apply Hstep. now right.
Qed.

Lemma packed_byte_range (bits : gmap Z bool) (a q i : Z) :
  0 <= packed_byte bits a q i < 256.
Proof.
  unfold packed_byte.
  apply (fold_left_invariant (fun n => 0 <= n < 256)); [lia|].
  intros acc k Hk Hacc. cbn zeta.
  destruct (a + i * 8 + k <? a + q); [|exact Hacc].
  destruct (bits !! (a + i * 8 + k)) as [[|]|]; try exact Hacc.
  apply lor_byte_range; [exact Hacc|].
  apply elem_of_seqZ in Hk. rewrite Z.shiftl_1_l.
  split; [apply Z.pow_nonneg; lia|].
  change 256 with (2 ^ 8). apply Z.pow_lt_mono_r; lia.
Qed.

Lemma read_registers_short (fc : Z) (regs : SlaveConfig → gmap Z Z)
    (st : Server) (sid : Z) (req : bytes) :
  (length req < 8)%nat → read_registers fc regs st sid req = (st, Returned None).
Proof.
  intros Hlen. unfold read_registers.
  now replace (length req <? 8)%nat with true by (symmetry; apply Nat.ltb_lt; lia).
Qed.

Lemma read_registers_illegal (fc : Z) (regs : SlaveConfig → gmap Z Z)
    (st : Server) (sid : Z) (req : bytes) :
  (8 <= length req)%nat →
  word_at req 4 < 1 ∨ 125 < word_at req 4 →
  read_registers fc regs st sid req
  = (_send_exception_response st sid fc 0x03, Returned None).
Proof.
  intros Hlen Hq. unfold read_registers.
  replace (length req <? 8)%nat with false by (symmetry; apply Nat.ltb_ge; lia).
  cbn zeta.
  replace ((word_at req 4 <? 1) || (word_at req 4 >? 125)) with true;
    [reflexivity|].
  symmetry. apply orb_true_iff. rewrite Z.ltb_lt, Z.gtb_gt. lia.
Qed.

Lemma read_registers_ok (fc : Z) (regs : SlaveConfig → gmap Z Z)
    (st : Server) (sid : Z) (req : bytes) (sl : SlaveConfig) :
  (8 <= length req)%nat →
  1 <= word_at req 4 <= 125 →
  slaves st !! sid = Some sl →
  0 <= sid < 256 → 0 <= fc < 256 →
  read_registers fc regs st sid req
  = (st, Returned (Some (framed (wrap_byte <$>
       ([sid; fc; word_at req 4 * 2]
        ++ flat_map (register_bytes (regs sl))
             (seqZ (word_at req 2) (word_at req 4))))))).
Proof.
  intros Hlen Hq Hsl Hs Hf. unfold read_registers.
  replace (length req <? 8)%nat with false by (symmetry; apply Nat.ltb_ge; lia).
  cbn zeta.
  replace ((word_at req 4 <? 1) || (word_at req 4 >? 125)) with false.
  2:{ symmetry. apply orb_false_iff. rewrite Z.ltb_ge.
      split; [lia|]. rewrite Z.gtb_ltb. apply Z.ltb_ge. lia. }
  rewrite Hsl. rewrite pack_with_crc_Some; [reflexivity|].
  apply Forall_app. split; [|apply register_bytes_range].
  repeat constructor; lia.
Qed.

Lemma read_bits_short (fc : Z) (bits : SlaveConfig → gmap Z bool)
    (st : Server) (sid : Z) (req : bytes) :
  (length req < 8)%nat → read_bits fc bits st sid req = (st, Returned None).
Proof.
  intros Hlen. unfold read_bits.
  now replace (length req <? 8)%nat with true by (symmetry; apply Nat.ltb_lt; lia).
Qed.

Lemma read_bits_illegal (fc : Z) (bits : SlaveConfig → gmap Z bool)
    (st : Server) (sid : Z) (req : bytes) :
  (8 <= length req)%nat →
  word_at req 4 < 1 ∨ 2000 < word_at req 4 →
  read_bits fc bits st sid req
  = (_send_exception_response st sid fc 0x03, Returned None).
Proof.
  intros Hlen Hq. unfold read_bits.
  replace (length req <? 8)%nat with false by (symmetry; apply Nat.ltb_ge; lia).
  cbn zeta.
  replace ((word_at req 4 <? 1) || (word_at req 4 >? 2000)) with true;
    [reflexivity|].
  symmetry. apply orb_true_iff. rewrite Z.ltb_lt, Z.gtb_gt. lia.
Qed.

Lemma read_bits_ok (fc : Z) (bits : SlaveConfig → gmap Z bool)
    (st : Server) (sid : Z) (req : bytes) (sl : SlaveConfig) :
  (8 <= length req)%nat →
  1 <= word_at req 4 <= 2000 →
  slaves st !! sid = Some sl →
  0 <= sid < 256 → 0 <= fc < 256 →
  read_bits fc bits st sid req
  = (st, Returned (Some (framed (wrap_byte <$>
       ([sid; fc; (word_at req 4 + 7) / 8]
        ++ (packed_byte (bits sl) (word_at req 2) (word_at req 4)
              <$> seqZ 0 ((word_at req 4 + 7) / 8))))))).
Proof.
  intros Hlen Hq Hsl Hs Hf. unfold read_bits.
  replace (length req <? 8)%nat with false by (symmetry; apply Nat.ltb_ge; lia).
  cbn zeta.
  replace ((word_at req 4 <? 1) || (word_at req 4 >? 2000)) with false.
  2:{ symmetry. apply orb_false_iff. rewrite Z.ltb_ge.
      split; [lia|]. rewrite Z.gtb_ltb. apply Z.ltb_ge. lia. }
  rewrite Hsl. rewrite pack_with_crc_Some; [reflexivity|].
  apply Forall_app. split.
  - assert (0 <= (word_at req 4 + 7) / 8 < 256)
      by (split; [apply Z.div_pos; lia | apply Z.div_lt_upper_bound; lia]).
    repeat constructor; lia.
  - apply Forall_fmap, Forall_true. intros i. apply packed_byte_range.
Qed.

End Reads.

(** ** Read requests with a quantity out of range *)

Section IllegalQuantity.

Lemma set_slaves_count_request (m : gmap Z SlaveConfig) (now sid : Z) (n : nat)
    (st : Server) :
  count_request now sid n (set_slaves m st)
  = set_slaves m (count_request now sid n st).
Proof. unfold count_request. cbn. destruct (stats st !! sid); reflexivity. Qed.

Lemma set_slaves_count_failure (m : gmap Z SlaveConfig) (sid : Z) (st : Server) :
  count_failure sid (set_slaves m st) = set_slaves m (count_failure sid st).
Proof. unfold count_failure. cbn. destruct (stats st !! sid); reflexivity. Qed.

Lemma set_slaves_send_exception (m : gmap Z SlaveConfig) (sid fc code : Z)
    (st : Server) :
  _send_exception_response (set_slaves m st) sid fc code
  = set_slaves m (_send_exception_response st sid fc code).
Proof.
  unfold _send_exception_response. destruct (pack_with_crc _); [|reflexivity].
  unfold _send_response. cbn. destruct (port_open st); reflexivity.
Qed.

(** Which handler a read with an illegal quantity reaches, and what it does:
    the exception is sent and the request counted as failed. *)
Lemma illegal_quantity_result (now : Z) (st : Server) (req : bytes)
    (sl : SlaveConfig) :
  (8 <= length req)%nat →
  _validate_crc req = Some true →
  slaves st !! at_ req 0 = Some sl →
  ((at_ req 1 = 0x01 ∨ at_ req 1 = 0x02)
   ∧ (word_at req 4 = 0 ∨ 2000 < word_at req 4))
  ∨ ((at_ req 1 = 0x03 ∨ at_ req 1 = 0x04)
     ∧ (word_at req 4 = 0 ∨ 125 < word_at req 4)) →
  _process_request now st req
  = count_failure (at_ req 0)
      (_send_exception_response
         (count_request now (at_ req 0) (length req) st)
         (at_ req 0) (at_ req 1) 0x03).
Proof.
  intros Hlen Hcrc Hsl Hcase.
  rewrite (process_request_dispatch now st req sl) by (try lia; assumption).
  cbn zeta.
  destruct Hcase as [[[Hf|Hf] Hq]|[[Hf|Hf] Hq]]; rewrite Hf.
  - change (handler_for 1) with (Some _handle_read_coils).
    unfold _handle_read_coils. rewrite read_bits_illegal by lia. reflexivity.
  - change (handler_for 2) with (Some _handle_read_discrete_inputs).
    unfold _handle_read_discrete_inputs.
    rewrite read_bits_illegal by lia. reflexivity.
  - change (handler_for 3) with (Some _handle_read_holding_registers).
    unfold _handle_read_holding_registers.
    rewrite read_registers_illegal by lia. reflexivity.
  - change (handler_for 4) with (Some _handle_read_input_registers).
    unfold _handle_read_input_registers.
    rewrite read_registers_illegal by lia. reflexivity.
Qed.

(** C5. A CRC-valid read request to a configured slave whose quantity is 0
    or above the maximum of its function code (2000 for 0x01 and 0x02, 125
    for 0x03 and 0x04) makes the dispatcher write exactly one frame, the
    exception response with code 0x03; the store is left as it was, and the
    outcome is the same whatever the store holds. *)
Theorem read_quantity_out_of_range_exception (now : Z) (st : Server)
    (req : bytes) (sl : SlaveConfig) :
  port_open st = true →
  (8 <= length req)%nat →
  _validate_crc req = Some true →
  slaves st !! at_ req 0 = Some sl →
  ((at_ req 1 = 0x01 ∨ at_ req 1 = 0x02)
   ∧ (word_at req 4 = 0 ∨ 2000 < word_at req 4))
  ∨ ((at_ req 1 = 0x03 ∨ at_ req 1 = 0x04)
     ∧ (word_at req 4 = 0 ∨ 125 < word_at req 4)) →
  port_written (_process_request now st req)
  = port_written st ++ [exception_frame (at_ req 0) (at_ req 1) 0x03]
  ∧ slaves (_process_request now st req) = slaves st
  ∧ ∀ store : gmap Z SlaveConfig,
      is_Some (store !! at_ req 0) →
      _process_request now (set_slaves store st) req
      = set_slaves store (_process_request now st req).
Proof.
  intros Hopen Hlen Hcrc Hsl Hcase.
  rewrite (illegal_quantity_result now st req sl Hlen Hcrc Hsl Hcase).
  pose proof (at_range req 0) as Hs. pose proof (at_range req 1) as Hf.
  destruct (count_failure_keeps (at_ req 0)
              (_send_exception_response
                 (count_request now (at_ req 0) (length req) st)
                 (at_ req 0) (at_ req 1) 3)) as (Ks & _ & Kw & _).
  destruct (count_request_keeps now (at_ req 0) (length req) st)
    as (Cs & Co & Cw & _).
  split; [|split].
  - rewrite Kw, send_exception_response_frame by lia.
    rewrite send_response_open by congruence. cbn. now rewrite Cw.
  - rewrite Ks.
    destruct (send_exception_response_keeps
                (count_request now (at_ req 0) (length req) st)
                (at_ req 0) (at_ req 1) 3) as (Es & _).
    now rewrite Es, Cs.
  - intros store [sl' Hsl'].
    rewrite (illegal_quantity_result now (set_slaves store st) req sl'
               Hlen Hcrc Hsl' Hcase).
    now rewrite set_slaves_count_request, set_slaves_send_exception,
      set_slaves_count_failure.
Qed.

(** Read holding registers with quantity 126 on the example server. *)
Lemma read_quantity_out_of_range_exception_witness :
  port_written (_process_request 0 example_server (request8 1 0x03 2014 126))
  = [exception_frame 1 0x03 0x03]
  ∧ slaves (_process_request 0 example_server (request8 1 0x03 2014 126))
    = slaves example_server.
Proof.
  destruct (read_quantity_out_of_range_exception 0 example_server
              (request8 1 0x03 2014 126) create_example_slave)
    as (Hw & Hs & _).
  - reflexivity.
  - vm_compute. lia.
  - vm_compute. reflexivity.
  - vm_compute. reflexivity.
  - right. split; [left; vm_compute; reflexivity | right; vm_compute; reflexivity].
  - split; [exact Hw | exact Hs].
Defined.

End IllegalQuantity.

(** ** The CRC codec against the specification *)

Section CrcContract.

(** C2. [_calculate_crc] returns, for every byte sequence, the two bytes
    [crc & 0xFF] and [(crc >> 8) & 0xFF] (low byte first) of the CRC-16 the
    specification's bit-level loop computes; and on a frame of at least
    three bytes [_validate_crc] returns True exactly when the last two
    bytes of the frame equal [_calculate_crc] of the bytes before them. *)
Theorem calculate_crc_validate_crc_contract :
  (∀ data : bytes,
     ∃ lo hi : byte,
       _calculate_crc data = Some [lo; hi]
       ∧ byte_to_int lo = Z.land (CrcSpec.crc16 (ints_of_bytes data)) 0xFF
       ∧ byte_to_int hi
         = Z.land (Z.shiftr (CrcSpec.crc16 (ints_of_bytes data)) 8) 0xFF)
  ∧ (∀ frame : bytes,
       (3 <= length frame)%nat →
       ∃ verdict : bool,
         _validate_crc frame = Some verdict
         ∧ (verdict = true
            ↔ Some (drop (length frame - 2) frame)
              = _calculate_crc (take (length frame - 2) frame))).
Proof.
  split.
  - intros data. rewrite calculate_crc_total.
    pose proof (crc_bytes_ints data) as Hi.
    unfold crc_bytes in *. cbn zeta in *.
    eexists _, _. split; [reflexivity|].
    unfold CrcSpec.emit in Hi. cbn [ints_of_bytes fmap list_fmap] in Hi.
    injection Hi as H1 H2. split; assumption.
  - intros frame Hlen. rewrite validate_crc_total.
    replace (length frame <? 3)%nat with false
      by (symmetry; apply Nat.ltb_ge; lia).
    eexists. split; [reflexivity|].
    rewrite calculate_crc_total. unfold slice_last, slice_until_last.
    rewrite bool_decide_eq_true. split; [intros ->; reflexivity | now intros [=]].
Qed.

(** The read request of the first end-to-end scenario with the CRC bytes
    0xA5 0x45 that belong to it: the verdict is the comparison of the last
    two bytes with the computed CRC, and it is True. *)
Lemma calculate_crc_validate_crc_contract_witness :
  (3 <= length (raw_frame [1; 3; 7; 0xDE; 0; 2; 0xA5; 0x45]%Z))%nat
  ∧ (∃ verdict : bool,
       _validate_crc (raw_frame [1; 3; 7; 0xDE; 0; 2; 0xA5; 0x45]) = Some verdict
       ∧ (verdict = true
          ↔ Some (drop (length (raw_frame [1; 3; 7; 0xDE; 0; 2; 0xA5; 0x45]%Z) - 2)
                    (raw_frame [1; 3; 7; 0xDE; 0; 2; 0xA5; 0x45]))
            = _calculate_crc
                (take (length (raw_frame [1; 3; 7; 0xDE; 0; 2; 0xA5; 0x45]%Z) - 2)
                   (raw_frame [1; 3; 7; 0xDE; 0; 2; 0xA5; 0x45]))))
  ∧ _validate_crc (raw_frame [1; 3; 7; 0xDE; 0; 2; 0xA5; 0x45]) = Some true.
Proof.
  assert (Hlen : (3 <= length (raw_frame [1; 3; 7; 0xDE; 0; 2; 0xA5; 0x45]%Z))%nat)
    by (vm_compute; lia).
  split; [exact Hlen|]. split.
  - destruct calculate_crc_validate_crc_contract as [_ Hv]. now apply Hv.
  - vm_compute. exact eq_refl.
Defined.

End CrcContract.

(** ** Frames whose CRC does not match *)

Section CrcMismatch.

Lemma count_request_stats (now sid : Z) (n : nat) (st : Server)
    (s : ConnectionStats) :
  stats st !! sid = Some s →
  stats (count_request now sid n st)
  = <[sid := mkConnectionStats (total_requests s + 1) (successful_requests s)
               (failed_requests s) now (connection_uptime s) (bytes_sent s)
               (bytes_received s + Z.of_nat n)]> (stats st).
Proof. intros Hs. unfold count_request. now rewrite Hs. Qed.

(** A frame whose last two bytes differ from the CRC of the bytes before
    them is not validated, and neither is a frame shorter than three
    bytes. *)
Lemma mismatch_not_validated (req : bytes) :
  (length req < 3)%nat
  ∨ drop (length req - 2) req ≠ crc_bytes (take (length req - 2) req) →
  _validate_crc req = Some false.
Proof.
  intros H. rewrite validate_crc_total. f_equal.
  destruct (Nat.ltb_spec (length req) 3) as [Hlt|Hge]; [reflexivity|].
  destruct H as [H|H]; [lia|]. now apply bool_decide_eq_false.
Qed.

(** C1, as the code has it. A frame whose CRC does not verify is never
    answered when the addressed slave is configured: nothing is written,
    the store is untouched, the slave's total_requests grows by one and its
    failed and successful counters stay as they were. When the addressed
    slave is not configured the existence check comes first, and a frame of
    at least four bytes is answered with exception 0x0B. Frames shorter
    than four bytes change nothing. *)
Theorem crc_mismatch_handling (now : Z) (st : Server) (req : bytes) :
  _validate_crc req = Some false →
  ((length req < 4)%nat → _process_request now st req = st)
  ∧ ((4 <= length req)%nat →
     is_Some (slaves st !! at_ req 0) →
     port_written (_process_request now st req) = port_written st
     ∧ slaves (_process_request now st req) = slaves st
     ∧ ∀ s, stats st !! at_ req 0 = Some s →
         ∃ s', stats (_process_request now st req) !! at_ req 0 = Some s'
           ∧ total_requests s' = total_requests s + 1
           ∧ failed_requests s' = failed_requests s
           ∧ successful_requests s' = successful_requests s)
  ∧ ((4 <= length req)%nat →
     slaves st !! at_ req 0 = None →
     port_open st = true →
     port_written (_process_request now st req)
     = port_written st ++ [exception_frame (at_ req 0) (at_ req 1) 0x0B]
     ∧ slaves (_process_request now st req) = slaves st).
Proof.
  intros Hcrc.
  pose proof (at_range req 0) as Hs. pose proof (at_range req 1) as Hf.
  destruct (count_request_keeps now (at_ req 0) (length req) st)
    as (Cs & Co & Cw & _).
  split; [|split].
  - intros Hlen. unfold _process_request.
    now replace (length req <? 4)%nat with true
      by (symmetry; apply Nat.ltb_lt; lia).
  - intros Hlen [sl Hsl]. unfold _process_request.
    replace (length req <? 4)%nat with false
      by (symmetry; apply Nat.ltb_ge; lia).
    cbn zeta. rewrite Cs, Hsl, Hcrc.
    split; [exact Cw|]. split; [exact Cs|].
    intros s Hst. rewrite (count_request_stats now _ _ st s Hst).
    rewrite lookup_insert_eq. eexists. split; [reflexivity|]. cbn. auto.
  - intros Hlen Hsl Hopen. unfold _process_request.
    replace (length req <? 4)%nat with false
      by (symmetry; apply Nat.ltb_ge; lia).
    cbn zeta. rewrite Cs, Hsl.
    rewrite send_exception_response_frame by lia.
    rewrite send_response_open by congruence. cbn.
    now rewrite Cw, Cs.
Qed.

(** The second end-to-end scenario on the example server: the frame is
    dropped, total_requests becomes 1 and failed_requests stays 0. *)
Lemma crc_mismatch_handling_witness :
  port_written
    (_process_request 0 example_server (raw_frame [1; 3; 7; 0xDE; 0; 2; 0; 0]))
  = []
  ∧ ((λ s, (total_requests s, failed_requests s))
       <$> stats (_process_request 0 example_server
                    (raw_frame [1; 3; 7; 0xDE; 0; 2; 0; 0])) !! 1)
    = Some (1, 0).
Proof.
  destruct (crc_mismatch_handling 0 example_server
              (raw_frame [1; 3; 7; 0xDE; 0; 2; 0; 0]))
    as (_ & H & _); [vm_compute; reflexivity|].
  destruct H as (Hw & _ & Hst); [vm_compute; lia | vm_compute; eauto |].
  split; [exact Hw|].
  destruct (Hst fresh_stats) as (s' & Hs' & Ht & Hf & _);
    [vm_compute; reflexivity|].
  change (at_ (raw_frame [1; 3; 7; 222; 0; 2; 0; 0]) 0) with 1 in Hs'.
  rewrite Hs'. cbn. rewrite Ht, Hf. reflexivity.
Defined.

(** C1 as stated fails on the example server, where only slave 1 is
    configured. A frame for slave 2 with a wrong CRC is answered with the
    exception response 0x0B; and the frame for slave 1 with a wrong CRC
    leaves the failed counter of slave 1 at 0. *)
Lemma crc_mismatch_claim_counterexample :
  _validate_crc (raw_frame [2; 3; 0; 0; 0; 1; 0; 0]) = Some false
  ∧ slaves example_server !! 2 = None
  ∧ port_written example_server = []
  ∧ port_written
      (_process_request 0 example_server (raw_frame [2; 3; 0; 0; 0; 1; 0; 0]))
    = [exception_frame 2 3 0x0B]
  ∧ _validate_crc (raw_frame [1; 3; 7; 0xDE; 0; 2; 0; 0]) = Some false
  ∧ failed_requests <$> stats example_server !! 1 = Some 0
  ∧ failed_requests
      <$> stats (_process_request 0 example_server
                   (raw_frame [1; 3; 7; 0xDE; 0; 2; 0; 0])) !! 1
    = Some 0.
Proof. vm_compute. repeat split; reflexivity. Qed.

End CrcMismatch.

(** ** What a handler can do *)

Section HandlerShape.

Lemma int_to_byte_inv (n : Z) (b : byte) :
  int_to_byte n = Some b → byte_to_int b = n.
Proof.
  unfold int_to_byte. destruct ((0 <=? n) && (n <? 256)) eqn:E; [|discriminate].
  apply andb_true_iff in E. destruct E as [E1 _]. apply Z.leb_le in E1.
  intros H. apply Byte.to_of_N in H. unfold byte_to_int. rewrite H. lia.
Qed.

Lemma bytes_of_ints_inv (l : list Z) (b : bytes) :
  bytes_of_ints l = Some b → ints_of_bytes b = l.
Proof.
  unfold bytes_of_ints, ints_of_bytes. revert b.
  induction l as [|n l IH]; intros b; cbn.
  - now intros [= <-].
  - destruct (int_to_byte n) as [x|] eqn:En; cbn; [|discriminate].
    destruct (mapM int_to_byte l) as [r|]; cbn; [|discriminate].
    intros [= <-]. cbn. f_equal; [now apply int_to_byte_inv | now apply IH].
Qed.

Lemma pack_with_crc_inv (l : list Z) (response : bytes) :
  pack_with_crc l = Some response →
  ∃ body, response = framed body ∧ ints_of_bytes body = l.
Proof.
  unfold pack_with_crc. destruct (bytes_of_ints l) as [body|] eqn:E; cbn;
    [|discriminate].
  rewrite calculate_crc_total. cbn. intros [= <-].
  exists body. split; [reflexivity | now apply bytes_of_ints_inv].
Qed.

Lemma pack_with_crc_head (sid fc : Z) (rest : list Z) (response : bytes) :
  pack_with_crc (sid :: fc :: rest) = Some response →
  at_ response 1 = fc ∧ (2 <= length response)%nat.
Proof.
  intros H. apply pack_with_crc_inv in H. destruct H as (body & -> & Hb).
  destruct body as [|b0 [|b1 body]]; try discriminate.
  cbn in Hb. injection Hb as _ H1 _.
  split; [exact H1 | cbn; lia].
Qed.

Lemma at_echo (req : bytes) (i : nat) :
  (i + 2 < length req)%nat → at_ (framed (slice_until_last 2 req)) i = at_ req i.
Proof.
  intros Hi. unfold at_, framed, slice_until_last.
  rewrite app_nth1 by (rewrite length_take; lia).
  rewrite nth_firstn.
  now replace (i <? length req - 2)%nat with true
    by (symmetry; apply Nat.ltb_lt; lia).
Qed.

Lemma length_echo (req : bytes) :
  (2 <= length req)%nat → length (framed (slice_until_last 2 req)) = length req.
Proof.
  intros H. unfold framed, slice_until_last.
  rewrite length_app, length_take. cbn. lia.
Qed.

Lemma shape_none (fc : Z) (st : Server) (sid : Z) :
  handler_shape fc st sid (st, Returned None).
Proof.
  exists st, None. repeat split. right. split; [reflexivity|].
  exists []. split; [now rewrite app_nil_r | constructor].
Qed.

Lemma shape_exception (fc : Z) (st st1 : Server) (sid code : Z) :
  0 <= sid < 256 → 0 <= fc < 256 → code = 0x03 ∨ code = 0x04 →
  stats st1 = stats st → port_open st1 = port_open st →
  port_written st1 = port_written st →
  handler_shape fc st sid (_send_exception_response st1 sid fc code, Returned None).
Proof.
  intros Hs Hf Hc Hst Ho Hw.
  exists (_send_exception_response st1 sid fc code), None.
  destruct (send_exception_response_keeps st1 sid fc code) as (_ & Ks & Ko & _).
  split; [reflexivity|]. split; [congruence|]. split; [congruence|].
  right. split; [reflexivity|].
  rewrite send_exception_response_frame by lia.
  unfold _send_response. destruct (port_open st1).
  - exists [exception_frame sid fc code]. cbn. rewrite Hw.
    split; [reflexivity|]. repeat constructor. exists code. auto.
  - exists []. rewrite Hw, app_nil_r. split; [reflexivity | constructor].
Qed.

Lemma shape_response (fc : Z) (st st1 : Server) (sid : Z) (response : bytes) :
  stats st1 = stats st → port_open st1 = port_open st →
  port_written st1 = port_written st →
  at_ response 1 = fc → (2 <= length response)%nat →
  handler_shape fc st sid (st1, Returned (Some response)).
Proof.
  intros Hst Ho Hw Hfc Hl. exists st1, (Some response).
  repeat split; try assumption. left. exists response. auto.
Qed.

Lemma read_registers_shape (fc : Z) (regs : SlaveConfig → gmap Z Z)
    (st : Server) (sid : Z) (req : bytes) :
  0 <= sid < 256 → 0 <= fc < 256 → is_Some (slaves st !! sid) →
  handler_shape fc st sid (read_registers fc regs st sid req).
Proof.
  intros Hs Hf [sl Hsl]. unfold read_registers.
  destruct (length req <? 8)%nat; [apply shape_none|]. cbn zeta.
  destruct (_ || _); [apply shape_exception; auto|].
  rewrite Hsl. destruct (pack_with_crc _) as [response|] eqn:E.
  - apply pack_with_crc_head in E. destruct E. now apply shape_response.
  - apply shape_exception; auto.
Qed.

Lemma read_bits_shape (fc : Z) (bits : SlaveConfig → gmap Z bool)
    (st : Server) (sid : Z) (req : bytes) :
  0 <= sid < 256 → 0 <= fc < 256 → is_Some (slaves st !! sid) →
  handler_shape fc st sid (read_bits fc bits st sid req).
Proof.
  intros Hs Hf [sl Hsl]. unfold read_bits.
  destruct (length req <? 8)%nat; [apply shape_none|]. cbn zeta.
  destruct (_ || _); [apply shape_exception; auto|].
  rewrite Hsl. destruct (pack_with_crc _) as [response|] eqn:E.
  - apply pack_with_crc_head in E. destruct E. now apply shape_response.
  - apply shape_exception; auto.
Qed.

Lemma write_single_coil_shape (st : Server) (sid : Z) (req : bytes) :
  0 <= sid < 256 → at_ req 1 = 0x05 → is_Some (slaves st !! sid) →
  handler_shape 0x05 st sid (_handle_write_single_coil st sid req).
Proof.
  intros Hs Hfc [sl Hsl]. unfold _handle_write_single_coil.
  destruct (length req <? 8)%nat eqn:El; [apply shape_none|]. cbn zeta.
  apply Nat.ltb_ge in El.
  destruct (negb _); [apply shape_exception; auto; lia|].
  rewrite Hsl, echo_response_total.
  apply shape_response; try reflexivity.
  - rewrite at_echo by lia. exact Hfc.
  - rewrite length_echo by lia. lia.
Qed.

Lemma write_single_register_shape (st : Server) (sid : Z) (req : bytes) :
  0 <= sid < 256 → at_ req 1 = 0x06 → is_Some (slaves st !! sid) →
  handler_shape 0x06 st sid (_handle_write_single_register st sid req).
Proof.
  intros Hs Hfc [sl Hsl]. unfold _handle_write_single_register.
  destruct (length req <? 8)%nat eqn:El; [apply shape_none|]. cbn zeta.
  apply Nat.ltb_ge in El.
  rewrite Hsl, echo_response_total.
  apply shape_response; try reflexivity.
  - rewrite at_echo by lia. exact Hfc.
  - rewrite length_echo by lia. lia.
Qed.

Lemma write_multiple_coils_shape (st : Server) (sid : Z) (req : bytes) :
  0 <= sid < 256 → is_Some (slaves st !! sid) →
  handler_shape 0x0F st sid (_handle_write_multiple_coils st sid req).
Proof.
  intros Hs [sl Hsl]. unfold _handle_write_multiple_coils.
  destruct (length req <? 9)%nat; [apply shape_none|]. cbn zeta.
  destruct (_ || _); [apply shape_exception; auto; lia|].
  rewrite Hsl.
  destruct (write_coils _ _ _ _) as [coils' completed].
  destruct completed.
  - destruct (pack_with_crc _) as [response|] eqn:E.
    + apply pack_with_crc_head in E. destruct E. now apply shape_response.
    + apply shape_exception; auto; lia.
  - apply shape_exception; auto; lia.
Qed.

Lemma write_multiple_registers_shape (st : Server) (sid : Z) (req : bytes) :
  0 <= sid < 256 → is_Some (slaves st !! sid) →
  handler_shape 0x10 st sid (_handle_write_multiple_registers st sid req).
Proof.
  intros Hs [sl Hsl]. unfold _handle_write_multiple_registers.
  destruct (length req <? 9)%nat; [apply shape_none|]. cbn zeta.
  destruct (_ || _); [apply shape_exception; auto; lia|].
  rewrite Hsl.
  destruct (write_registers _ _ _ _) as [registers' completed].
  destruct completed.
  - destruct (pack_with_crc _) as [response|] eqn:E.
    + apply pack_with_crc_head in E. destruct E. now apply shape_response.
    + apply shape_exception; auto; lia.
  - apply shape_exception; auto; lia.
Qed.

Lemma read_file_records_shape (st : Server) (sid : Z) (req : bytes) :
  0 <= sid < 256 → is_Some (slaves st !! sid) →
  handler_shape 0x14 st sid (_handle_read_file_records st sid req).
Proof.
  intros Hs [sl Hsl]. unfold _handle_read_file_records.
  destruct (length req <? 10)%nat; [apply shape_none|].
  destruct (negb (at_ req 2 =? 7)); [apply shape_exception; auto; lia|].
  cbn zeta.
  destruct (negb (at_ req 3 =? 6)); [apply shape_exception; auto; lia|].
  rewrite Hsl.
  destruct (file_records sl !! word_at req 4 ≫= _) as [file_data|].
  - destruct (pack_with_crc _) as [response|] eqn:E.
    + apply pack_with_crc_head in E. destruct E. now apply shape_response.
    + apply shape_exception; auto; lia.
  - destruct (pack_with_crc _) as [response|] eqn:E.
    + apply pack_with_crc_head in E. destruct E. now apply shape_response.
    + apply shape_exception; auto; lia.
Qed.

(** The function codes with a handler. *)
Lemma handler_for_Some (fc : Z) h :
  handler_for fc = Some h → In fc supported_function_codes.
Proof.
  unfold handler_for. intros Hh.
  repeat match type of Hh with
  | (if ?x =? ?c then _ else _) = _ =>
    destruct (Z.eqb_spec x c) as [->|_]; [cbn; tauto|]
  end.
  discriminate.
Qed.

Lemma handler_for_supported (fc : Z) :
  In fc supported_function_codes → is_Some (handler_for fc).
Proof.
  cbn. intros H.
  repeat (destruct H as [<-|H]; [eexists; reflexivity|]).
  destruct H.
Qed.

Lemma handler_for_shape (st : Server) (req : bytes) h :
  handler_for (at_ req 1) = Some h →
  is_Some (slaves st !! at_ req 0) →
  handler_shape (at_ req 1) st (at_ req 0) (h st (at_ req 0) req).
Proof.
  intros Hh Hsl. pose proof (at_range req 0) as Hs.
  unfold handler_for in Hh.
  repeat match type of Hh with
  | (if ?x =? ?c then _ else _) = _ =>
    destruct (Z.eqb_spec x c) as [Hfc|_];
      [injection Hh as <-; rewrite Hfc | ]
  end; try discriminate.
  - apply read_registers_shape; auto; lia.
  - apply read_registers_shape; auto; lia.
  - apply read_bits_shape; auto; lia.
  - apply read_bits_shape; auto; lia.
  - now apply write_single_coil_shape.
  - now apply write_single_register_shape.
  - now apply write_multiple_coils_shape.
  - now apply write_multiple_registers_shape.
  - now apply read_file_records_shape.
Qed.

End HandlerShape.

(** ** Request counters *)

Section Counters.

Lemma count_success_stats (sid : Z) (n : nat) (st : Server) (s : ConnectionStats) :
  stats st !! sid = Some s →
  stats (count_success sid n st)
  = <[sid := mkConnectionStats (total_requests s) (successful_requests s + 1)
               (failed_requests s) (last_request_time s) (connection_uptime s)
               (bytes_sent s + Z.of_nat n) (bytes_received s)]> (stats st).
Proof. intros Hs. unfold count_success. now rewrite Hs. Qed.

Lemma count_failure_stats (sid : Z) (st : Server) (s : ConnectionStats) :
  stats st !! sid = Some s →
  stats (count_failure sid st)
  = <[sid := mkConnectionStats (total_requests s) (successful_requests s)
               (failed_requests s + 1) (last_request_time s)
               (connection_uptime s) (bytes_sent s) (bytes_received s)]>
      (stats st).
Proof. intros Hs. unfold count_failure. now rewrite Hs. Qed.

Lemma truthy_long (response : bytes) :
  (2 <= length response)%nat → truthy (Some response) = Some response.
Proof. destruct response; cbn; [lia | reflexivity]. Qed.

(** C4, as the code has it. A request the dispatcher accepts (at least four
    bytes, configured slave, valid CRC, supported function code) adds one
    to total_requests and one to exactly one of successful_requests and
    failed_requests; so total = successful + failed holds after it whenever
    it held before. *)
Theorem accepted_request_counters (now : Z) (st : Server) (req : bytes)
    (s : ConnectionStats) :
  (4 <= length req)%nat →
  is_Some (slaves st !! at_ req 0) →
  stats st !! at_ req 0 = Some s →
  _validate_crc req = Some true →
  In (at_ req 1) supported_function_codes →
  ∃ s',
    stats (_process_request now st req) !! at_ req 0 = Some s'
    ∧ total_requests s' = total_requests s + 1
    ∧ ((successful_requests s' = successful_requests s + 1
        ∧ failed_requests s' = failed_requests s)
       ∨ (successful_requests s' = successful_requests s
          ∧ failed_requests s' = failed_requests s + 1))
    ∧ (total_requests s = successful_requests s + failed_requests s →
       total_requests s' = successful_requests s' + failed_requests s').
Proof.
  intros Hlen [sl Hsl] Hst Hcrc Hfc.
  destruct (handler_for_supported _ Hfc) as [h Hh].
  rewrite (process_request_dispatch now st req sl Hlen Hsl Hcrc).
  cbn zeta. rewrite Hh.
  set (st1 := count_request now (at_ req 0) (length req) st).
  destruct (count_request_keeps now (at_ req 0) (length req) st) as (Cs & _).
  assert (Hst1 : ∃ s1, stats st1 !! at_ req 0 = Some s1
            ∧ total_requests s1 = total_requests s + 1
            ∧ successful_requests s1 = successful_requests s
            ∧ failed_requests s1 = failed_requests s).
  { unfold st1. rewrite (count_request_stats now _ _ st s Hst).
    rewrite lookup_insert_eq. eexists. split; [reflexivity|]. cbn. auto. }
  destruct Hst1 as (s1 & Hs1 & Ht & Hsu & Hfa).
  destruct (handler_for_shape st1 req h Hh) as (st2 & r & -> & Hstats & _ & Hr).
  { fold st1 in Cs. rewrite Cs, Hsl. eauto. }
  destruct Hr as [(response & -> & _ & _ & Hl)|(-> & _)].
  - rewrite (truthy_long response Hl).
    destruct (send_response_keeps st2 response) as (_ & Ks & _).
    rewrite (count_success_stats _ _ _ s1) by (rewrite Ks, Hstats; exact Hs1).
    rewrite lookup_insert_eq. eexists. split; [reflexivity|]. cbn. lia.
  - cbn [truthy].
    rewrite (count_failure_stats _ _ s1) by (rewrite Hstats; exact Hs1).
    rewrite lookup_insert_eq. eexists. split; [reflexivity|]. cbn. lia.
Qed.

(** A read of two holding registers on the example server: the counters go
    from (0, 0, 0) to (1, 1, 0). *)
Lemma accepted_request_counters_witness :
  ∃ s',
    stats (_process_request 0 example_server (request8 1 0x03 2014 2)) !! 1
    = Some s'
    ∧ total_requests s' = 1
    ∧ total_requests s' = successful_requests s' + failed_requests s'.
Proof.
  destruct (accepted_request_counters 0 example_server
              (request8 1 0x03 2014 2) fresh_stats)
    as (s' & Hs' & Ht & _ & Hinv).
  - vm_compute. lia.
  - vm_compute. eauto.
  - vm_compute. reflexivity.
  - vm_compute. reflexivity.
  - vm_compute. tauto.
  - exists s'. split; [exact Hs'|]. split; [exact Ht|]. apply Hinv. reflexivity.
Defined.

(** C4 as stated fails on a state the server reaches: after the frame of
    the second end-to-end scenario (wrong CRC, slave 1) the accepted read
    of two holding registers is answered, and leaves slave 1 with
    total_requests 2, successful_requests 1 and failed_requests 0. *)
Lemma counters_claim_counterexample :
  let st1 :=
    _process_request 0 example_server (raw_frame [1; 3; 7; 0xDE; 0; 2; 0; 0]) in
  let req := request8 1 0x03 2014 2 in
  _validate_crc req = Some true
  ∧ is_Some (slaves st1 !! at_ req 0)
  ∧ In (at_ req 1) supported_function_codes
  ∧ ints_of_bytes <$> port_written (_process_request 1 st1 req)
    = [[1; 3; 4; 0x3F; 0x80; 0x42; 0xC7; 0x86; 0xFD]]
  ∧ ∃ s, stats (_process_request 1 st1 req) !! 1 = Some s
      ∧ total_requests s = 2
      ∧ successful_requests s = 1
      ∧ failed_requests s = 0
      ∧ total_requests s ≠ successful_requests s + failed_requests s.
Proof.
  cbn zeta. split; [vm_compute; reflexivity|].
  split; [vm_compute; eauto|]. split; [vm_compute; tauto|].
  split; [vm_compute; reflexivity|].
  eexists. split; [vm_compute; reflexivity|]. cbn. repeat split; lia.
Qed.

End Counters.

(** ** Reads past the end of the address space *)

Section NoIllegalAddress.

Lemma send_exception_response_written (st : Server) (sid fc code : Z) :
  0 <= sid < 256 → 0 <= fc < 256 → 0 <= code < 256 →
  ∃ new,
    port_written (_send_exception_response st sid fc code)
    = port_written st ++ new
    ∧ Forall (λ f, f = exception_frame sid fc code) new.
Proof.
  intros Hs Hf Hc. rewrite send_exception_response_frame by lia.
  unfold _send_response. destruct (port_open st).
  - exists [exception_frame sid fc code]. split; [reflexivity|].
    repeat constructor.
  - exists []. rewrite app_nil_r. split; [reflexivity | constructor].
Qed.

Lemma exception_code_of_exception_frame (sid fc code : Z) :
  0 <= fc < 256 → 0 <= code < 256 →
  exception_code_of (exception_frame sid fc code) = Some code.
Proof.
  intros Hf Hc. unfold exception_code_of, exception_frame, framed, at_.
  cbn [app nth]. rewrite !byte_to_int_wrap.
  pose proof (lor_byte_range fc 0x80 Hf ltac:(lia)) as Hl.
  rewrite (Z.mod_small (Z.lor fc 128)), (Z.mod_small code) by lia.
  rewrite Z.lor_spec. change (Z.testbit 128 7) with true.
  now rewrite orb_true_r.
Qed.

Lemma exception_code_of_response (response : bytes) :
  In (at_ response 1) supported_function_codes →
  exception_code_of response = None.
Proof.
  unfold exception_code_of. cbn. intros H.
  repeat (destruct H as [<-|H]; [reflexivity|]). destruct H.
Qed.

(** One step of the inner loop of a bit read, on the bit it may set. *)
Lemma packed_step_bit (bits : gmap Z bool) (a q i acc k j : Z) :
  0 <= k → 0 <= j →
  Z.testbit
    (if a + i * 8 + k <? a + q then
       match bits !! (a + i * 8 + k) with
       | Some true => Z.lor acc (Z.shiftl 1 k)
       | _ => acc
       end
     else acc) j = true
  ↔ Z.testbit acc j = true
    ∨ (j = k ∧ a + i * 8 + k < a + q ∧ bits !! (a + i * 8 + k) = Some true).
Proof.
  intros Hk Hj.
  destruct (Z.ltb_spec (a + i * 8 + k) (a + q)) as [Hlt|Hge].
  - destruct (bits !! (a + i * 8 + k)) as [[|]|] eqn:E.
    + rewrite Z.lor_spec, Z.shiftl_1_l, Z.pow2_bits_eqb by lia.
      rewrite orb_true_iff, Z.eqb_eq. intuition.
    + intuition congruence.
    + intuition congruence.
  - intuition lia.
Qed.

Lemma packed_fold_bit (bits : gmap Z bool) (a q i j : Z) (ks : list Z) (acc : Z) :
  Forall (λ k, 0 <= k) ks → 0 <= j →
  Z.testbit
    (fold_left
       (fun byte_value bit_idx =>
          let coil_addr := a + i * 8 + bit_idx in
          if coil_addr <? a + q then
            match bits !! coil_addr with
            | Some true => Z.lor byte_value (Z.shiftl 1 bit_idx)
            | _ => byte_value
            end
          else byte_value) ks acc) j = true
  ↔ Z.testbit acc j = true
    ∨ (In j ks ∧ a + i * 8 + j < a + q ∧ bits !! (a + i * 8 + j) = Some true).
Proof.
  intros Hks Hj. revert acc.
  induction Hks as [|k ks Hk Hks IH]; intros acc; cbn [fold_left In].
  - tauto.
  - rewrite IH. cbn zeta. rewrite packed_step_bit by lia.
    split.
    + intros [[H|(-> & H)]|(H1 & H2)]; auto.
    + intros [H|([->|H1] & H2)]; auto.
Qed.

(** Bit [j] of data byte [i] of a bit read is set exactly when the address
    it stands for is within the quantity and holds [True] in the
    dictionary; an absent address gives 0. *)
Lemma packed_byte_bit (bits : gmap Z bool) (a q i j : Z) :
  0 <= j →
  Z.testbit (packed_byte bits a q i) j = true
  ↔ j < 8 ∧ a + i * 8 + j < a + q ∧ bits !! (a + i * 8 + j) = Some true.
Proof.
  intros Hj. unfold packed_byte. rewrite packed_fold_bit.
  - rewrite Z.bits_0. rewrite <- list_elem_of_In, elem_of_seqZ.
    intuition (try discriminate; lia).
  - apply Forall_forall. intros k Hk. apply elem_of_seqZ in Hk. lia.
  - exact Hj.
Qed.

(** A successful register or bit read, through the dispatcher. *)
Lemma process_request_answered (now : Z) (st : Server) (req : bytes)
    (sl : SlaveConfig) h (st2 : Server) (response : bytes) :
  (4 <= length req)%nat →
  slaves st !! at_ req 0 = Some sl →
  _validate_crc req = Some true →
  handler_for (at_ req 1) = Some h →
  h (count_request now (at_ req 0) (length req) st) (at_ req 0) req
  = (st2, Returned (Some response)) →
  (2 <= length response)%nat →
  _process_request now st req
  = count_success (at_ req 0) (length response) (_send_response st2 response).
Proof.
  intros Hlen Hsl Hcrc Hh Hr Hl.
  rewrite (process_request_dispatch now st req sl Hlen Hsl Hcrc).
  cbn zeta. rewrite Hh, Hr, (truthy_long response Hl). reflexivity.
Qed.

Lemma length_framed (body : bytes) : length (framed body) = (length body + 2)%nat.
Proof. unfold framed. rewrite length_app. reflexivity. Qed.

Lemma process_read_registers (now : Z) (st : Server) (req : bytes)
    (sl : SlaveConfig) (fc : Z) (regs : SlaveConfig → gmap Z Z) :
  (8 <= length req)%nat →
  slaves st !! at_ req 0 = Some sl →
  _validate_crc req = Some true →
  at_ req 1 = fc →
  handler_for fc = Some (read_registers fc regs) →
  1 <= word_at req 4 <= 125 →
  port_open st = true →
  port_written (_process_request now st req)
  = port_written st
    ++ [framed (wrap_byte <$>
          ([at_ req 0; fc; word_at req 4 * 2]
           ++ flat_map (register_bytes (regs sl))
                (seqZ (word_at req 2) (word_at req 4))))]
  ∧ slaves (_process_request now st req) = slaves st.
Proof.
  intros Hlen Hsl Hcrc Hfc Hh Hq Hopen. subst fc.
  pose proof (at_range req 0) as Hs. pose proof (at_range req 1) as Hf.
  destruct (count_request_keeps now (at_ req 0) (length req) st)
    as (Cs & Co & Cw & _).
  assert (Hsl1 : slaves (count_request now (at_ req 0) (length req) st)
                 !! at_ req 0 = Some sl) by congruence.
  pose proof (read_registers_ok (at_ req 1) regs _ _ req sl Hlen Hq Hsl1 Hs Hf) as Hr.
  rewrite (process_request_answered now st req sl _ _ _
             ltac:(lia) Hsl Hcrc Hh Hr ltac:(rewrite length_framed; lia)).
  match goal with |- context [count_success ?a ?b ?c] =>
    destruct (count_success_keeps a b c) as (Ks & _ & Kw & _) end.
  rewrite Ks, Kw. rewrite send_response_open by congruence. cbn.
  rewrite Cw, Cs. split; reflexivity.
Qed.

Lemma process_read_bits (now : Z) (st : Server) (req : bytes)
    (sl : SlaveConfig) (fc : Z) (bits : SlaveConfig → gmap Z bool) :
  (8 <= length req)%nat →
  slaves st !! at_ req 0 = Some sl →
  _validate_crc req = Some true →
  at_ req 1 = fc →
  handler_for fc = Some (read_bits fc bits) →
  1 <= word_at req 4 <= 2000 →
  port_open st = true →
  port_written (_process_request now st req)
  = port_written st
    ++ [framed (wrap_byte <$>
          ([at_ req 0; fc; (word_at req 4 + 7) / 8]
           ++ (packed_byte (bits sl) (word_at req 2) (word_at req 4)
                 <$> seqZ 0 ((word_at req 4 + 7) / 8))))]
  ∧ slaves (_process_request now st req) = slaves st.
Proof.
  intros Hlen Hsl Hcrc Hfc Hh Hq Hopen. subst fc.
  pose proof (at_range req 0) as Hs. pose proof (at_range req 1) as Hf.
  destruct (count_request_keeps now (at_ req 0) (length req) st)
    as (Cs & Co & Cw & _).
  assert (Hsl1 : slaves (count_request now (at_ req 0) (length req) st)
                 !! at_ req 0 = Some sl) by congruence.
  pose proof (read_bits_ok (at_ req 1) bits _ _ req sl Hlen Hq Hsl1 Hs Hf) as Hr.
  rewrite (process_request_answered now st req sl _ _ _
             ltac:(lia) Hsl Hcrc Hh Hr ltac:(rewrite length_framed; lia)).
  match goal with |- context [count_success ?a ?b ?c] =>
    destruct (count_success_keeps a b c) as (Ks & _ & Kw & _) end.
  rewrite Ks, Kw. rewrite send_response_open by congruence. cbn.
  rewrite Cw, Cs. split; reflexivity.
Qed.

End NoIllegalAddress.

Section NoIllegalAddressClaim.

Lemma exception_frames_not_illegal_address (sid fc : Z) (codes : list Z)
    (new : list bytes) :
  0 <= fc < 256 →
  Forall (λ c, 0 <= c < 256 ∧ c ≠ 0x02) codes →
  Forall (λ f, ∃ code, In code codes ∧ f = exception_frame sid fc code) new →
  Forall (λ f, exception_code_of f ≠ Some 0x02) new.
Proof.
  intros Hf Hcodes Hnew. eapply Forall_impl; [exact Hnew|].
  cbn beta. intros f (code & Hin & ->).
  rewrite Forall_forall in Hcodes. apply list_elem_of_In in Hin.
  destruct (Hcodes code Hin) as [Hr Hne].
  rewrite exception_code_of_exception_frame by lia. congruence.
Qed.

Lemma written_exception_not_illegal_address (st : Server) (sid fc code : Z) :
  0 <= sid < 256 → 0 <= fc < 256 → 0 <= code < 256 → code ≠ 0x02 →
  ∃ new,
    port_written (_send_exception_response st sid fc code)
    = port_written st ++ new
    ∧ Forall (λ f, exception_code_of f ≠ Some 0x02) new.
Proof.
  intros Hs Hf Hc Hne.
  destruct (send_exception_response_written st sid fc code Hs Hf Hc)
    as (new & Hw & Hnew).
  exists new. split; [exact Hw|].
  apply (exception_frames_not_illegal_address sid fc [code]); auto.
  eapply Forall_impl; [exact Hnew|]. intros f ->. exists code. cbn. auto.
Qed.

(** The dispatcher writes no exception response with code 0x02. *)
Lemma process_request_never_illegal_address (now : Z) (st : Server)
    (req : bytes) :
  ∃ new,
    port_written (_process_request now st req) = port_written st ++ new
    ∧ Forall (λ f, exception_code_of f ≠ Some 0x02) new.
Proof.
  pose proof (at_range req 0) as Hs. pose proof (at_range req 1) as Hf.
  destruct (count_request_keeps now (at_ req 0) (length req) st)
    as (Cs & Co & Cw & _).
  unfold _process_request.
  destruct (length req <? 4)%nat.
  { exists []. rewrite app_nil_r. split; [reflexivity | constructor]. }
  cbn zeta.
  destruct (slaves (count_request now (at_ req 0) (length req) st) !! at_ req 0)
    as [sl|] eqn:Hsl.
  2:{ rewrite <- Cw. apply written_exception_not_illegal_address; lia. }
  rewrite validate_crc_total.
  destruct (if (length req <? 3)%nat then false else bool_decide _).
  2:{ exists []. rewrite app_nil_r, Cw. split; [reflexivity | constructor]. }
  destruct (handler_for (at_ req 1)) as [h|] eqn:Hh.
  2:{ rewrite <- Cw. apply written_exception_not_illegal_address; lia. }
  destruct (handler_for_shape
              (count_request now (at_ req 0) (length req) st) req h Hh)
    as (st2 & r & -> & Hstats & Hopen & Hr); [rewrite Hsl; eauto|].
  destruct Hr as [(response & -> & Hw & Hfc & Hl)|(-> & new & Hw & Hnew)].
  - rewrite (truthy_long response Hl).
    match goal with |- context [count_success ?a ?b ?c] =>
      destruct (count_success_keeps a b c) as (_ & _ & Kw & _) end.
    rewrite Kw. unfold _send_response. destruct (port_open st2).
    + exists [response]. cbn. rewrite Hw, Cw. split; [reflexivity|].
      repeat constructor. rewrite exception_code_of_response; [discriminate|].
      rewrite Hfc. now apply handler_for_Some in Hh.
    + exists []. rewrite app_nil_r, Hw, Cw. split; [reflexivity | constructor].
  - cbn [truthy].
    destruct (count_failure_keeps (at_ req 0) st2) as (_ & _ & Kw & _).
    rewrite Kw, Hw, Cw. exists new. split; [reflexivity|].
    apply (exception_frames_not_illegal_address (at_ req 0) (at_ req 1) [3; 4]);
      [lia | repeat constructor; lia |].
    eapply Forall_impl; [exact Hnew|]. cbn beta.
    intros f (code & Hc & ->). exists code. split; [|reflexivity].
    destruct Hc as [->| ->]; [left | right; left]; reflexivity.
Qed.

(** C10. The dispatcher never writes an exception response with code 0x02.
    A CRC-valid read whose quantity is in range is answered whatever its
    start address, so also when the range runs past 65535; the data is
    read address by address from the dictionary, and an address that is
    not a key gives the two bytes 0, 0 of a register read and a 0 bit of a
    bit read. *)
Theorem no_illegal_data_address :
  (∀ (now : Z) (st : Server) (req : bytes),
     ∃ new,
       port_written (_process_request now st req) = port_written st ++ new
       ∧ Forall (λ f, exception_code_of f ≠ Some 0x02) new)
  ∧ (∀ (now : Z) (st : Server) (req : bytes) (sl : SlaveConfig),
       port_open st = true →
       (8 <= length req)%nat →
       _validate_crc req = Some true →
       slaves st !! at_ req 0 = Some sl →
       (∀ regs,
          (at_ req 1 = 0x03 ∧ regs = holding_registers)
          ∨ (at_ req 1 = 0x04 ∧ regs = input_registers) →
          1 <= word_at req 4 <= 125 →
          port_written (_process_request now st req)
          = port_written st
            ++ [framed (wrap_byte <$>
                  ([at_ req 0; at_ req 1; word_at req 4 * 2]
                   ++ flat_map (register_bytes (regs sl))
                        (seqZ (word_at req 2) (word_at req 4))))])
       ∧ (∀ bits,
            (at_ req 1 = 0x01 ∧ bits = coils)
            ∨ (at_ req 1 = 0x02 ∧ bits = discrete_inputs) →
            1 <= word_at req 4 <= 2000 →
            port_written (_process_request now st req)
            = port_written st
              ++ [framed (wrap_byte <$>
                    ([at_ req 0; at_ req 1; (word_at req 4 + 7) / 8]
                     ++ (packed_byte (bits sl) (word_at req 2) (word_at req 4)
                           <$> seqZ 0 ((word_at req 4 + 7) / 8))))]))
  ∧ (∀ (registers : gmap Z Z) (addr : Z),
       registers !! addr = None → register_bytes registers addr = [0; 0])
  ∧ (∀ (bits : gmap Z bool) (a q i j : Z),
       0 <= j →
       bits !! (a + i * 8 + j) = None →
       Z.testbit (packed_byte bits a q i) j = false).
Proof.
  split; [exact process_request_never_illegal_address|].
  split; [|split].
  - intros now st req sl Hopen Hlen Hcrc Hsl. split.
    + intros regs [[Hfc ->]|[Hfc ->]] Hq.
      * apply (process_read_registers now st req sl (at_ req 1)); auto.
        rewrite Hfc. reflexivity.
      * apply (process_read_registers now st req sl (at_ req 1)); auto.
        rewrite Hfc. reflexivity.
    + intros bits [[Hfc ->]|[Hfc ->]] Hq.
      * apply (process_read_bits now st req sl (at_ req 1)); auto.
        rewrite Hfc. reflexivity.
      * apply (process_read_bits now st req sl (at_ req 1)); auto.
        rewrite Hfc. reflexivity.
  - intros registers addr H. unfold register_bytes. now rewrite H.
  - intros bits a q i j Hj H.
    destruct (Z.testbit (packed_byte bits a q i) j) eqn:E; [|reflexivity].
    apply packed_byte_bit in E; [|exact Hj].
    destruct E as (_ & _ & E). congruence.
Qed.

(** Two holding registers from 0xFFFF on the example server: the range
    covers 65535 and 65536, neither is a key, and the answer is four zero
    data bytes. *)
Lemma no_illegal_data_address_witness :
  ints_of_bytes
    <$> port_written (_process_request 0 example_server (request8 1 0x03 0xFFFF 2))
  = [[1; 3; 4; 0; 0; 0; 0; 0xFA; 0x33]].
Proof.
  destruct no_illegal_data_address as (_ & Hread & _).
  destruct (Hread 0 example_server (request8 1 0x03 0xFFFF 2)
              create_example_slave) as [Hregs _].
  - reflexivity.
  - vm_compute. lia.
  - vm_compute. reflexivity.
  - vm_compute. reflexivity.
  - rewrite (Hregs holding_registers).
    + vm_compute. reflexivity.
    + left. split; [vm_compute; reflexivity | reflexivity].
    + vm_compute. split; discriminate.
Defined.

End NoIllegalAddressClaim.

(** ** The single writes *)

Section SingleWrites.

Lemma write_single_coil_illegal (st : Server) (sid : Z) (req : bytes) :
  (8 <= length req)%nat →
  word_at req 4 ≠ 0x0000 → word_at req 4 ≠ 0xFF00 →
  _handle_write_single_coil st sid req
  = (_send_exception_response st sid 0x05 0x03, Returned None).
Proof.
  intros Hlen H0 H1. unfold _handle_write_single_coil.
  replace (length req <? 8)%nat with false by (symmetry; apply Nat.ltb_ge; lia).
  cbn zeta.
  destruct (Z.eqb_spec (word_at req 4) 0); [contradiction|].
  destruct (Z.eqb_spec (word_at req 4) 0xFF00); [contradiction|].
  reflexivity.
Qed.

Lemma write_single_coil_ok (st : Server) (sid : Z) (req : bytes)
    (sl : SlaveConfig) :
  (8 <= length req)%nat →
  word_at req 4 = 0x0000 ∨ word_at req 4 = 0xFF00 →
  slaves st !! sid = Some sl →
  _handle_write_single_coil st sid req
  = (store_slave sid
       (set_coils (<[word_at req 2 := (word_at req 4 =? 0xFF00)]> (coils sl)) sl)
       st,
     Returned (Some (framed (slice_until_last 2 req)))).
Proof.
  intros Hlen Hv Hsl. unfold _handle_write_single_coil.
  replace (length req <? 8)%nat with false by (symmetry; apply Nat.ltb_ge; lia).
  cbn zeta.
  replace (negb ((word_at req 4 =? 0) || (word_at req 4 =? 65280))) with false
    by (destruct Hv as [-> | ->]; reflexivity).
  rewrite Hsl, echo_response_total. reflexivity.
Qed.

Lemma write_single_register_ok (st : Server) (sid : Z) (req : bytes)
    (sl : SlaveConfig) :
  (8 <= length req)%nat →
  slaves st !! sid = Some sl →
  _handle_write_single_register st sid req
  = (store_slave sid
       (set_holding_registers
          (<[word_at req 2 := word_at req 4]> (holding_registers sl)) sl)
       st,
     Returned (Some (framed (slice_until_last 2 req)))).
Proof.
  intros Hlen Hsl. unfold _handle_write_single_register.
  replace (length req <? 8)%nat with false by (symmetry; apply Nat.ltb_ge; lia).
  cbn zeta. rewrite Hsl, echo_response_total. reflexivity.
Qed.

(** What the dispatcher leaves behind after a handler that stored a new
    value for the slave and returned a response. *)
Lemma process_request_stored (now : Z) (st : Server) (req : bytes)
    (sl sl' : SlaveConfig) h (response : bytes) :
  (4 <= length req)%nat →
  slaves st !! at_ req 0 = Some sl →
  _validate_crc req = Some true →
  handler_for (at_ req 1) = Some h →
  h (count_request now (at_ req 0) (length req) st) (at_ req 0) req
  = (store_slave (at_ req 0) sl'
       (count_request now (at_ req 0) (length req) st),
     Returned (Some response)) →
  (2 <= length response)%nat →
  port_open st = true →
  slaves (_process_request now st req) = <[at_ req 0 := sl']> (slaves st)
  ∧ port_written (_process_request now st req) = port_written st ++ [response]
  ∧ port_open (_process_request now st req) = true.
Proof.
  intros Hlen Hsl Hcrc Hh Hr Hl Hopen.
  rewrite (process_request_answered now st req sl _ _ _ Hlen Hsl Hcrc Hh Hr Hl).
  destruct (count_request_keeps now (at_ req 0) (length req) st)
    as (Cs & Co & Cw & _).
  match goal with |- context [count_success ?a ?b ?c] =>
    destruct (count_success_keeps a b c) as (Ks & Ko & Kw & _) end.
  rewrite Ks, Kw, Ko. rewrite send_response_open by (cbn; congruence).
  cbn. rewrite Cs, Cw, Co. auto.
Qed.

(** C8. A CRC-valid write single coil request to a configured slave: a
    value field other than 0x0000 and 0xFF00 is answered with exception
    0x03 and changes no coil; 0x0000 sets the coil at the address to false
    and 0xFF00 sets it to true, nothing else in the store changes, and the
    response is the request without its last two bytes followed by the CRC
    computed over them. *)
Theorem write_single_coil_contract (now : Z) (st : Server) (req : bytes)
    (sl : SlaveConfig) :
  port_open st = true →
  (8 <= length req)%nat →
  _validate_crc req = Some true →
  slaves st !! at_ req 0 = Some sl →
  at_ req 1 = 0x05 →
  (word_at req 4 ≠ 0x0000 → word_at req 4 ≠ 0xFF00 →
   port_written (_process_request now st req)
   = port_written st ++ [exception_frame (at_ req 0) 0x05 0x03]
   ∧ slaves (_process_request now st req) = slaves st)
  ∧ (∀ on : bool,
       word_at req 4 = (if on then 0xFF00 else 0x0000) →
       slaves (_process_request now st req)
       = <[at_ req 0 := set_coils (<[word_at req 2 := on]> (coils sl)) sl]>
           (slaves st)
       ∧ ∃ crc,
           _calculate_crc (take (length req - 2) req) = Some crc
           ∧ port_written (_process_request now st req)
             = port_written st ++ [take (length req - 2) req ++ crc]).
Proof.
  intros Hopen Hlen Hcrc Hsl Hfc.
  pose proof (at_range req 0) as Hs.
  destruct (count_request_keeps now (at_ req 0) (length req) st)
    as (Cs & Co & Cw & _).
  assert (Hh : handler_for (at_ req 1) = Some _handle_write_single_coil)
    by (rewrite Hfc; reflexivity).
  split.
  - intros H0 H1.
    rewrite (process_request_dispatch now st req sl) by (try lia; assumption).
    cbn zeta. rewrite Hh, write_single_coil_illegal by assumption.
    cbn [truthy].
    match goal with |- context [count_failure ?a ?b] =>
      destruct (count_failure_keeps a b) as (Ks & _ & Kw & _) end.
    rewrite Ks, Kw. rewrite send_exception_response_frame by lia.
    rewrite send_response_open by congruence. cbn. rewrite Cw, Cs. auto.
  - intros on Hv.
    destruct (process_request_stored now st req sl
                (set_coils (<[word_at req 2 := on]> (coils sl)) sl)
                _handle_write_single_coil (framed (slice_until_last 2 req)))
      as (Hs' & Hw' & _); try assumption; try lia.
    + rewrite (write_single_coil_ok _ _ _ sl); try lia; try congruence.
      * rewrite Hv. now destruct on.
      * destruct on; auto.
    + rewrite length_echo; lia.
    + split; [exact Hs'|]. exists (crc_bytes (slice_until_last 2 req)).
      split; [apply calculate_crc_total | exact Hw'].
Qed.

(** The fourth end-to-end scenario: coil 0 of slave 1 switched on, the
    request 01 05 00 00 FF 00 8C 3A echoed. *)
Lemma write_single_coil_contract_witness :
  (coils <$> slaves (_process_request 0 example_server (request8 1 0x05 0 0xFF00))
             !! 1)
  = Some (<[0 := true]> (coils create_example_slave))
  ∧ ints_of_bytes
      <$> port_written (_process_request 0 example_server (request8 1 0x05 0 0xFF00))
    = [[0x01; 0x05; 0x00; 0x00; 0xFF; 0x00; 0x8C; 0x3A]].
Proof.
  destruct (write_single_coil_contract 0 example_server
              (request8 1 0x05 0 0xFF00) create_example_slave)
    as [_ Hon].
  - reflexivity.
  - vm_compute. lia.
  - vm_compute. reflexivity.
  - vm_compute. reflexivity.
  - vm_compute. reflexivity.
  - destruct (Hon true) as (Hs & crc & Hc & Hw); [vm_compute; reflexivity|].
    split.
    + rewrite Hs. vm_compute. reflexivity.
    + rewrite Hw. rewrite calculate_crc_total in Hc. injection Hc as <-.
      vm_compute. reflexivity.
Defined.

End SingleWrites.

(** ** Write single register, then read it back *)

Section WriteThenRead.

Lemma land_shiftr_word (v : Z) :
  0 <= v < 65536 →
  Z.land (Z.shiftr v 8) 0xFF = v / 256 ∧ Z.land v 0xFF = v mod 256.
Proof.
  intros Hv. change 255 with (Z.ones 8). rewrite !Z.land_ones by lia.
  rewrite Z.shiftr_div_pow2 by lia. change (2 ^ 8) with 256.
  split; [|reflexivity]. apply Z.mod_small.
  split; [apply Z.div_pos; lia | apply Z.div_lt_upper_bound; lia].
Qed.

(** C6. After a successful write single register request (0x06) storing
    [v] at [a], a read holding registers request (0x03) for the same slave
    with start address [a] and quantity 1 is answered with byte count 2
    and the data bytes [v / 256], [v mod 256]: [v] big-endian. *)
Theorem write_single_register_then_read (now1 now2 : Z) (st : Server)
    (w r : bytes) (sl : SlaveConfig) :
  port_open st = true →
  slaves st !! at_ w 0 = Some sl →
  (8 <= length w)%nat → _validate_crc w = Some true → at_ w 1 = 0x06 →
  (8 <= length r)%nat → _validate_crc r = Some true → at_ r 1 = 0x03 →
  at_ r 0 = at_ w 0 →
  word_at r 2 = word_at w 2 →
  word_at r 4 = 1 →
  let a := word_at w 2 in
  let v := word_at w 4 in
  let st1 := _process_request now1 st w in
  let st2 := _process_request now2 st1 r in
  port_written st1 = port_written st ++ [w]
  ∧ (∃ sl1, slaves st1 !! at_ w 0 = Some sl1
       ∧ holding_registers sl1 !! a = Some v)
  ∧ ∃ body,
      port_written st2 = port_written st1 ++ [body ++ crc_bytes body]
      ∧ ints_of_bytes body = [at_ w 0; 0x03; 2; v / 256; v mod 256].
Proof.
  intros Hopen Hsl Hlw Hcw Hfw Hlr Hcr Hfr Hid Ha Hq. cbn zeta.
  pose proof (at_range w 0) as Hs. pose proof (word_at_range w 4) as Hv.
  set (sl1 := set_holding_registers
                (<[word_at w 2 := word_at w 4]> (holding_registers sl)) sl).
  destruct (process_request_stored now1 st w sl sl1
              _handle_write_single_register (framed (slice_until_last 2 w)))
    as (Hs1 & Hw1 & Ho1); try assumption; try lia.
  { rewrite Hfw. reflexivity. }
  { apply write_single_register_ok; [lia|].
    destruct (count_request_keeps now1 (at_ w 0) (length w) st) as (Cs & _).
    now rewrite Cs. }
  { rewrite length_echo; lia. }
  rewrite (validated_frame w Hcw) in Hw1.
  split; [exact Hw1|]. split.
  { exists sl1. rewrite Hs1, lookup_insert_eq. split; [reflexivity|].
    unfold sl1. cbn. apply lookup_insert_eq. }
  assert (Hsl1 : slaves (_process_request now1 st w) !! at_ r 0 = Some sl1)
    by (rewrite Hs1, Hid; apply lookup_insert_eq).
  destruct (process_read_registers now2 (_process_request now1 st w) r sl1
              0x03 holding_registers) as [Hw2 _]; try assumption; try lia.
  { reflexivity. }
  eexists. split; [exact Hw2|].
  rewrite Hq, Ha, Hid. change (seqZ (word_at w 2) 1) with [word_at w 2].
  cbn [flat_map app]. unfold register_bytes at 1. unfold sl1 at 1.
  cbn [holding_registers set_holding_registers].
  rewrite lookup_insert_eq.
  destruct (land_shiftr_word (word_at w 4) Hv) as [-> ->].
  apply ints_of_wrap.
  assert (0 <= word_at w 4 / 256 < 256)
    by (split; [apply Z.div_pos; lia | apply Z.div_lt_upper_bound; lia]).
  pose proof (Z.mod_pos_bound (word_at w 4) 256 eq_refl).
  repeat constructor; lia.
Qed.

(** Writing 0xBEEF to register 2014 of the example slave and reading it
    back. *)
Lemma write_single_register_then_read_witness :
  ints_of_bytes
    <$> port_written
          (_process_request 1
             (_process_request 0 example_server (request8 1 0x06 2014 0xBEEF))
             (request8 1 0x03 2014 1))
  = [[0x01; 0x06; 0x07; 0xDE; 0xBE; 0xEF; 0xD8; 0xA8];
     [0x01; 0x03; 0x02; 0xBE; 0xEF; 0x88; 0x68]].
Proof.
  destruct (write_single_register_then_read 0 1 example_server
              (request8 1 0x06 2014 0xBEEF) (request8 1 0x03 2014 1)
              create_example_slave)
    as (Hw1 & _ & body & Hw2 & Hb).
  - reflexivity.
  - vm_compute. reflexivity.
  - vm_compute. lia.
  - vm_compute. reflexivity.
  - vm_compute. reflexivity.
  - vm_compute. lia.
  - vm_compute. reflexivity.
  - vm_compute. reflexivity.
  - vm_compute. reflexivity.
  - vm_compute. reflexivity.
  - vm_compute. reflexivity.
  - vm_compute. reflexivity.
Defined.

End WriteThenRead.

(** ** Write multiple coils *)

Section WriteMultipleCoils.

Lemma mask_bit (x k : Z) :
  0 <= k → negb (Z.land x (Z.shiftl 1 k) =? 0) = Z.testbit x k.
Proof.
  intros Hk. rewrite Z.shiftl_1_l.
  assert (H : Z.land x (2 ^ k) = if Z.testbit x k then 2 ^ k else 0).
  { apply Z.bits_inj'. intros n Hn.
    rewrite Z.land_spec, Z.pow2_bits_eqb by lia.
    destruct (Z.eqb_spec k n) as [->|Hne].
    - destruct (Z.testbit x n); cbn.
      + now rewrite Z.pow2_bits_eqb, Z.eqb_refl by lia.
      + now rewrite Z.bits_0.
    - rewrite andb_false_r. destruct (Z.testbit x k).
      + rewrite Z.pow2_bits_eqb by lia. symmetry. now apply Z.eqb_neq.
      + now rewrite Z.bits_0.
  }
  rewrite H. destruct (Z.testbit x k); [|reflexivity].
  assert (0 < 2 ^ k) by (apply Z.pow_pos_nonneg; lia).
  destruct (Z.eqb_spec (2 ^ k) 0); [lia | reflexivity].
Qed.

(** The loop touches only the addresses of its indices. *)
Lemma write_coils_outside (data : bytes) (a : Z) (ks : list Z)
    (c c' : gmap Z bool) (completed : bool) (k : Z) :
  write_coils data a ks c = (c', completed) →
  (∀ i, In i ks → k ≠ a + i) →
  c' !! k = c !! k.
Proof.
  revert c. induction ks as [|i ks IH]; intros c; cbn [write_coils].
  - intros [= <- _] _. reflexivity.
  - cbn zeta. destruct (data !! Z.to_nat (i / 8)) as [b|].
    + intros Hw Hk. rewrite (IH _ Hw) by (intros j Hj; apply Hk; now right).
      apply lookup_insert_ne. intros Heq. apply (Hk i); [now left | auto].
    + intros [= <- _] _. reflexivity.
Qed.

(** When the loop runs to its end, each index stored the bit of the data
    byte it selects. *)
Lemma write_coils_inside (data : bytes) (a : Z) (ks : list Z)
    (c c' : gmap Z bool) (i : Z) :
  write_coils data a ks c = (c', true) →
  NoDup ks → Forall (λ k, 0 <= k) ks → In i ks →
  ∃ b, data !! Z.to_nat (i / 8) = Some b
       ∧ c' !! (a + i) = Some (Z.testbit (byte_to_int b) (i mod 8)).
Proof.
  revert c. induction ks as [|j ks IH]; intros c Hw Hnd Hpos Hin;
    [destruct Hin|].
  cbn [write_coils] in Hw. cbn zeta in Hw.
  apply NoDup_cons in Hnd. destruct Hnd as [Hj Hnd].
  apply Forall_cons in Hpos. destruct Hpos as [Hj0 Hpos].
  destruct (data !! Z.to_nat (j / 8)) as [b|] eqn:Eb; [|discriminate].
  destruct Hin as [->|Hin].
  - exists b. split; [exact Eb|].
    rewrite (write_coils_outside _ _ _ _ _ _ (a + i) Hw).
    + rewrite lookup_insert_eq, mask_bit; [reflexivity|].
      apply Z.mod_pos_bound. lia.
    + intros k Hk Heq. apply Hj. apply list_elem_of_In.
      replace i with k by lia. exact Hk.
  - now apply (IH _ Hw).
Qed.

Lemma slice_ints_range (i n : nat) (req : bytes) :
  Forall (λ n, 0 <= n < 256) (ints_of_bytes (slice i n req)).
Proof. apply ints_of_bytes_range. Qed.

Lemma write_multiple_coils_illegal (st : Server) (sid : Z) (req : bytes) :
  (9 <= length req)%nat →
  word_at req 4 < 1 ∨ 1968 < word_at req 4
  ∨ at_ req 6 ≠ (word_at req 4 + 7) / 8 →
  _handle_write_multiple_coils st sid req
  = (_send_exception_response st sid 0x0F 0x03, Returned None).
Proof.
  intros Hlen Hbad. unfold _handle_write_multiple_coils.
  replace (length req <? 9)%nat with false by (symmetry; apply Nat.ltb_ge; lia).
  cbn zeta.
  replace ((word_at req 4 <? 1) || (word_at req 4 >? 1968)
           || negb (at_ req 6 =? (word_at req 4 + 7) / 8)) with true;
    [reflexivity|].
  symmetry. rewrite !orb_true_iff, Z.ltb_lt, Z.gtb_gt, negb_true_iff, Z.eqb_neq.
  lia.
Qed.

Lemma write_multiple_coils_legal (st : Server) (sid : Z) (req : bytes)
    (sl : SlaveConfig) :
  (9 <= length req)%nat →
  1 <= word_at req 4 <= 1968 →
  at_ req 6 = (word_at req 4 + 7) / 8 →
  slaves st !! sid = Some sl →
  0 <= sid < 256 →
  ∃ coils' completed,
    write_coils (slice 7 (Z.to_nat (at_ req 6)) req) (word_at req 2)
      (seqZ 0 (word_at req 4)) (coils sl) = (coils', completed)
    ∧ _handle_write_multiple_coils st sid req
      = if completed then
          (store_slave sid (set_coils coils' sl) st,
           Returned (Some (framed (wrap_byte <$>
              ([sid; 0x0F] ++ ints_of_bytes (slice 2 4 req))))))
        else
          (_send_exception_response
             (store_slave sid (set_coils coils' sl) st) sid 0x0F 0x04,
           Returned None).
Proof.
  intros Hlen Hq Hbc Hsl Hs. unfold _handle_write_multiple_coils.
  replace (length req <? 9)%nat with false by (symmetry; apply Nat.ltb_ge; lia).
  cbn zeta.
  replace ((word_at req 4 <? 1) || (word_at req 4 >? 1968)
           || negb (at_ req 6 =? (word_at req 4 + 7) / 8)) with false.
  2:{ symmetry. rewrite !orb_false_iff, Z.ltb_ge, negb_false_iff, Z.eqb_eq.
      rewrite Z.gtb_ltb, Z.ltb_ge. lia. }
  rewrite Hsl.
  destruct (write_coils _ _ _ _) as [coils' completed].
  exists coils', completed. split; [reflexivity|].
  destruct completed; [|reflexivity].
  rewrite pack_with_crc_Some; [reflexivity|].
  apply Forall_app. split; [repeat constructor; lia | apply slice_ints_range].
Qed.

Lemma exception_frame_not_response (sid fc code : Z) :
  0 <= fc < 256 → 0 <= code < 256 →
  exception_code_of (exception_frame sid fc code) ≠ None.
Proof.
  intros Hf Hc. now rewrite exception_code_of_exception_frame by lia.
Qed.

(** C9. A write multiple coils request (0x0F) with start address [a] and
    quantity [q] changes nothing but coils [a .. a+q-1] of the addressed
    slave: every other coil, the other four dictionaries of that slave and
    every other slave stay as they were. When the request succeeds (the
    frame written is not an exception response), coil [a + i] holds bit
    [i mod 8] of data byte [i / 8] for each [i < q]; so the result depends
    on the first [q] payload bits only. *)
Theorem write_multiple_coils_frame (now : Z) (st : Server) (req : bytes)
    (sl : SlaveConfig) :
  port_open st = true →
  (9 <= length req)%nat →
  _validate_crc req = Some true →
  slaves st !! at_ req 0 = Some sl →
  at_ req 1 = 0x0F →
  let a := word_at req 2 in
  let q := word_at req 4 in
  ∃ sl',
    slaves (_process_request now st req) = <[at_ req 0 := sl']> (slaves st)
    ∧ holding_registers sl' = holding_registers sl
    ∧ input_registers sl' = input_registers sl
    ∧ discrete_inputs sl' = discrete_inputs sl
    ∧ file_records sl' = file_records sl
    ∧ (∀ k, ¬ (a <= k < a + q) → coils sl' !! k = coils sl !! k)
    ∧ ((∃ response,
          port_written (_process_request now st req)
          = port_written st ++ [response]
          ∧ exception_code_of response = None) →
       ∀ i, 0 <= i < q →
         coils sl' !! (a + i)
         = Some (Z.testbit (at_ req (7 + Z.to_nat (i / 8))) (i mod 8))).
Proof.
  intros Hopen Hlen Hcrc Hsl Hfc. cbn zeta.
  pose proof (at_range req 0) as Hs.
  destruct (count_request_keeps now (at_ req 0) (length req) st)
    as (Cs & Co & Cw & _).
  assert (Hh : handler_for (at_ req 1) = Some _handle_write_multiple_coils)
    by (rewrite Hfc; reflexivity).
  rewrite (process_request_dispatch now st req sl) by (try lia; assumption).
  cbn zeta. rewrite Hh.
  set (st1 := count_request now (at_ req 0) (length req) st) in *.
  destruct (Z.lt_ge_cases (word_at req 4) 1) as [Hq1|Hq1];
    [|destruct (Z.lt_ge_cases 1968 (word_at req 4)) as [Hq2|Hq2];
      [|destruct (Z.eq_dec (at_ req 6) ((word_at req 4 + 7) / 8)) as [Hbc|Hbc]]].
  1,2,4:
    rewrite write_multiple_coils_illegal by (try lia; auto); cbn [truthy];
    exists sl;
    (match goal with |- context [count_failure ?a ?b] =>
       destruct (count_failure_keeps a b) as (Ks & _ & Kw & _) end);
    rewrite Ks, Kw;
    destruct (send_exception_response_keeps st1 (at_ req 0) 0x0F 0x03)
      as (Es & _);
    rewrite Es, Cs, send_exception_response_frame by lia;
    rewrite send_response_open by congruence; cbn [port_written set_port_written];
    rewrite Cw;
    (split; [symmetry; now apply insert_id|]);
    do 4 (split; [reflexivity|]);
    (split; [intros; reflexivity|]);
    intros (response & Hw & Hnone);
    apply app_inv_head in Hw; injection Hw as <-;
    now apply exception_frame_not_response in Hnone.
  destruct (write_multiple_coils_legal st1 (at_ req 0) req sl)
    as (coils' & completed & Hloop & ->); try lia; try congruence.
  exists (set_coils coils' sl).
  assert (Hout : ∀ k, ¬ (word_at req 2 <= k < word_at req 2 + word_at req 4) →
                      coils' !! k = coils sl !! k).
  { intros k Hk. apply (write_coils_outside _ _ _ _ _ _ k Hloop).
    intros i Hi Heq. apply list_elem_of_In, elem_of_seqZ in Hi. lia. }
  destruct completed.
  - rewrite truthy_long by (rewrite length_framed; lia).
    match goal with |- context [count_success ?a ?b ?c] =>
      destruct (count_success_keeps a b c) as (Ks & _ & Kw & _) end.
    rewrite Ks, Kw. rewrite send_response_open by (cbn; congruence).
    cbn [slaves port_written set_port_written store_slave set_slaves].
    rewrite Cs. split; [reflexivity|]. do 4 (split; [reflexivity|]).
    split; [exact Hout|].
    intros _ i Hi.
    destruct (write_coils_inside _ _ _ _ _ i Hloop) as (b & Hb & Hc).
    + apply NoDup_seqZ.
    + apply Forall_forall. intros k Hk. apply elem_of_seqZ in Hk. lia.
    + apply list_elem_of_In, elem_of_seqZ. lia.
    + cbn [coils set_coils]. rewrite Hc. do 2 f_equal.
      unfold slice in Hb. apply lookup_take_Some in Hb. destruct Hb as [Hb _].
      rewrite lookup_drop in Hb. unfold at_.
      now rewrite (nth_lookup_Some _ _ _ _ Hb).
  - cbn [truthy].
    match goal with |- context [count_failure ?a ?b] =>
      destruct (count_failure_keeps a b) as (Ks & _ & Kw & _) end.
    rewrite Ks, Kw.
    match goal with |- context [_send_exception_response ?a ?b ?c ?d] =>
      destruct (send_exception_response_keeps a b c d) as (Es & _) end.
    rewrite Es, send_exception_response_frame by lia.
    rewrite send_response_open by (cbn; congruence).
    cbn [slaves port_written set_port_written store_slave set_slaves].
    rewrite Cs, Cw. split; [reflexivity|]. do 4 (split; [reflexivity|]).
    split; [exact Hout|].
    intros (response & Hw & Hnone).
    apply app_inv_head in Hw. injection Hw as <-.
    now apply exception_frame_not_response in Hnone.
Qed.

End WriteMultipleCoils.

Section WriteMultipleCoilsExample.

(** Ten coils from address 20 on the example server, all sixteen payload
    bits set: coils 20 to 29 are switched on, coil 30 is not created, and
    coil 1 and the holding registers are as before. *)
Lemma write_multiple_coils_frame_witness :
  ∃ sl',
    slaves (_process_request 0 example_server
              (request_of [1; 0x0F; 0; 20; 0; 10; 2; 0xFF; 0xFF])) !! 1
    = Some sl'
    ∧ coils sl' !! 29 = Some true
    ∧ coils sl' !! 30 = None
    ∧ coils sl' !! 1 = Some true
    ∧ holding_registers sl' = holding_registers create_example_slave.
Proof.
  assert (Hanswered :
            ∃ response,
              port_written
                (_process_request 0 example_server
                   (request_of [1; 0x0F; 0; 20; 0; 10; 2; 0xFF; 0xFF]))
              = port_written example_server ++ [response]
              ∧ exception_code_of response = None).
  { exists (request_of [1; 0x0F; 0; 20; 0; 10]).
    split; vm_compute; exact eq_refl. }
  assert (Hfields :
            word_at (request_of [1; 0x0F; 0; 20; 0; 10; 2; 0xFF; 0xFF]) 2 = 20
            ∧ word_at (request_of [1; 0x0F; 0; 20; 0; 10; 2; 0xFF; 0xFF]) 4 = 10
            ∧ at_ (request_of [1; 0x0F; 0; 20; 0; 10; 2; 0xFF; 0xFF]) 8 = 0xFF)
    by (vm_compute; auto).
  destruct Hfields as (Ha & Hq & Hd).
  destruct (write_multiple_coils_frame 0 example_server
              (request_of [1; 0x0F; 0; 20; 0; 10; 2; 0xFF; 0xFF])
              create_example_slave)
    as (sl' & Hs & Hh & _ & _ & _ & Hout & Hin).
  - exact eq_refl.
  - vm_compute. lia.
  - vm_compute. exact eq_refl.
  - vm_compute. exact eq_refl.
  - vm_compute. exact eq_refl.
  - rewrite Ha, Hq in Hout, Hin. specialize (Hin Hanswered).
    clear Hanswered. exists sl'.
    split; [rewrite Hs; apply lookup_insert_eq|]. clear Hs.
    split; [|split; [|split]].
    + change 29 with (20 + 9). rewrite (Hin 9) by lia.
      change (7 + Z.to_nat (9 / 8))%nat with 8%nat.
      rewrite Hd. exact eq_refl.
    + rewrite (Hout 30) by lia. exact eq_refl.
    + rewrite (Hout 1) by lia. exact eq_refl.
    + exact Hh.
Defined.

End WriteMultipleCoilsExample.

(** ** Read file records *)

Section ReadFileRecords.

(** Truncation or trailing zeros, whichever brings the record to
    [2 × record_length] bytes. *)
Lemma fit_record_take (file_data : bytes) (record_length : Z) :
  0 <= record_length →
  fit_record file_data record_length
  = take (Z.to_nat (2 * record_length))
      (file_data ++ replicate (Z.to_nat (2 * record_length)) Byte.x00).
Proof.
  intros Hr. unfold fit_record. cbn zeta.
  replace (record_length * 2) with (2 * record_length) by lia.
  destruct (Z.gtb_spec (Z.of_nat (length file_data)) (2 * record_length))
    as [Hgt|Hle].
  - rewrite take_app_le by lia. reflexivity.
  - destruct (Z.ltb_spec (Z.of_nat (length file_data)) (2 * record_length))
      as [Hlt|Hge].
    + rewrite take_app_ge by lia. f_equal.
      rewrite take_replicate. f_equal. lia.
    + rewrite take_app_le by lia. rewrite take_ge by lia. reflexivity.
Qed.

Lemma fit_record_length (file_data : bytes) (record_length : Z) :
  0 <= record_length →
  length (fit_record file_data record_length) = Z.to_nat (2 * record_length).
Proof.
  intros Hr. rewrite fit_record_take by exact Hr.
  rewrite length_take, length_app, length_replicate. lia.
Qed.

Lemma read_file_records_illegal (st : Server) (sid : Z) (req : bytes) :
  (10 <= length req)%nat →
  at_ req 2 ≠ 7 ∨ at_ req 3 ≠ 6 →
  _handle_read_file_records st sid req
  = (_send_exception_response st sid 0x14 0x03, Returned None).
Proof.
  intros Hlen Hbad. unfold _handle_read_file_records.
  replace (length req <? 10)%nat with false by (symmetry; apply Nat.ltb_ge; lia).
  destruct (Z.eqb_spec (at_ req 2) 7) as [H7|H7]; [|reflexivity].
  cbn [negb]. cbn zeta.
  destruct (Z.eqb_spec (at_ req 3) 6) as [H6|H6]; [|reflexivity].
  destruct Hbad; contradiction.
Qed.

Lemma read_file_records_found (st : Server) (sid : Z) (req : bytes)
    (sl : SlaveConfig) (stored : bytes) :
  (10 <= length req)%nat →
  at_ req 2 = 7 → at_ req 3 = 6 →
  slaves st !! sid = Some sl →
  file_records sl !! word_at req 4 ≫= (.!! word_at req 6) = Some stored →
  _handle_read_file_records st sid req
  = match
      pack_with_crc
        ([sid; 0x14;
          Z.of_nat (length (fit_record stored (word_at req 8))) + 1 + 1;
          Z.of_nat (length (fit_record stored (word_at req 8))) + 1; 6]
         ++ ints_of_bytes (fit_record stored (word_at req 8)))
    with
    | Some response => (st, Returned (Some response))
    | None => (_send_exception_response st sid 0x14 0x04, Returned None)
    end.
Proof.
  intros Hlen H7 H6 Hsl Hrec. unfold _handle_read_file_records.
  replace (length req <? 10)%nat with false by (symmetry; apply Nat.ltb_ge; lia).
  rewrite H7, H6. cbn [Z.eqb Pos.eqb negb]. cbn zeta. rewrite Hsl, Hrec.
  reflexivity.
Qed.

Lemma read_file_records_absent (st : Server) (sid : Z) (req : bytes)
    (sl : SlaveConfig) :
  (10 <= length req)%nat →
  at_ req 2 = 7 → at_ req 3 = 6 →
  slaves st !! sid = Some sl →
  file_records sl !! word_at req 4 ≫= (.!! word_at req 6) = None →
  _handle_read_file_records st sid req
  = match pack_with_crc [sid; 0x14; 2; 1; 6] with
    | Some response => (st, Returned (Some response))
    | None => (_send_exception_response st sid 0x14 0x04, Returned None)
    end.
Proof.
  intros Hlen H7 H6 Hsl Hrec. unfold _handle_read_file_records.
  replace (length req <? 10)%nat with false by (symmetry; apply Nat.ltb_ge; lia).
  rewrite H7, H6. cbn [Z.eqb Pos.eqb negb]. cbn zeta. rewrite Hsl, Hrec.
  reflexivity.
Qed.

(** C7, as the code has it. A CRC-valid read file record request (0x14) of
    at least ten bytes to a configured slave: with byte count other than 7
    or reference type other than 6 it is answered with exception 0x03;
    otherwise, when the record exists and record_length is at most 126,
    the stored bytes are cut or zero-padded to [2 × record_length] bytes
    and sent after the header [len + 2], [len + 1], reference type; when
    the record is absent the body is 2, 1, reference type and no data. The
    store is never changed. *)
Theorem read_file_records_contract (now : Z) (st : Server) (req : bytes)
    (sl : SlaveConfig) :
  port_open st = true →
  (10 <= length req)%nat →
  _validate_crc req = Some true →
  slaves st !! at_ req 0 = Some sl →
  at_ req 1 = 0x14 →
  let record := file_records sl !! word_at req 4 ≫= (.!! word_at req 6) in
  let n := Z.to_nat (2 * word_at req 8) in
  (at_ req 2 ≠ 7 ∨ at_ req 3 ≠ 6 →
   port_written (_process_request now st req)
   = port_written st ++ [exception_frame (at_ req 0) 0x14 0x03])
  ∧ (at_ req 2 = 7 → at_ req 3 = 6 →
     (∀ stored, record = Some stored → word_at req 8 <= 126 →
        ∃ data,
          data = take n (stored ++ replicate n Byte.x00)
          ∧ length data = n
          ∧ port_written (_process_request now st req)
            = port_written st
              ++ [framed ((wrap_byte <$>
                             [at_ req 0; 0x14; Z.of_nat (length data) + 1 + 1;
                              Z.of_nat (length data) + 1; 6]) ++ data)])
     ∧ (record = None →
        port_written (_process_request now st req)
        = port_written st ++ [framed (wrap_byte <$> [at_ req 0; 0x14; 2; 1; 6])]))
  ∧ slaves (_process_request now st req) = slaves st.
Proof.
  intros Hopen Hlen Hcrc Hsl Hfc. cbn zeta.
  pose proof (at_range req 0) as Hs. pose proof (word_at_range req 8) as Hrl.
  destruct (count_request_keeps now (at_ req 0) (length req) st)
    as (Cs & Co & Cw & _).
  assert (Hh : handler_for (at_ req 1) = Some _handle_read_file_records)
    by (rewrite Hfc; reflexivity).
  set (st1 := count_request now (at_ req 0) (length req) st) in *.
  assert (Hsl1 : slaves st1 !! at_ req 0 = Some sl) by congruence.
  assert (Hanswer : ∀ response,
            _handle_read_file_records st1 (at_ req 0) req
            = (st1, Returned (Some response)) →
            (2 <= length response)%nat →
            port_written (_process_request now st req)
            = port_written st ++ [response]).
  { intros response Hr Hl.
    rewrite (process_request_answered now st req sl _ _ _
               ltac:(lia) Hsl Hcrc Hh Hr Hl).
    match goal with |- context [count_success ?a ?b ?c] =>
      destruct (count_success_keeps a b c) as (_ & _ & Kw & _) end.
    rewrite Kw. rewrite send_response_open by congruence. cbn.
    now rewrite Cw. }
  split; [|split].
  - intros Hbad.
    rewrite (process_request_dispatch now st req sl) by (try lia; assumption).
    cbn zeta. rewrite Hh. fold st1.
    rewrite read_file_records_illegal by assumption. cbn [truthy].
    match goal with |- context [count_failure ?a ?b] =>
      destruct (count_failure_keeps a b) as (_ & _ & Kw & _) end.
    rewrite Kw. rewrite send_exception_response_frame by lia.
    rewrite send_response_open by congruence. cbn. now rewrite Cw.
  - intros H7 H6. split.
    + intros stored Hrec Hmax.
      pose proof (read_file_records_found st1 (at_ req 0) req sl stored
                    Hlen H7 H6 Hsl1 Hrec) as Hr.
      pose proof (fit_record_length stored (word_at req 8) ltac:(lia)) as Hfl.
      exists (fit_record stored (word_at req 8)).
      split; [apply fit_record_take; lia|]. split; [exact Hfl|].
      rewrite pack_with_crc_Some in Hr.
      * rewrite fmap_app, wrap_ints_of_bytes in Hr.
        apply (Hanswer _ Hr). rewrite length_framed. lia.
      * apply Forall_app. split; [|apply ints_of_bytes_range].
        rewrite Hfl. repeat constructor; lia.
    + intros Hrec.
      pose proof (read_file_records_absent st1 (at_ req 0) req sl
                    Hlen H7 H6 Hsl1 Hrec) as Hr.
      rewrite pack_with_crc_Some in Hr by (repeat constructor; lia).
      apply (Hanswer _ Hr). rewrite length_framed. cbn. lia.
  - destruct (handler_for_shape st1 req _ Hh) as (st2 & r & Hres & _);
      [rewrite Hsl1; eauto|].
    rewrite (process_request_dispatch now st req sl) by (try lia; assumption).
    cbn zeta. rewrite Hh. fold st1.
    assert (Hs2 : slaves st2 = slaves st).
    { rewrite <- Cs. unfold _handle_read_file_records in Hres.
      destruct (length req <? 10)%nat; [now injection Hres as <- _|].
      destruct (negb (at_ req 2 =? 7)).
      { injection Hres as <- _. apply send_exception_response_keeps. }
      cbn zeta in Hres. destruct (negb (at_ req 3 =? 6)).
      { injection Hres as <- _. apply send_exception_response_keeps. }
      rewrite Hsl1 in Hres.
      destruct (match file_records sl !! word_at req 4 ≫= _ with
                | Some _ => _ | None => _ end).
      - now injection Hres as <- _.
      - injection Hres as <- _. apply send_exception_response_keeps. }
    rewrite Hres. destruct (truthy r) as [response|].
    + match goal with |- context [count_success ?a ?b ?c] =>
        destruct (count_success_keeps a b c) as (Ks & _) end.
      rewrite Ks. destruct (send_response_keeps st2 response) as (Es & _).
      now rewrite Es.
    + destruct (count_failure_keeps (at_ req 0) st2) as (Ks & _).
      now rewrite Ks.
Qed.

End ReadFileRecords.

Section ReadFileRecordsExamples.

(** Record (1, 0) of the example slave, four words: the first eight stored
    bytes follow the header 0x0A, 0x09, 0x06. *)
Lemma read_file_records_contract_witness :
  port_written
    (_process_request 0 example_server
       (request_of [1; 0x14; 7; 6; 0; 1; 0; 0; 0; 4]))
  = [framed ((wrap_byte <$> [1; 0x14; 0x0A; 0x09; 0x06])
             ++ String.list_byte_of_string "INDUSTRI")].
Proof.
  assert (Hrecord :
            file_records create_example_slave
              !! word_at (request_of [1; 0x14; 7; 6; 0; 1; 0; 0; 0; 4]) 4
              ≫= (.!! word_at (request_of [1; 0x14; 7; 6; 0; 1; 0; 0; 0; 4]) 6)
            = Some (padded "INDUSTRIAL_DEVICE_V1.0" 8))
    by (vm_compute; exact eq_refl).
  assert (Hfields :
            at_ (request_of [1; 0x14; 7; 6; 0; 1; 0; 0; 0; 4]) 0 = 1
            ∧ at_ (request_of [1; 0x14; 7; 6; 0; 1; 0; 0; 0; 4]) 2 = 7
            ∧ at_ (request_of [1; 0x14; 7; 6; 0; 1; 0; 0; 0; 4]) 3 = 6
            ∧ word_at (request_of [1; 0x14; 7; 6; 0; 1; 0; 0; 0; 4]) 8 = 4)
    by (vm_compute; auto).
  destruct Hfields as (H0 & H2 & H3 & H8).
  destruct (read_file_records_contract 0 example_server
              (request_of [1; 0x14; 7; 6; 0; 1; 0; 0; 0; 4])
              create_example_slave)
    as (_ & Hok & _).
  - exact eq_refl.
  - vm_compute. lia.
  - vm_compute. exact eq_refl.
  - vm_compute. exact eq_refl.
  - vm_compute. exact eq_refl.
  - destruct (Hok H2 H3) as [Hfound _].
    destruct (Hfound _ Hrecord) as (data & Hdata & Hlen & Hw); [lia|].
    rewrite Hw, Hlen, Hdata, H0, H8. exact eq_refl.
Defined.

(** From 127 words on, the length bytes of an existing record no longer
    fit a byte: [bytes(response_data)] raises and the handler's except
    clause answers with exception 0x04. *)
Lemma read_file_records_too_long (now : Z) (st : Server) (req : bytes)
    (sl : SlaveConfig) (stored : bytes) :
  port_open st = true →
  (10 <= length req)%nat →
  _validate_crc req = Some true →
  slaves st !! at_ req 0 = Some sl →
  at_ req 1 = 0x14 → at_ req 2 = 7 → at_ req 3 = 6 →
  file_records sl !! word_at req 4 ≫= (.!! word_at req 6) = Some stored →
  127 <= word_at req 8 →
  port_written (_process_request now st req)
  = port_written st ++ [exception_frame (at_ req 0) 0x14 0x04].
Proof.
  intros Hopen Hlen Hcrc Hsl Hfc H7 H6 Hrec Hrl.
  pose proof (at_range req 0) as Hs.
  destruct (count_request_keeps now (at_ req 0) (length req) st)
    as (Cs & Co & Cw & _).
  rewrite (process_request_dispatch now st req sl) by (try lia; assumption).
  assert (Hh : handler_for (at_ req 1) = Some _handle_read_file_records)
    by (rewrite Hfc; reflexivity).
  cbn zeta. rewrite Hh.
  rewrite (read_file_records_found _ _ _ sl stored) by (try lia; congruence).
  rewrite pack_with_crc_None.
  - cbn [truthy].
    match goal with |- context [count_failure ?a ?b] =>
      destruct (count_failure_keeps a b) as (_ & _ & Kw & _) end.
    rewrite Kw. rewrite send_exception_response_frame by lia.
    rewrite send_response_open by congruence. cbn. now rewrite Cw.
  - rewrite fit_record_length by lia.
    cbn [app]. do 2 apply Exists_cons_tl. apply Exists_cons_hd. lia.
Qed.

(** C7 as stated fails on the example server. Record (1, 0) exists; asked
    for with record_length 127 (254 bytes, so a length byte of 256) the
    answer is the exception response 0x04 and no data. And the request
    with byte count 0, five bytes long and CRC-valid, is not answered at
    all. *)
Lemma read_file_records_claim_counterexample :
  _validate_crc (request_of [1; 0x14; 7; 6; 0; 1; 0; 0; 0; 127]) = Some true
  ∧ is_Some (file_records create_example_slave !! 1 ≫= (.!! 0))
  ∧ port_written
      (_process_request 0 example_server
         (request_of [1; 0x14; 7; 6; 0; 1; 0; 0; 0; 127]))
    = [exception_frame 1 0x14 0x04]
  ∧ _validate_crc (request_of [1; 0x14; 0]) = Some true
  ∧ at_ (request_of [1; 0x14; 0]) 2 ≠ 7
  ∧ port_written (_process_request 0 example_server (request_of [1; 0x14; 0]))
    = [].
Proof.
  split; [vm_compute; exact eq_refl|].
  split; [vm_compute; eauto|].
  split; [vm_compute; exact eq_refl|].
  split; [vm_compute; exact eq_refl|].
  split; [vm_compute; discriminate|].
  vm_compute. exact eq_refl.
Qed.

End ReadFileRecordsExamples.

(** ** Adding a slave *)

Section AddSlave.

(** C3, as the code has it. [add_slave] fails with the capacity error
    whenever the number of configured slaves has reached max_slaves, and
    then leaves the server as it was. It has no identifier-in-use error:
    below the ceiling it always succeeds, storing the configuration and a
    fresh statistics record under its identifier, also when that identifier
    was already configured. *)
Theorem add_slave_contract (st : Server) (slave_config : SlaveConfig) :
  (max_slaves st <= Z.of_nat (size (slaves st)) →
   add_slave st slave_config = (st, Some (MaximumSlavesReached (max_slaves st))))
  ∧ (Z.of_nat (size (slaves st)) < max_slaves st →
     ∃ st',
       add_slave st slave_config = (st', None)
       ∧ slaves st' = <[slave_id slave_config := slave_config]> (slaves st)
       ∧ stats st' = <[slave_id slave_config := fresh_stats]> (stats st)
       ∧ port_written st' = port_written st
       ∧ port_open st' = port_open st
       ∧ max_slaves st' = max_slaves st).
Proof.
  unfold add_slave. split; intros H.
  - replace (Z.of_nat (size (slaves st)) >=? max_slaves st) with true;
      [reflexivity|].
    symmetry. rewrite Z.geb_leb. apply Z.leb_le. lia.
  - replace (Z.of_nat (size (slaves st)) >=? max_slaves st) with false.
    + eexists. split; [reflexivity|]. cbn. auto.
    + symmetry. rewrite Z.geb_leb. apply Z.leb_gt. lia.
Qed.

(** With a ceiling of one, the example server is full. *)
Lemma add_slave_contract_witness :
  add_slave (mkServer 1 (slaves example_server) (stats example_server) true [])
    spare_slave
  = (mkServer 1 (slaves example_server) (stats example_server) true [],
     Some (MaximumSlavesReached 1)).
Proof.
  destruct (add_slave_contract
              (mkServer 1 (slaves example_server) (stats example_server) true [])
              spare_slave) as [Hfull _].
  apply Hfull. vm_compute. discriminate.
Defined.

(** C3 as stated fails: on the example server after one answered request
    (one slave of ten, identifier 1 configured, total_requests 1), adding
    another configuration with identifier 1 raises nothing; it replaces
    the example slave and resets the statistics. *)
Lemma add_slave_claim_counterexample :
  let st := _process_request 0 example_server (request8 1 0x03 2014 2) in
  slaves st !! slave_id spare_slave = Some create_example_slave
  ∧ total_requests <$> stats st !! 1 = Some 1
  ∧ snd (add_slave st spare_slave) = None
  ∧ slaves (fst (add_slave st spare_slave)) !! 1 = Some spare_slave
  ∧ stats (fst (add_slave st spare_slave)) !! 1 = Some fresh_stats.
Proof. vm_compute. repeat split; exact eq_refl. Qed.

End AddSlave.

(** * Further properties of the code *)

(** ** The CRC of a frame with its CRC *)

Section CrcResidue.

Lemma crc_shift_even (m : Z) : crc_shift (2 * m) = m.
Proof.
  unfold crc_shift.
  change 1 with (Z.ones 1) at 1. rewrite Z.land_ones by lia.
  change (2 ^ 1) with 2. rewrite Z.mul_comm, Z.mod_mul by lia. cbn [Z.eqb negb].
  rewrite Z.shiftr_div_pow2 by lia. change (2 ^ 1) with 2.
  now rewrite Z.div_mul by lia.
Qed.

Lemma lxor_low_byte (c : Z) :
  0 <= c → Z.lxor c (c mod 256) = 256 * (c / 256).
Proof.
  intros Hc. change 256 with (2 ^ 8).
  rewrite Z.mul_comm, <- Z.shiftl_mul_pow2, <- Z.shiftr_div_pow2 by lia.
  apply Z.bits_inj'. intros n Hn.
  rewrite Z.lxor_spec, Z.testbit_mod_pow2 by lia.
  destruct (Z.ltb_spec n 8) as [Hlt|Hge].
  - rewrite Z.shiftl_spec_low by lia. cbn [andb]. apply xorb_nilpotent.
  - rewrite Z.shiftl_spec, Z.shiftr_spec by lia. cbn [andb].
    rewrite xorb_false_r. f_equal. lia.
Qed.

Lemma crc_update_low (c : Z) :
  crc_range c → crc_update c (wrap_byte c) = c / 256.
Proof.
  unfold crc_range. intros Hc. unfold crc_update. cbn zeta.
  rewrite byte_to_int_wrap, lxor_low_byte by lia.
  replace (256 * (c / 256))
    with (2 * (2 * (2 * (2 * (2 * (2 * (2 * (2 * (c / 256))))))))) by lia.
  cbn [Nat.iter nat_rect]. now rewrite !crc_shift_even.
Qed.

Lemma crc_update_high (h : Z) :
  0 <= h < 256 → crc_update h (wrap_byte h) = 0.
Proof.
  intros Hh. unfold crc_update. cbn zeta.
  rewrite byte_to_int_wrap, Z.mod_small, Z.lxor_nilpotent by lia.
  reflexivity.
Qed.

Lemma crc_register_framed (body : bytes) : crc_register (framed body) = 0.
Proof.
  unfold framed, crc_register, crc_bytes. cbn zeta.
  rewrite fold_left_app. fold (crc_register body).
  pose proof (crc_register_range body) as Hr. unfold crc_range in Hr.
  cbn [fold_left]. rewrite crc_update_low by exact Hr.
  rewrite Z.shiftr_div_pow2 by lia. change (2 ^ 8) with 256.
  apply crc_update_high.
  split; [apply Z.div_pos; lia | apply Z.div_lt_upper_bound; lia].
Qed.

(** X1. Appending [_calculate_crc(body)] to a body gives a frame that
    [_validate_crc] accepts exactly when the body is not empty (a bare CRC
    is shorter than three bytes), and the CRC register run over the whole
    frame ends at zero. *)
Theorem calculate_then_validate (body : bytes) :
  ∃ crc,
    _calculate_crc body = Some crc
    ∧ length crc = 2%nat
    ∧ _validate_crc (body ++ crc) = Some (bool_decide (body ≠ []))
    ∧ crc_register (body ++ crc) = 0.
Proof.
  exists (crc_bytes body). split; [apply calculate_crc_total|].
  split; [reflexivity|]. split; [|apply crc_register_framed].
  destruct body as [|b body].
  - reflexivity.
  - change ((b :: body) ++ crc_bytes (b :: body)) with (framed (b :: body)).
    rewrite (framed_valid (b :: body)) by (cbn; lia).
    first [ reflexivity | f_equal; symmetry; now apply bool_decide_eq_true ].
Qed.

End CrcResidue.

(** ** Everything written to the port is a valid frame *)

Section WrittenFrames.

Lemma pack_well_framed (a : Z) (l : list Z) (response : bytes) :
  pack_with_crc (a :: l) = Some response → well_framed response.
Proof.
  intros H. apply pack_with_crc_inv in H. destruct H as (body & -> & Hb).
  exists body. split; [reflexivity|]. destruct body; [discriminate | cbn; lia].
Qed.

Lemma echo_well_framed (req : bytes) :
  (3 <= length req)%nat → well_framed (framed (slice_until_last 2 req)).
Proof.
  intros H. eexists. split; [reflexivity|].
  unfold slice_until_last. rewrite length_take. lia.
Qed.

Lemma well_framed_valid (frame : bytes) :
  well_framed frame → _validate_crc frame = Some true.
Proof. intros (body & -> & H). now apply framed_valid. Qed.

Lemma send_exception_emits (st : Server) (sid fc code : Z) :
  ∃ new,
    port_written (_send_exception_response st sid fc code)
    = port_written st ++ new
    ∧ Forall well_framed new ∧ (length new <= 1)%nat.
Proof.
  unfold _send_exception_response.
  destruct (pack_with_crc _) as [response|] eqn:E.
  - apply pack_well_framed in E. unfold _send_response.
    destruct (port_open st).
    + exists [response]. cbn. repeat split; [|lia]. now repeat constructor.
    + exists []. rewrite app_nil_r. cbn. repeat split; [constructor | lia].
  - exists []. rewrite app_nil_r. cbn. repeat split; [constructor | lia].
Qed.

Lemma emits_silent (st st1 : Server) (o : Outcome) :
  port_written st1 = port_written st →
  match o with Returned (Some response) => well_framed response | _ => True end →
  emits st (st1, o).
Proof.
  intros Hw Ho. exists []. cbn [fst snd]. rewrite app_nil_r.
  split; [exact Hw|]. split; [constructor|].
  destruct o as [[response|]|]; cbn; auto.
Qed.

Lemma emits_exception (st st1 : Server) (sid fc code : Z) :
  port_written st1 = port_written st →
  emits st (_send_exception_response st1 sid fc code, Returned None).
Proof.
  intros Hw. destruct (send_exception_emits st1 sid fc code)
    as (new & Hn & Hf & Hl).
  exists new. cbn [fst snd]. rewrite Hn, Hw. auto.
Qed.

Lemma read_registers_emits (fc : Z) (regs : SlaveConfig → gmap Z Z)
    (st : Server) (sid : Z) (req : bytes) :
  emits st (read_registers fc regs st sid req).
Proof.
  unfold read_registers.
  destruct (length req <? 8)%nat; [now apply emits_silent|]. cbn zeta.
  destruct (_ || _); [now apply emits_exception|].
  destruct (slaves st !! sid); [|now apply emits_silent].
  destruct (pack_with_crc _) as [response|] eqn:E.
  - apply emits_silent; [reflexivity|]. now apply pack_well_framed in E.
  - now apply emits_exception.
Qed.

Lemma read_bits_emits (fc : Z) (bits : SlaveConfig → gmap Z bool)
    (st : Server) (sid : Z) (req : bytes) :
  emits st (read_bits fc bits st sid req).
Proof.
  unfold read_bits.
  destruct (length req <? 8)%nat; [now apply emits_silent|]. cbn zeta.
  destruct (_ || _); [now apply emits_exception|].
  destruct (slaves st !! sid); [|now apply emits_silent].
  destruct (pack_with_crc _) as [response|] eqn:E.
  - apply emits_silent; [reflexivity|]. now apply pack_well_framed in E.
  - now apply emits_exception.
Qed.

Lemma write_single_coil_emits (st : Server) (sid : Z) (req : bytes) :
  emits st (_handle_write_single_coil st sid req).
Proof.
  unfold _handle_write_single_coil.
  destruct (length req <? 8)%nat eqn:El; [now apply emits_silent|]. cbn zeta.
  apply Nat.ltb_ge in El.
  destruct (negb _); [now apply emits_exception|].
  destruct (slaves st !! sid); [|now apply emits_silent].
  rewrite echo_response_total.
  apply emits_silent; [reflexivity|]. apply echo_well_framed. lia.
Qed.

Lemma write_single_register_emits (st : Server) (sid : Z) (req : bytes) :
  emits st (_handle_write_single_register st sid req).
Proof.
  unfold _handle_write_single_register.
  destruct (length req <? 8)%nat eqn:El; [now apply emits_silent|]. cbn zeta.
  apply Nat.ltb_ge in El.
  destruct (slaves st !! sid); [|now apply emits_silent].
  rewrite echo_response_total.
  apply emits_silent; [reflexivity|]. apply echo_well_framed. lia.
Qed.

Lemma write_multiple_coils_emits (st : Server) (sid : Z) (req : bytes) :
  emits st (_handle_write_multiple_coils st sid req).
Proof.
  unfold _handle_write_multiple_coils.
  destruct (length req <? 9)%nat; [now apply emits_silent|]. cbn zeta.
  destruct (_ || _); [now apply emits_exception|].
  destruct (slaves st !! sid); [|now apply emits_silent].
  destruct (write_coils _ _ _ _) as [coils' completed].
  destruct completed; [|now apply emits_exception].
  destruct (pack_with_crc _) as [response|] eqn:E.
  - apply emits_silent; [reflexivity|]. now apply pack_well_framed in E.
  - now apply emits_exception.
Qed.

Lemma write_multiple_registers_emits (st : Server) (sid : Z) (req : bytes) :
  emits st (_handle_write_multiple_registers st sid req).
Proof.
  unfold _handle_write_multiple_registers.
  destruct (length req <? 9)%nat; [now apply emits_silent|]. cbn zeta.
  destruct (_ || _); [now apply emits_exception|].
  destruct (slaves st !! sid); [|now apply emits_silent].
  destruct (write_registers _ _ _ _) as [registers' completed].
  destruct completed; [|now apply emits_exception].
  destruct (pack_with_crc _) as [response|] eqn:E.
  - apply emits_silent; [reflexivity|]. now apply pack_well_framed in E.
  - now apply emits_exception.
Qed.

Lemma read_file_records_emits (st : Server) (sid : Z) (req : bytes) :
  emits st (_handle_read_file_records st sid req).
Proof.
  unfold _handle_read_file_records.
  destruct (length req <? 10)%nat; [now apply emits_silent|].
  destruct (negb (at_ req 2 =? 7)); [now apply emits_exception|]. cbn zeta.
  destruct (negb (at_ req 3 =? 6)); [now apply emits_exception|].
  destruct (slaves st !! sid) as [sl|]; [|now apply emits_silent].
  destruct (file_records sl !! word_at req 4 ≫= _) as [file_data|].
  - destruct (pack_with_crc _) as [response|] eqn:E.
    + apply emits_silent; [reflexivity|]. now apply pack_well_framed in E.
    + now apply emits_exception.
  - destruct (pack_with_crc _) as [response|] eqn:E.
    + apply emits_silent; [reflexivity|]. now apply pack_well_framed in E.
    + now apply emits_exception.
Qed.

Lemma handler_for_emits (fc : Z) h (st : Server) (sid : Z) (req : bytes) :
  handler_for fc = Some h → emits st (h st sid req).
Proof.
  unfold handler_for. intros Hh.
  repeat match type of Hh with
  | (if ?x =? ?c then _ else _) = _ =>
    destruct (Z.eqb_spec x c) as [_|_]; [injection Hh as <-|]
  end; try discriminate.
  - apply read_registers_emits.
  - apply read_registers_emits.
  - apply read_bits_emits.
  - apply read_bits_emits.
  - apply write_single_coil_emits.
  - apply write_single_register_emits.
  - apply write_multiple_coils_emits.
  - apply write_multiple_registers_emits.
  - apply read_file_records_emits.
Qed.

(** X2. Whatever the frame and the state, [_process_request] writes at
    most one frame to the port, and that frame passes [_validate_crc]
    (it is a non-empty body followed by the CRC of that body); frames
    written earlier stay as they are. *)
Theorem written_frames_verify (now : Z) (st : Server) (req : bytes) :
  ∃ new,
    port_written (_process_request now st req) = port_written st ++ new
    ∧ (length new <= 1)%nat
    ∧ Forall (λ f, _validate_crc f = Some true) new.
Proof.
  assert (Hgoal : ∃ new,
            port_written (_process_request now st req) = port_written st ++ new
            ∧ (length new <= 1)%nat ∧ Forall well_framed new).
  2:{ destruct Hgoal as (new & Hw & Hl & Hf). exists new.
      split; [exact Hw|]. split; [exact Hl|].
      eapply Forall_impl; [exact Hf|]. apply well_framed_valid. }
  destruct (count_request_keeps now (at_ req 0) (length req) st)
    as (Cs & Co & Cw & _).
  assert (Hexc : ∀ st1 code,
            port_written st1 = port_written st →
            ∃ new,
              port_written
                (_send_exception_response st1 (at_ req 0) (at_ req 1) code)
              = port_written st ++ new
              ∧ (length new <= 1)%nat ∧ Forall well_framed new).
  { intros st1 code Hw.
    destruct (send_exception_emits st1 (at_ req 0) (at_ req 1) code)
      as (new & Hn & Hf & Hl).
    exists new. rewrite Hn, Hw. auto. }
  assert (Hnil : ∀ st1, port_written st1 = port_written st →
            ∃ new, port_written st1 = port_written st ++ new
                   ∧ (length new <= 1)%nat ∧ Forall well_framed new).
  { intros st1 Hw. exists []. rewrite app_nil_r. cbn.
    repeat split; [exact Hw | lia | constructor]. }
  unfold _process_request.
  destruct (length req <? 4)%nat eqn:El; [now apply Hnil|].
  apply Nat.ltb_ge in El. cbn zeta.
  destruct (slaves _ !! at_ req 0) as [sl|]; [|now apply Hexc].
  rewrite validate_crc_total.
  destruct (if (length req <? 3)%nat then false else bool_decide _);
    [|now apply Hnil].
  destruct (handler_for (at_ req 1)) as [h|] eqn:Hh; [|now apply Hexc].
  pose proof (handler_for_emits _ h
                (count_request now (at_ req 0) (length req) st)
                (at_ req 0) req Hh) as (new & Hw & Hf & Ho).
  destruct (h _ _ _) as [st2 o]. cbn [fst snd] in Hw, Ho.
  destruct o as [[response|]|].
  - destruct Ho as [Hr ->]. rewrite app_nil_r in Hw.
    destruct Hr as (body & -> & Hb).
    rewrite truthy_long by (rewrite length_framed; lia).
    match goal with |- context [count_success ?a ?b ?c] =>
      destruct (count_success_keeps a b c) as (_ & _ & Kw & _) end.
    rewrite Kw. unfold _send_response. destruct (port_open st2).
    + exists [framed body]. cbn. rewrite Hw, Cw.
      repeat split; [lia|]. repeat constructor. now exists body.
    + apply Hnil. congruence.
  - cbn [truthy].
    destruct (count_failure_keeps (at_ req 0) st2) as (_ & _ & Kw & _).
    exists new. rewrite Kw, Hw, Cw. auto.
  - subst new. rewrite app_nil_r in Hw. unfold on_processing_error.
    replace (2 <=? length req)%nat with true
      by (symmetry; apply Nat.leb_le; lia).
    apply Hexc. congruence.
Qed.

End WrittenFrames.

(** ** Unknown slaves and unsupported functions *)

Section Rejections.

(** X3. A frame of at least four bytes addressed to an identifier that is
    not configured is answered with exception 0x0B whether or not its CRC
    or function code is valid; nothing else in the server changes. *)
Theorem unknown_slave_answered (now : Z) (st : Server) (req : bytes) :
  (4 <= length req)%nat →
  slaves st !! at_ req 0 = None →
  stats st !! at_ req 0 = None →
  port_open st = true →
  _process_request now st req
  = set_port_written
      (port_written st ++ [exception_frame (at_ req 0) (at_ req 1) 0x0B]) st.
Proof.
  intros Hlen Hsl Hst Hopen.
  pose proof (at_range req 0) as Hs. pose proof (at_range req 1) as Hf.
  unfold _process_request.
  replace (length req <? 4)%nat with false by (symmetry; apply Nat.ltb_ge; lia).
  cbn zeta. unfold count_request. rewrite Hst, Hsl.
  rewrite send_exception_response_frame by lia.
  now apply send_response_open.
Qed.

(** A frame for slave 9 on the example server, CRC bytes 0x00 0x00. *)
Lemma unknown_slave_answered_witness :
  _process_request 0 example_server (raw_frame [9; 0x06; 0; 1; 0; 2; 0; 0])
  = set_port_written [exception_frame 9 0x06 0x0B] example_server.
Proof.
  apply (unknown_slave_answered 0 example_server
           (raw_frame [9; 0x06; 0; 1; 0; 2; 0; 0])).
  - vm_compute. lia.
  - vm_compute. exact eq_refl.
  - vm_compute. exact eq_refl.
  - exact eq_refl.
Defined.

Lemma handler_for_None (fc : Z) :
  ¬ In fc supported_function_codes → handler_for fc = None.
Proof.
  intros H. destruct (handler_for fc) as [h|] eqn:E; [|reflexivity].
  apply handler_for_Some in E. contradiction.
Qed.

(** X4. A CRC-valid frame for a configured slave whose function code has no
    handler is answered with exception 0x01; the store is unchanged, and
    of the slave's counters only total_requests, bytes_received and the
    time stamp move: the request is counted neither as successful nor as
    failed. *)
Theorem unsupported_function_answered (now : Z) (st : Server) (req : bytes)
    (sl : SlaveConfig) (s : ConnectionStats) :
  (4 <= length req)%nat →
  slaves st !! at_ req 0 = Some sl →
  stats st !! at_ req 0 = Some s →
  _validate_crc req = Some true →
  ¬ In (at_ req 1) supported_function_codes →
  port_open st = true →
  port_written (_process_request now st req)
  = port_written st ++ [exception_frame (at_ req 0) (at_ req 1) 0x01]
  ∧ slaves (_process_request now st req) = slaves st
  ∧ stats (_process_request now st req)
    = <[at_ req 0 :=
          mkConnectionStats (total_requests s + 1) (successful_requests s)
            (failed_requests s) now (connection_uptime s) (bytes_sent s)
            (bytes_received s + Z.of_nat (length req))]> (stats st).
Proof.
  intros Hlen Hsl Hst Hcrc Hfc Hopen.
  pose proof (at_range req 0) as Hs. pose proof (at_range req 1) as Hf.
  rewrite (process_request_dispatch now st req sl Hlen Hsl Hcrc).
  cbn zeta. rewrite (handler_for_None _ Hfc).
  destruct (count_request_keeps now (at_ req 0) (length req) st)
    as (Cs & Co & Cw & _).
  match goal with |- context [_send_exception_response ?a ?b ?c ?d] =>
    destruct (send_exception_response_keeps a b c d) as (Es & Et & _) end.
  rewrite Es, Et, Cs, (count_request_stats now _ _ st s Hst).
  rewrite send_exception_response_frame by lia.
  rewrite send_response_open by congruence. cbn. now rewrite Cw.
Qed.

(** Function code 0x07 on the example server. *)
Lemma unsupported_function_answered_witness :
  port_written
    (_process_request 0 example_server (request_of [1; 0x07; 0; 0; 0; 1]))
  = [exception_frame 1 0x07 0x01]
  ∧ (λ s, (total_requests s, successful_requests s, failed_requests s))
      <$> stats (_process_request 0 example_server
                   (request_of [1; 0x07; 0; 0; 0; 1])) !! 1
    = Some (1, 0, 0).
Proof.
  assert (Hfields : at_ (request_of [1; 0x07; 0; 0; 0; 1]) 0 = 1
                    ∧ at_ (request_of [1; 0x07; 0; 0; 0; 1]) 1 = 7)
    by (vm_compute; auto).
  destruct Hfields as [H0 H1].
  destruct (unsupported_function_answered 0 example_server
              (request_of [1; 0x07; 0; 0; 0; 1]) create_example_slave
              fresh_stats) as (Hw & _ & Hst).
  - vm_compute. lia.
  - vm_compute. exact eq_refl.
  - vm_compute. exact eq_refl.
  - vm_compute. exact eq_refl.
  - rewrite H1. cbn. intuition discriminate.
  - exact eq_refl.
  - rewrite Hw, Hst, H0, H1. split; [exact eq_refl|].
    rewrite lookup_insert_eq. exact eq_refl.
Defined.

End Rejections.

(** ** What a request can and cannot change *)

Section StoreEffect.

Lemma store_effect_refl (st : Server) (sid : Z) : store_effect st sid st.
Proof. repeat split. now left. Qed.

Lemma store_effect_keeps (st st1 st2 : Server) (sid : Z) :
  store_effect st sid st1 →
  slaves st2 = slaves st1 → port_open st2 = port_open st1 →
  max_slaves st2 = max_slaves st1 →
  store_effect st sid st2.
Proof.
  intros (Ho & Hm & Hs) Es Eo Em. unfold store_effect.
  rewrite Es, Eo, Em. auto.
Qed.

Lemma store_effect_exception (st st1 : Server) (sid sid' fc code : Z) :
  store_effect st sid st1 →
  store_effect st sid (_send_exception_response st1 sid' fc code).
Proof.
  intros H.
  destruct (send_exception_response_keeps st1 sid' fc code) as (Es & _ & Eo & Em).
  now apply (store_effect_keeps st st1).
Qed.

Lemma store_effect_store (st : Server) (sid : Z) (sl sl' : SlaveConfig) :
  slaves st !! sid = Some sl → same_read_only sl sl' →
  store_effect st sid (store_slave sid sl' st).
Proof.
  intros Hsl Hsame. repeat split. right. exists sl, sl'. auto.
Qed.

Lemma same_read_only_coils (c : gmap Z bool) (sl : SlaveConfig) :
  same_read_only sl (set_coils c sl).
Proof. repeat split. Qed.

Lemma same_read_only_holding (h : gmap Z Z) (sl : SlaveConfig) :
  same_read_only sl (set_holding_registers h sl).
Proof. repeat split. Qed.

Lemma read_registers_store (fc : Z) (regs : SlaveConfig → gmap Z Z)
    (st : Server) (sid : Z) (req : bytes) :
  slaves (fst (read_registers fc regs st sid req)) = slaves st
  ∧ stats (fst (read_registers fc regs st sid req)) = stats st.
Proof.
  unfold read_registers.
  destruct (length req <? 8)%nat; [auto|]. cbn zeta.
  destruct (_ || _); [split; apply send_exception_response_keeps|].
  destruct (slaves st !! sid); [|auto].
  destruct (pack_with_crc _); [auto|].
  split; apply send_exception_response_keeps.
Qed.

Lemma read_bits_store (fc : Z) (bits : SlaveConfig → gmap Z bool)
    (st : Server) (sid : Z) (req : bytes) :
  slaves (fst (read_bits fc bits st sid req)) = slaves st
  ∧ stats (fst (read_bits fc bits st sid req)) = stats st.
Proof.
  unfold read_bits.
  destruct (length req <? 8)%nat; [auto|]. cbn zeta.
  destruct (_ || _); [split; apply send_exception_response_keeps|].
  destruct (slaves st !! sid); [|auto].
  destruct (pack_with_crc _); [auto|].
  split; apply send_exception_response_keeps.
Qed.

Lemma read_file_records_store (st : Server) (sid : Z) (req : bytes) :
  slaves (fst (_handle_read_file_records st sid req)) = slaves st
  ∧ stats (fst (_handle_read_file_records st sid req)) = stats st.
Proof.
  unfold _handle_read_file_records.
  destruct (length req <? 10)%nat; [auto|].
  destruct (negb (at_ req 2 =? 7)); [split; apply send_exception_response_keeps|].
  cbn zeta.
  destruct (negb (at_ req 3 =? 6)); [split; apply send_exception_response_keeps|].
  destruct (slaves st !! sid) as [sl|]; [|auto].
  destruct (match file_records sl !! word_at req 4 ≫= _ with
            | Some _ => _ | None => _ end); [auto|].
  split; apply send_exception_response_keeps.
Qed.

(** The handlers of the five read functions. *)
Lemma read_handler_store (fc : Z) h (st : Server) (sid : Z) (req : bytes) :
  In fc [0x01; 0x02; 0x03; 0x04; 0x14] →
  handler_for fc = Some h →
  slaves (fst (h st sid req)) = slaves st.
Proof.
  cbn. intros Hfc Hh.
  repeat (destruct Hfc as [<-|Hfc];
          [injection Hh as <-;
           first [ apply read_registers_store | apply read_bits_store
                 | apply read_file_records_store ] |]).
  destruct Hfc.
Qed.

Lemma slaves_eq_store_effect (st st' : Server) (sid : Z) :
  slaves st' = slaves st → port_open st' = port_open st →
  max_slaves st' = max_slaves st → store_effect st sid st'.
Proof. intros. apply (store_effect_keeps st st); auto using store_effect_refl. Qed.

Lemma handler_for_store_effect (fc : Z) h (st : Server) (sid : Z) (req : bytes) :
  handler_for fc = Some h →
  store_effect st sid (fst (h st sid req))
  ∧ stats (fst (h st sid req)) = stats st.
Proof.
  unfold handler_for. intros Hh.
  repeat match type of Hh with
  | (if ?x =? ?c then _ else _) = _ =>
    destruct (Z.eqb_spec x c) as [_|_]; [injection Hh as <-|]
  end; try discriminate.
  - unfold _handle_read_holding_registers, read_registers.
    destruct (length req <? 8)%nat; [split; [apply store_effect_refl|auto]|].
    cbn zeta.
    destruct (_ || _);
      [split; [apply store_effect_exception, store_effect_refl
              | apply send_exception_response_keeps]|].
    destruct (slaves st !! sid); [|split; [apply store_effect_refl|auto]].
    destruct (pack_with_crc _); [split; [apply store_effect_refl|auto]|].
    split; [apply store_effect_exception, store_effect_refl
           | apply send_exception_response_keeps].
  - unfold _handle_read_input_registers, read_registers.
    destruct (length req <? 8)%nat; [split; [apply store_effect_refl|auto]|].
    cbn zeta.
    destruct (_ || _);
      [split; [apply store_effect_exception, store_effect_refl
              | apply send_exception_response_keeps]|].
    destruct (slaves st !! sid); [|split; [apply store_effect_refl|auto]].
    destruct (pack_with_crc _); [split; [apply store_effect_refl|auto]|].
    split; [apply store_effect_exception, store_effect_refl
           | apply send_exception_response_keeps].
  - unfold _handle_read_coils, read_bits.
    destruct (length req <? 8)%nat; [split; [apply store_effect_refl|auto]|].
    cbn zeta.
    destruct (_ || _);
      [split; [apply store_effect_exception, store_effect_refl
              | apply send_exception_response_keeps]|].
    destruct (slaves st !! sid); [|split; [apply store_effect_refl|auto]].
    destruct (pack_with_crc _); [split; [apply store_effect_refl|auto]|].
    split; [apply store_effect_exception, store_effect_refl
           | apply send_exception_response_keeps].
  - unfold _handle_read_discrete_inputs, read_bits.
    destruct (length req <? 8)%nat; [split; [apply store_effect_refl|auto]|].
    cbn zeta.
    destruct (_ || _);
      [split; [apply store_effect_exception, store_effect_refl
              | apply send_exception_response_keeps]|].
    destruct (slaves st !! sid); [|split; [apply store_effect_refl|auto]].
    destruct (pack_with_crc _); [split; [apply store_effect_refl|auto]|].
    split; [apply store_effect_exception, store_effect_refl
           | apply send_exception_response_keeps].
  - unfold _handle_write_single_coil.
    destruct (length req <? 8)%nat; [split; [apply store_effect_refl|auto]|].
    cbn zeta.
    destruct (negb _);
      [split; [apply store_effect_exception, store_effect_refl
              | apply send_exception_response_keeps]|].
    destruct (slaves st !! sid) as [sl|] eqn:Hsl;
      [|split; [apply store_effect_refl|auto]].
    rewrite echo_response_total. cbn [fst].
    split; [|reflexivity].
    eapply store_effect_store; [exact Hsl | apply same_read_only_coils].
  - unfold _handle_write_single_register.
    destruct (length req <? 8)%nat; [split; [apply store_effect_refl|auto]|].
    cbn zeta.
    destruct (slaves st !! sid) as [sl|] eqn:Hsl;
      [|split; [apply store_effect_refl|auto]].
    rewrite echo_response_total. cbn [fst].
    split; [|reflexivity].
    eapply store_effect_store; [exact Hsl | apply same_read_only_holding].
  - unfold _handle_write_multiple_coils.
    destruct (length req <? 9)%nat; [split; [apply store_effect_refl|auto]|].
    cbn zeta.
    destruct (_ || _);
      [split; [apply store_effect_exception, store_effect_refl
              | apply send_exception_response_keeps]|].
    destruct (slaves st !! sid) as [sl|] eqn:Hsl;
      [|split; [apply store_effect_refl|auto]].
    destruct (write_coils _ _ _ _) as [coils' completed].
    assert (Hst : store_effect st sid (store_slave sid (set_coils coils' sl) st))
      by (eapply store_effect_store; [exact Hsl | apply same_read_only_coils]).
    destruct (if completed then _ else _); cbn [fst].
    + split; [exact Hst | reflexivity].
    + split; [now apply store_effect_exception|].
      now destruct (send_exception_response_keeps
                      (store_slave sid (set_coils coils' sl) st) sid 15 4)
        as (_ & -> & _).
  - unfold _handle_write_multiple_registers.
    destruct (length req <? 9)%nat; [split; [apply store_effect_refl|auto]|].
    cbn zeta.
    destruct (_ || _);
      [split; [apply store_effect_exception, store_effect_refl
              | apply send_exception_response_keeps]|].
    destruct (slaves st !! sid) as [sl|] eqn:Hsl;
      [|split; [apply store_effect_refl|auto]].
    destruct (write_registers _ _ _ _) as [registers' completed].
    assert (Hst : store_effect st sid
                    (store_slave sid (set_holding_registers registers' sl) st))
      by (eapply store_effect_store; [exact Hsl | apply same_read_only_holding]).
    destruct (if completed then _ else _); cbn [fst].
    + split; [exact Hst | reflexivity].
    + split; [now apply store_effect_exception|].
      now destruct (send_exception_response_keeps
                      (store_slave sid (set_holding_registers registers' sl) st)
                      sid 16 4)
        as (_ & -> & _).
  - destruct (read_file_records_store st sid req) as [Hs Ht].
    split; [|exact Ht].
    apply slaves_eq_store_effect; [exact Hs | |].
    + unfold _handle_read_file_records.
      destruct (length req <? 10)%nat; [reflexivity|].
      destruct (negb (at_ req 2 =? 7)); [apply send_exception_response_keeps|].
      cbn zeta.
      destruct (negb (at_ req 3 =? 6)); [apply send_exception_response_keeps|].
      destruct (slaves st !! sid) as [sl|]; [|reflexivity].
      destruct (match file_records sl !! word_at req 4 ≫= _ with
                | Some _ => _ | None => _ end); [reflexivity|].
      apply send_exception_response_keeps.
    + unfold _handle_read_file_records.
      destruct (length req <? 10)%nat; [reflexivity|].
      destruct (negb (at_ req 2 =? 7)); [apply send_exception_response_keeps|].
      cbn zeta.
      destruct (negb (at_ req 3 =? 6)); [apply send_exception_response_keeps|].
      destruct (slaves st !! sid) as [sl|]; [|reflexivity].
      destruct (match file_records sl !! word_at req 4 ≫= _ with
                | Some _ => _ | None => _ end); [reflexivity|].
      apply send_exception_response_keeps.
Qed.

(** The state the dispatcher ends in differs from the state its handler
    returned only in counters and port output. *)
Lemma process_request_via_handler (now : Z) (st : Server) (req : bytes) :
  ∃ st1,
    slaves (_process_request now st req) = slaves st1
    ∧ port_open (_process_request now st req) = port_open st1
    ∧ max_slaves (_process_request now st req) = max_slaves st1
    ∧ (st1 = st
       ∨ ∃ h, handler_for (at_ req 1) = Some h
           ∧ (4 <= length req)%nat
           ∧ st1 = fst (h (count_request now (at_ req 0) (length req) st)
                          (at_ req 0) req)).
Proof.
  destruct (count_request_keeps now (at_ req 0) (length req) st)
    as (Cs & Co & Cw & Cm).
  unfold _process_request.
  destruct (length req <? 4)%nat eqn:El; [exists st; auto|].
  apply Nat.ltb_ge in El. cbn zeta.
  destruct (slaves _ !! at_ req 0) as [sl|].
  2:{ exists st.
      match goal with |- context [_send_exception_response ?a ?b ?c ?d] =>
        destruct (send_exception_response_keeps a b c d) as (Es & _ & Eo & Em) end.
      rewrite Es, Eo, Em. auto. }
  destruct (_validate_crc req) as [[|]|].
  - destruct (handler_for (at_ req 1)) as [h|] eqn:Hh.
    + exists (fst (h (count_request now (at_ req 0) (length req) st)
                     (at_ req 0) req)).
      destruct (h _ _ _) as [st2 o] eqn:Hho. cbn [fst].
      assert (Hres :
                slaves
                  (match o with
                   | Returned response =>
                     match truthy response with
                     | Some response =>
                       count_success (at_ req 0) (length response)
                         (_send_response st2 response)
                     | None => count_failure (at_ req 0) st2
                     end
                   | Raised => on_processing_error st2 req
                   end) = slaves st2
                ∧ port_open
                    (match o with
                     | Returned response =>
                       match truthy response with
                       | Some response =>
                         count_success (at_ req 0) (length response)
                           (_send_response st2 response)
                       | None => count_failure (at_ req 0) st2
                       end
                     | Raised => on_processing_error st2 req
                     end) = port_open st2
                ∧ max_slaves
                    (match o with
                     | Returned response =>
                       match truthy response with
                       | Some response =>
                         count_success (at_ req 0) (length response)
                           (_send_response st2 response)
                       | None => count_failure (at_ req 0) st2
                       end
                     | Raised => on_processing_error st2 req
                     end) = max_slaves st2).
      { destruct o as [response|].
        - destruct (truthy response) as [r|].
          + destruct (count_success_keeps (at_ req 0) (length r)
                        (_send_response st2 r)) as (Ks & Ko & _ & Km).
            destruct (send_response_keeps st2 r) as (Ss & _ & So & Sm).
            rewrite Ks, Ko, Km. auto.
          + destruct (count_failure_keeps (at_ req 0) st2) as (Ks & Ko & _ & Km).
            auto.
        - unfold on_processing_error. destruct (2 <=? length req)%nat; [|auto].
          destruct (send_exception_response_keeps st2 (at_ req 0) (at_ req 1) 4)
            as (Es & _ & Eo & Em). auto. }
      destruct Hres as (H1 & H2 & H3).
      split; [exact H1|]. split; [exact H2|]. split; [exact H3|].
      right. exists h. rewrite Hho. auto.
    + exists st.
      match goal with |- context [_send_exception_response ?a ?b ?c ?d] =>
        destruct (send_exception_response_keeps a b c d) as (Es & _ & Eo & Em) end.
      rewrite Es, Eo, Em. auto.
  - exists st. auto.
  - exists st. unfold on_processing_error. destruct (2 <=? length req)%nat.
    + match goal with |- context [_send_exception_response ?a ?b ?c ?d] =>
        destruct (send_exception_response_keeps a b c d) as (Es & _ & Eo & Em) end.
      rewrite Es, Eo, Em. auto.
    + auto.
Qed.

Lemma process_request_store_effect (now : Z) (st : Server) (req : bytes) :
  store_effect st (at_ req 0) (_process_request now st req).
Proof.
  destruct (process_request_via_handler now st req)
    as (st1 & Hs & Ho & Hm & [->|(h & Hh & Hlen & ->)]).
  - now apply slaves_eq_store_effect.
  - destruct (count_request_keeps now (at_ req 0) (length req) st)
      as (Cs & Co & Cw & Cm).
    destruct (handler_for_store_effect _ h
                (count_request now (at_ req 0) (length req) st)
                (at_ req 0) req Hh) as [(Eo & Em & Es) _].
    unfold store_effect. rewrite Hs, Ho, Hm, Eo, Em, Co, Cm.
    split; [reflexivity|]. split; [reflexivity|].
    rewrite Cs in Es. exact Es.
Qed.

(** X5. A request reaches only the slave it addresses: no slave is added or
    removed, every other slave is left exactly as it was, and of the
    addressed slave only holding registers and coils can change (input
    registers, discrete inputs, file records, name and identifier stay).
    The port flag and the ceiling are never changed. *)
Theorem request_reaches_only_its_slave (now : Z) (st : Server) (req : bytes) :
  port_open (_process_request now st req) = port_open st
  ∧ max_slaves (_process_request now st req) = max_slaves st
  ∧ dom (slaves (_process_request now st req)) = dom (slaves st)
  ∧ (∀ k, k ≠ at_ req 0 →
       slaves (_process_request now st req) !! k = slaves st !! k)
  ∧ (∀ sl, slaves st !! at_ req 0 = Some sl →
       ∃ sl', slaves (_process_request now st req) !! at_ req 0 = Some sl'
              ∧ same_read_only sl sl').
Proof.
  destruct (process_request_store_effect now st req) as (Ho & Hm & Hs).
  split; [exact Ho|]. split; [exact Hm|].
  destruct Hs as [->|(sl & sl' & Hsl & -> & Hsame)].
  - split; [reflexivity|]. split; [reflexivity|].
    intros sl Hsl. exists sl. split; [exact Hsl | repeat split].
  - split; [|split].
    + apply dom_insert_lookup_L. eauto.
    + intros k Hk. now apply lookup_insert_ne.
    + intros sl0 Hsl0. exists sl'. rewrite lookup_insert_eq.
      split; [reflexivity|]. congruence.
Qed.

(** A write single register request to the example slave. *)
Lemma request_reaches_only_its_slave_witness :
  ∃ sl',
    slaves (_process_request 0 example_server (request8 1 0x06 2016 7))
      !! at_ (request8 1 0x06 2016 7) 0 = Some sl'
    ∧ same_read_only create_example_slave sl'.
Proof.
  destruct (request_reaches_only_its_slave 0 example_server
              (request8 1 0x06 2016 7)) as (_ & _ & _ & _ & H).
  apply H. vm_compute. exact eq_refl.
Defined.

(** X6. The five read functions (0x01 to 0x04 and 0x14) never change the
    store, whatever the frame: valid, malformed, out of range or for an
    unknown slave. *)
Theorem read_requests_keep_store (now : Z) (st : Server) (req : bytes) :
  In (at_ req 1) [0x01; 0x02; 0x03; 0x04; 0x14] →
  slaves (_process_request now st req) = slaves st.
Proof.
  intros Hfc.
  destruct (process_request_via_handler now st req)
    as (st1 & Hs & _ & _ & [->|(h & Hh & Hlen & ->)]); [exact Hs|].
  rewrite Hs, (read_handler_store _ h _ _ _ Hfc Hh).
  apply count_request_keeps.
Qed.

(** A read of coils 0 to 15 on the example server. *)
Lemma read_requests_keep_store_witness :
  slaves (_process_request 0 example_server (request8 1 0x01 0 16))
  = slaves example_server.
Proof.
  apply read_requests_keep_store. vm_compute. tauto.
Defined.

End StoreEffect.

(** ** The slave store under its operations *)

Section StoreInvariant.

Lemma count_request_dom (now sid : Z) (n : nat) (st : Server) :
  dom (stats (count_request now sid n st)) = dom (stats st).
Proof.
  unfold count_request. destruct (stats st !! sid) eqn:E; [|reflexivity].
  cbn. apply dom_insert_lookup_L. eauto.
Qed.

Lemma count_success_dom (sid : Z) (n : nat) (st : Server) :
  dom (stats (count_success sid n st)) = dom (stats st).
Proof.
  unfold count_success. destruct (stats st !! sid) eqn:E; [|reflexivity].
  cbn. apply dom_insert_lookup_L. eauto.
Qed.

Lemma count_failure_dom (sid : Z) (st : Server) :
  dom (stats (count_failure sid st)) = dom (stats st).
Proof.
  unfold count_failure. destruct (stats st !! sid) eqn:E; [|reflexivity].
  cbn. apply dom_insert_lookup_L. eauto.
Qed.

(** A request creates and deletes no statistics record. *)
Lemma process_request_dom_stats (now : Z) (st : Server) (req : bytes) :
  dom (stats (_process_request now st req)) = dom (stats st).
Proof.
  pose proof (count_request_dom now (at_ req 0) (length req) st) as Cd.
  unfold _process_request.
  destruct (length req <? 4)%nat; [reflexivity|]. cbn zeta.
  assert (Hexc : ∀ st1 code,
            dom (stats st1) = dom (stats st) →
            dom (stats (_send_exception_response st1 (at_ req 0) (at_ req 1) code))
            = dom (stats st)).
  { intros st1 code H.
    destruct (send_exception_response_keeps st1 (at_ req 0) (at_ req 1) code)
      as (_ & -> & _). exact H. }
  destruct (slaves _ !! at_ req 0); [|now apply Hexc].
  destruct (_validate_crc req) as [[|]|].
  - destruct (handler_for (at_ req 1)) as [h|] eqn:Hh; [|now apply Hexc].
    destruct (handler_for_store_effect _ h
                (count_request now (at_ req 0) (length req) st)
                (at_ req 0) req Hh) as [_ Hst].
    destruct (h _ _ _) as [st2 o]. cbn [fst] in Hst.
    destruct o as [response|].
    + destruct (truthy response) as [r|].
      * rewrite count_success_dom.
        destruct (send_response_keeps st2 r) as (_ & -> & _). congruence.
      * rewrite count_failure_dom. congruence.
    + unfold on_processing_error. destruct (2 <=? length req)%nat.
      * apply Hexc. congruence.
      * congruence.
  - exact Cd.
  - unfold on_processing_error. destruct (2 <=? length req)%nat; [|exact Cd].
    now apply Hexc.
Qed.

Lemma process_request_invariant (now : Z) (st : Server) (req : bytes) :
  store_invariant st → store_invariant (_process_request now st req).
Proof.
  intros (Hdom & Hid & Hsize).
  destruct (process_request_store_effect now st req) as (Ho & Hm & Hs).
  unfold store_invariant. rewrite process_request_dom_stats, Hm.
  destruct Hs as [->|(sl & sl' & Hsl & -> & Hsame)]; [auto|].
  split; [|split].
  - rewrite Hdom. symmetry. apply dom_insert_lookup_L. eauto.
  - intros k sl0 Hk. destruct (decide (k = at_ req 0)) as [->|Hne].
    + rewrite lookup_insert_eq in Hk. injection Hk as <-.
      destruct Hsame as (-> & _). now apply Hid.
    + rewrite lookup_insert_ne in Hk by congruence. now apply Hid.
  - rewrite map_size_insert_Some by eauto. exact Hsize.
Qed.

Lemma add_slave_invariant (st : Server) (slave_config : SlaveConfig) :
  store_invariant st → store_invariant (fst (add_slave st slave_config)).
Proof.
  intros (Hdom & Hid & Hsize). unfold add_slave.
  destruct (Z.geb_spec (Z.of_nat (size (slaves st))) (max_slaves st))
    as [Hge|Hlt]; cbn [fst]; [repeat split; auto|].
  unfold store_invariant. cbn.
  split; [|split].
  - rewrite !dom_insert_L. now rewrite Hdom.
  - intros k sl0 Hk.
    destruct (decide (k = slave_id slave_config)) as [->|Hne].
    + rewrite lookup_insert_eq in Hk. now injection Hk as <-.
    + rewrite lookup_insert_ne in Hk by congruence. now apply Hid.
  - rewrite map_size_insert.
    destruct (slaves st !! slave_id slave_config); unfold id; lia.
Qed.

Lemma remove_slave_result (st : Server) (sid : Z) :
  dom (stats st) = dom (slaves st) →
  remove_slave st sid
  = (set_stats (delete sid (stats st)) (set_slaves (delete sid (slaves st)) st),
     None).
Proof.
  intros Hdom. unfold remove_slave.
  destruct (slaves st !! sid) as [sl|] eqn:Hsl.
  - cbn.
    assert (Hin : sid ∈ dom (stats st))
      by (rewrite Hdom; apply elem_of_dom; eauto).
    apply elem_of_dom in Hin. destruct Hin as [s Hs]. now rewrite Hs.
  - assert (Hst : stats st !! sid = None).
    { apply not_elem_of_dom. rewrite Hdom. now apply not_elem_of_dom. }
    rewrite !delete_id by assumption. now destruct st.
Qed.

Lemma remove_slave_invariant (st : Server) (sid : Z) :
  store_invariant st → store_invariant (fst (remove_slave st sid)).
Proof.
  intros (Hdom & Hid & Hsize). rewrite remove_slave_result by exact Hdom.
  unfold store_invariant. cbn. split; [|split].
  - rewrite !dom_delete_L. now rewrite Hdom.
  - intros k sl0 Hk. apply lookup_delete_Some in Hk. now apply Hid.
  - rewrite map_size_delete.
    destruct (slaves st !! sid); unfold id; lia.
Qed.

Lemma update_register_store_effect (st : Server) (sid : Z) (kind : string)
    (address : Z) (value : PyValue) :
  max_slaves (fst (update_register st sid kind address value)) = max_slaves st
  ∧ stats (fst (update_register st sid kind address value)) = stats st
  ∧ port_written (fst (update_register st sid kind address value))
    = port_written st
  ∧ (slaves (fst (update_register st sid kind address value)) = slaves st
     ∨ ∃ sl sl', slaves st !! sid = Some sl
         ∧ slaves (fst (update_register st sid kind address value))
           = <[sid := sl']> (slaves st)
         ∧ slave_id sl' = slave_id sl).
Proof.
  unfold update_register.
  destruct (slaves st !! sid) as [sl|] eqn:Hsl; [|cbn; auto].
  repeat case_decide;
    try (destruct (py_int value)); cbn; repeat split; auto;
    right; eexists _, _; repeat split; eauto.
Qed.

Lemma update_register_invariant (st : Server) (sid : Z) (kind : string)
    (address : Z) (value : PyValue) :
  store_invariant st →
  store_invariant (fst (update_register st sid kind address value)).
Proof.
  intros (Hdom & Hid & Hsize).
  destruct (update_register_store_effect st sid kind address value)
    as (Hm & Hst & _ & Hs).
  unfold store_invariant. rewrite Hm, Hst.
  destruct Hs as [->|(sl & sl' & Hsl & -> & Hsame)]; [auto|].
  split; [|split].
  - rewrite Hdom. symmetry. apply dom_insert_lookup_L. eauto.
  - intros k sl0 Hk. destruct (decide (k = sid)) as [->|Hne].
    + rewrite lookup_insert_eq in Hk. injection Hk as <-.
      rewrite Hsame. now apply Hid.
    + rewrite lookup_insert_ne in Hk by congruence. now apply Hid.
  - rewrite map_size_insert_Some by eauto. exact Hsize.
Qed.

Lemma apply_operation_invariant (st : Server) (op : Operation) :
  store_invariant st → store_invariant (apply_operation st op).
Proof.
  destruct op; cbn [apply_operation].
  - apply add_slave_invariant.
  - apply remove_slave_invariant.
  - apply update_register_invariant.
  - apply process_request_invariant.
Qed.

(** X7. Starting from a server where statistics exist exactly for the
    configured slaves, each slave is stored under its own identifier and
    the number of slaves is within max_slaves, any sequence of add_slave,
    remove_slave, update_register and requests ends in such a server. In
    particular no two configured slaves share an identifier and the
    ceiling is never exceeded. *)
Theorem operations_keep_store_invariant (ops : list Operation) (st : Server) :
  store_invariant st → store_invariant (run ops st).
Proof.
  unfold run. revert st. induction ops as [|op ops IH]; intros st H; [exact H|].
  cbn [fold_left]. apply IH. now apply apply_operation_invariant.
Qed.

Lemma new_server_invariant (open : bool) : store_invariant (new_server open).
Proof.
  unfold store_invariant, new_server. cbn.
  split; [now rewrite !dom_empty_L|].
  split; [intros k sl H; now rewrite lookup_empty in H|].
  rewrite map_size_empty. lia.
Qed.

(** The empty server after: add the example slave, write a register, add a
    spare with the same identifier, remove slave 1, read from it. *)
Lemma operations_keep_store_invariant_witness :
  store_invariant
    (run [AddSlave create_example_slave;
          Request 0 (request8 1 0x06 7 9);
          AddSlave spare_slave;
          RemoveSlave 1;
          Request 1 (request8 1 0x03 7 1)]
       (new_server true)).
Proof.
  apply operations_keep_store_invariant, new_server_invariant.
Defined.

(** X8. [remove_slave] of an identifier that is not configured changes
    nothing. On a server whose statistics match its slaves it never raises,
    and removes the slave together with its statistics; removing a slave
    just added under a new identifier gives back the server as it was. *)
Theorem remove_slave_contract (st : Server) (sid : Z) :
  (slaves st !! sid = None → remove_slave st sid = (st, None))
  ∧ (dom (stats st) = dom (slaves st) →
     snd (remove_slave st sid) = None
     ∧ slaves (fst (remove_slave st sid)) = delete sid (slaves st)
     ∧ stats (fst (remove_slave st sid)) = delete sid (stats st)
     ∧ port_written (fst (remove_slave st sid)) = port_written st)
  ∧ (∀ slave_config,
       slave_id slave_config = sid →
       dom (stats st) = dom (slaves st) →
       slaves st !! sid = None →
       Z.of_nat (size (slaves st)) < max_slaves st →
       remove_slave (fst (add_slave st slave_config)) sid = (st, None)).
Proof.
  split; [|split].
  - intros Hsl. unfold remove_slave. now rewrite Hsl.
  - intros Hdom. rewrite remove_slave_result by exact Hdom. cbn. auto.
  - intros cfg <- Hdom Hsl Hsize.
    assert (Hst : stats st !! slave_id cfg = None).
    { apply not_elem_of_dom. rewrite Hdom. now apply not_elem_of_dom. }
    unfold add_slave.
    destruct (Z.geb_spec (Z.of_nat (size (slaves st))) (max_slaves st));
      [lia|].
    cbn [fst]. rewrite remove_slave_result
      by (cbn; rewrite !dom_insert_L; now rewrite Hdom).
    cbn. rewrite !delete_insert_eq, !delete_id by assumption.
    now destruct st.
Qed.

(** The spare slave under identifier 5 added to the example server and
    removed again. *)
Lemma remove_slave_contract_witness :
  remove_slave
    (fst (add_slave example_server
            (mkSlaveConfig 5 "Spare" "fifth" ∅ ∅ ∅ ∅ ∅))) 5
  = (example_server, None).
Proof.
  destruct (remove_slave_contract example_server 5) as (_ & _ & Hback).
  apply (Hback (mkSlaveConfig 5 "Spare" "fifth" ∅ ∅ ∅ ∅ ∅)).
  - exact eq_refl.
  - vm_compute. exact eq_refl.
  - vm_compute. exact eq_refl.
  - vm_compute. exact eq_refl.
Defined.

End StoreInvariant.

(** ** Administrative updates *)

Section UpdateRegister.

Lemma low_word_bytes (n : Z) :
  Z.land (Z.shiftr n 8) 0xFF = (n mod 65536) / 256
  ∧ Z.land n 0xFF = n mod 256.
Proof.
  change 255 with (Z.ones 8). rewrite !Z.land_ones by lia.
  rewrite Z.shiftr_div_pow2 by lia. change (2 ^ 8) with 256.
  split; [|reflexivity].
  change 65536 with (256 * 256). rewrite Z.rem_mul_r by lia.
  rewrite (Z.mul_comm 256), Z.div_add by lia.
  rewrite (Z.div_small (n mod 256)) by (apply Z.mod_pos_bound; lia).
  reflexivity.
Qed.

(** A read of one register whose key is present. *)
Lemma read_one_register (now : Z) (st : Server) (req : bytes)
    (sl : SlaveConfig) (fc : Z) (regs : SlaveConfig → gmap Z Z) (n : Z) :
  (8 <= length req)%nat →
  slaves st !! at_ req 0 = Some sl →
  _validate_crc req = Some true →
  at_ req 1 = fc →
  handler_for fc = Some (read_registers fc regs) →
  word_at req 4 = 1 →
  port_open st = true →
  regs sl !! word_at req 2 = Some n →
  port_written (_process_request now st req)
  = port_written st
    ++ [framed (wrap_byte <$> [at_ req 0; fc; 2; (n mod 65536) / 256; n mod 256])].
Proof.
  intros Hlen Hsl Hcrc Hfc Hh Hq Hopen Hn.
  destruct (process_read_registers now st req sl fc regs) as [Hw _];
    try assumption; [lia|].
  rewrite Hw, Hq. change (seqZ (word_at req 2) 1) with [word_at req 2].
  cbn [flat_map app]. unfold register_bytes. rewrite Hn.
  destruct (low_word_bytes n) as [-> ->]. reflexivity.
Qed.

(** X9. [update_register] returns False and changes nothing for an unknown
    slave, for a register type other than the four it knows, and for a
    register value [None]. An integer stored in a holding or input
    register is kept as it is, and a later read of that address (0x03 or
    0x04, quantity 1) answers with its low sixteen bits, high byte first:
    values outside 0..65535 are cut on the wire, not rejected. *)
Theorem update_register_contract (st : Server) (sid : Z) (kind : string)
    (address : Z) (value : PyValue) :
  (slaves st !! sid = None
   ∨ ¬ In kind ["holding"; "input"; "coil"; "discrete"]
   ∨ (In kind ["holding"; "input"] ∧ value = PyNone) →
   update_register st sid kind address value = (st, false))
  ∧ (∀ fc n now req,
       is_Some (slaves st !! sid) →
       (kind = "holding" ∧ fc = 0x03) ∨ (kind = "input" ∧ fc = 0x04) →
       py_int value = Some n →
       port_open st = true →
       (8 <= length req)%nat → _validate_crc req = Some true →
       at_ req 0 = sid → at_ req 1 = fc →
       word_at req 2 = address → word_at req 4 = 1 →
       snd (update_register st sid kind address value) = true
       ∧ port_written
           (_process_request now
              (fst (update_register st sid kind address value)) req)
         = port_written st
           ++ [framed (wrap_byte <$>
                 [sid; fc; 2; (n mod 65536) / 256; n mod 256])]).
Proof.
  split.
  - intros [Hsl|[Hkind|[Hkind ->]]]; unfold update_register.
    + now rewrite Hsl.
    + destruct (slaves st !! sid); [|reflexivity].
      repeat case_decide; subst; try reflexivity; exfalso; apply Hkind;
        cbn; tauto.
    + destruct (slaves st !! sid); [|reflexivity].
      destruct Hkind as [<-|[<-|[]]]; repeat case_decide; try reflexivity;
        congruence.
  - intros fc n now req [sl Hsl] Hkind Hint Hopen Hlen Hcrc Hid Hfc Ha Hq.
    subst sid address.
    destruct Hkind as [[-> ->]|[-> ->]]; unfold update_register;
      rewrite Hsl, Hint; repeat case_decide; try congruence;
      cbn [fst snd]; (split; [reflexivity|]).
    + match goal with |- context [_process_request now ?s req] =>
        change (port_written st) with (port_written s) end.
      apply (read_one_register now _ req
               (set_holding_registers
                  (<[word_at req 2 := n]> (holding_registers sl)) sl)
               0x03 holding_registers n); try assumption.
      * cbn. apply lookup_insert_eq.
      * reflexivity.
      * cbn. apply lookup_insert_eq.
    + match goal with |- context [_process_request now ?s req] =>
        change (port_written st) with (port_written s) end.
      apply (read_one_register now _ req
               (set_input_registers
                  (<[word_at req 2 := n]> (input_registers sl)) sl)
               0x04 input_registers n); try assumption.
      * cbn. apply lookup_insert_eq.
      * reflexivity.
      * cbn. apply lookup_insert_eq.
Qed.

(** The value 70000 put into input register 3001 of the example slave reads
    back as 0x1170 (4464). *)
Lemma update_register_contract_witness :
  ints_of_bytes
    <$> port_written
          (_process_request 0
             (fst (update_register example_server 1 "input" 3001 (PyInt 70000)))
             (request8 1 0x04 3001 1))
  = [[0x01; 0x04; 0x02; 0x11; 0x70; 0xB4; 0x84]].
Proof.
  assert (Hfacts :
            _validate_crc (request8 1 0x04 3001 1) = Some true
            ∧ at_ (request8 1 0x04 3001 1) 0 = 1
            ∧ at_ (request8 1 0x04 3001 1) 1 = 4
            ∧ word_at (request8 1 0x04 3001 1) 2 = 3001
            ∧ word_at (request8 1 0x04 3001 1) 4 = 1)
    by (vm_compute; auto).
  destruct Hfacts as (Hcrc & H0 & H1 & H2 & H4).
  destruct (update_register_contract example_server 1 "input" 3001
              (PyInt 70000)) as [_ Hread].
  destruct (Hread 0x04 70000 0 (request8 1 0x04 3001 1)) as [_ Hw];
    try assumption.
  - vm_compute. eauto.
  - right. split; reflexivity.
  - reflexivity.
  - exact eq_refl.
  - vm_compute. lia.
  - rewrite Hw. vm_compute. exact eq_refl.
Defined.

End UpdateRegister.

(** ** Reading twice *)

Section RepeatedRead.

Lemma process_request_port_open (now : Z) (st : Server) (req : bytes) :
  port_open (_process_request now st req) = port_open st.
Proof. apply process_request_store_effect. Qed.

(** X10. A valid read (0x01 to 0x04, quantity in range, configured slave,
    valid CRC) sent twice with nothing in between is answered twice with
    the same frame. *)
Theorem repeated_read_same_answer (now1 now2 : Z) (st : Server) (req : bytes) :
  port_open st = true →
  (8 <= length req)%nat →
  _validate_crc req = Some true →
  is_Some (slaves st !! at_ req 0) →
  (In (at_ req 1) [0x03; 0x04] ∧ 1 <= word_at req 4 <= 125)
  ∨ (In (at_ req 1) [0x01; 0x02] ∧ 1 <= word_at req 4 <= 2000) →
  ∃ response,
    port_written (_process_request now1 st req) = port_written st ++ [response]
    ∧ port_written (_process_request now2 (_process_request now1 st req) req)
      = port_written st ++ [response; response].
Proof.
  intros Hopen Hlen Hcrc [sl Hsl] Hcase.
  assert (Hopen1 : port_open (_process_request now1 st req) = true)
    by (rewrite process_request_port_open; exact Hopen).
  assert (Hregs : ∀ fc regs,
            at_ req 1 = fc → handler_for fc = Some (read_registers fc regs) →
            1 <= word_at req 4 <= 125 →
            ∃ response,
              port_written (_process_request now1 st req)
              = port_written st ++ [response]
              ∧ port_written
                  (_process_request now2 (_process_request now1 st req) req)
                = port_written st ++ [response; response]).
  { intros fc regs Hfc Hh Hq.
    destruct (process_read_registers now1 st req sl fc regs) as [Hw1 Hs1];
      try assumption.
    destruct (process_read_registers now2 (_process_request now1 st req) req
                sl fc regs) as [Hw2 _]; try assumption; [congruence|].
    eexists. split; [exact Hw1|]. rewrite Hw2, Hw1, <- app_assoc. reflexivity. }
  assert (Hbits : ∀ fc bits,
            at_ req 1 = fc → handler_for fc = Some (read_bits fc bits) →
            1 <= word_at req 4 <= 2000 →
            ∃ response,
              port_written (_process_request now1 st req)
              = port_written st ++ [response]
              ∧ port_written
                  (_process_request now2 (_process_request now1 st req) req)
                = port_written st ++ [response; response]).
  { intros fc bits Hfc Hh Hq.
    destruct (process_read_bits now1 st req sl fc bits) as [Hw1 Hs1];
      try assumption.
    destruct (process_read_bits now2 (_process_request now1 st req) req
                sl fc bits) as [Hw2 _]; try assumption; [congruence|].
    eexists. split; [exact Hw1|]. rewrite Hw2, Hw1, <- app_assoc. reflexivity. }
  destruct Hcase as [[Hfc Hq]|[Hfc Hq]]; cbn in Hfc.
  - destruct Hfc as [Hfc|[Hfc|[]]].
    + apply (Hregs 0x03 holding_registers); auto.
    + apply (Hregs 0x04 input_registers); auto.
  - destruct Hfc as [Hfc|[Hfc|[]]].
    + apply (Hbits 0x01 coils); auto.
    + apply (Hbits 0x02 discrete_inputs); auto.
Qed.

(** Discrete inputs 10001 to 10003 of the example slave, read twice. *)
Lemma repeated_read_same_answer_witness :
  ∃ response,
    port_written (_process_request 0 example_server (request8 1 0x02 10001 3))
    = [response]
    ∧ port_written
        (_process_request 1
           (_process_request 0 example_server (request8 1 0x02 10001 3))
           (request8 1 0x02 10001 3))
      = [response; response].
Proof.
  assert (Hfacts :
            at_ (request8 1 0x02 10001 3) 1 = 2
            ∧ word_at (request8 1 0x02 10001 3) 4 = 3)
    by (vm_compute; auto).
  destruct Hfacts as [H1 H4].
  apply (repeated_read_same_answer 0 1 example_server (request8 1 0x02 10001 3)).
  - exact eq_refl.
  - vm_compute. lia.
  - vm_compute. exact eq_refl.
  - vm_compute. eauto.
  - right. rewrite H1, H4. cbn. split; [tauto | lia].
Defined.

End RepeatedRead.

(** ** Write multiple registers, then read them back *)

Section WriteMultipleRegisters.

Lemma lor_shiftl_bytes (h l : Z) :
  0 <= h → 0 <= l < 256 → Z.lor (Z.shiftl h 8) l = 256 * h + l.
Proof.
  intros Hh Hl. rewrite Z.shiftl_mul_pow2 by lia. change (2 ^ 8) with 256.
  rewrite <- Z.add_nocarry_lor; [lia|].
  apply Z.bits_inj'. intros n Hn. rewrite Z.land_spec, Z.bits_0.
  destruct (Z.lt_ge_cases n 8) as [Hlt|Hge].
  - change 256 with (2 ^ 8). rewrite Z.mul_pow2_bits_low by lia. reflexivity.
  - replace (Z.testbit l n) with false; [apply andb_false_r|].
    symmetry. destruct (Z.eq_dec l 0) as [->|Hnz]; [apply Z.bits_0|].
    apply Z.bits_above_log2; [lia|].
    apply Z.lt_le_trans with 8; [|lia].
    apply Z.log2_lt_pow2; [lia|]. change (2 ^ 8) with 256. lia.
Qed.

Lemma register_bytes_of_pair (registers : gmap Z Z) (addr : Z) (hi lo : byte) :
  registers !! addr
  = Some (Z.lor (Z.shiftl (byte_to_int hi) 8) (byte_to_int lo)) →
  register_bytes registers addr = [byte_to_int hi; byte_to_int lo].
Proof.
  intros H. unfold register_bytes. rewrite H.
  pose proof (byte_to_int_range hi) as Hh. pose proof (byte_to_int_range lo) as Hl.
  rewrite lor_shiftl_bytes by lia.
  destruct (low_word_bytes (256 * byte_to_int hi + byte_to_int lo)) as [-> ->].
  rewrite (Z.mod_small _ 65536) by lia.
  f_equal; [|f_equal].
  - symmetry. apply (Z.div_unique _ _ _ (byte_to_int lo)); lia.
  - symmetry. apply (Z.mod_unique _ _ (byte_to_int hi)); lia.
Qed.

Lemma write_registers_outside (data : bytes) (a : Z) (ks : list Z)
    (r r' : gmap Z Z) (completed : bool) (k : Z) :
  write_registers data a ks r = (r', completed) →
  (∀ i, In i ks → k ≠ a + i) →
  r' !! k = r !! k.
Proof.
  revert r. induction ks as [|i ks IH]; intros r; cbn [write_registers].
  - intros [= <- _] _. reflexivity.
  - cbn zeta.
    destruct (data !! Z.to_nat (i * 2)) as [hi|];
      [destruct (data !! Z.to_nat (i * 2 + 1)) as [lo|]|].
    + intros Hw Hk. rewrite (IH _ Hw) by (intros j Hj; apply Hk; now right).
      apply lookup_insert_ne. intros Heq. apply (Hk i); [now left | auto].
    + intros [= <- _] _. reflexivity.
    + intros [= <- _] _. reflexivity.
Qed.

Lemma write_registers_inside (data : bytes) (a : Z) (ks : list Z)
    (r r' : gmap Z Z) (i : Z) :
  write_registers data a ks r = (r', true) →
  NoDup ks → In i ks →
  ∃ hi lo,
    data !! Z.to_nat (i * 2) = Some hi
    ∧ data !! Z.to_nat (i * 2 + 1) = Some lo
    ∧ r' !! (a + i) = Some (Z.lor (Z.shiftl (byte_to_int hi) 8) (byte_to_int lo)).
Proof.
  revert r. induction ks as [|j ks IH]; intros r Hw Hnd Hin; [destruct Hin|].
  cbn [write_registers] in Hw. cbn zeta in Hw.
  apply NoDup_cons in Hnd. destruct Hnd as [Hj Hnd].
  destruct (data !! Z.to_nat (j * 2)) as [hi|] eqn:Ehi; [|discriminate].
  destruct (data !! Z.to_nat (j * 2 + 1)) as [lo|] eqn:Elo; [|discriminate].
  destruct Hin as [->|Hin].
  - exists hi, lo. split; [exact Ehi|]. split; [exact Elo|].
    rewrite (write_registers_outside _ _ _ _ _ _ (a + i) Hw).
    + apply lookup_insert_eq.
    + intros k Hk Heq. apply Hj. apply list_elem_of_In.
      replace i with k by lia. exact Hk.
  - now apply (IH _ Hw).
Qed.

Lemma write_registers_completes (data : bytes) (a : Z) (ks : list Z)
    (r : gmap Z Z) :
  (∀ i, In i ks → (Z.to_nat (i * 2 + 1) < length data)%nat ∧ 0 <= i) →
  snd (write_registers data a ks r) = true.
Proof.
  revert r. induction ks as [|i ks IH]; intros r Hks; [reflexivity|].
  cbn [write_registers]. cbn zeta.
  destruct (Hks i (or_introl eq_refl)) as [Hi Hi0].
  destruct (data !! Z.to_nat (i * 2)) as [hi|] eqn:Ehi;
    [|apply lookup_ge_None in Ehi; lia].
  destruct (data !! Z.to_nat (i * 2 + 1)) as [lo|] eqn:Elo;
    [|apply lookup_ge_None in Elo; lia].
  apply IH. intros j Hj. apply Hks. now right.
Qed.

Lemma write_multiple_registers_legal (st : Server) (sid : Z) (req : bytes)
    (sl : SlaveConfig) :
  (9 <= length req)%nat →
  1 <= word_at req 4 <= 123 →
  at_ req 6 = word_at req 4 * 2 →
  (7 + Z.to_nat (2 * word_at req 4) <= length req)%nat →
  slaves st !! sid = Some sl →
  0 <= sid < 256 →
  ∃ registers',
    write_registers (slice 7 (Z.to_nat (at_ req 6)) req) (word_at req 2)
      (seqZ 0 (word_at req 4)) (holding_registers sl) = (registers', true)
    ∧ _handle_write_multiple_registers st sid req
      = (store_slave sid (set_holding_registers registers' sl) st,
         Returned (Some (framed (wrap_byte <$>
            ([sid; 0x10] ++ ints_of_bytes (slice 2 4 req)))))).
Proof.
  intros Hlen Hq Hbc Hpayload Hsl Hs. unfold _handle_write_multiple_registers.
  replace (length req <? 9)%nat with false by (symmetry; apply Nat.ltb_ge; lia).
  cbn zeta.
  replace ((word_at req 4 <? 1) || (word_at req 4 >? 123)
           || negb (at_ req 6 =? word_at req 4 * 2)) with false.
  2:{ symmetry. rewrite !orb_false_iff, Z.ltb_ge, negb_false_iff, Z.eqb_eq.
      rewrite Z.gtb_ltb, Z.ltb_ge. lia. }
  rewrite Hsl.
  pose proof (write_registers_completes
                (slice 7 (Z.to_nat (at_ req 6)) req) (word_at req 2)
                (seqZ 0 (word_at req 4)) (holding_registers sl)) as Hc.
  destruct (write_registers _ _ _ _) as [registers' completed].
  cbn [snd] in Hc. rewrite Hc.
  - exists registers'. split; [reflexivity|].
    rewrite pack_with_crc_Some; [reflexivity|].
    apply Forall_app. split; [repeat constructor; lia | apply slice_ints_range].
  - intros i Hi. apply list_elem_of_In, elem_of_seqZ in Hi.
    unfold slice. rewrite length_take, length_drop. lia.
Qed.

(** The data of a register read over pairs of bytes. *)
Lemma flat_map_pairs (f : Z → list Z) (a : Z) (d : list Z) (n : nat) :
  (∀ i : nat, (i < n)%nat →
     ∃ x y, d !! (2 * i)%nat = Some x ∧ d !! (2 * i + 1)%nat = Some y
            ∧ f (a + Z.of_nat i) = [x; y]) →
  flat_map f (seqZ a (Z.of_nat n)) = take (2 * n) d.
Proof.
  induction n as [|n IH]; intros H; [reflexivity|].
  rewrite seqZ_S, flat_map_app, IH by (intros i Hi; apply H; lia).
  destruct (H n ltac:(lia)) as (x & y & Hx & Hy & Hf).
  cbn [flat_map]. rewrite Hf, app_nil_r.
  replace (2 * S n)%nat with (S (S (2 * n))) by lia.
  rewrite (take_S_r d (S (2 * n)) y) by (rewrite <- Hy; f_equal; lia).
  rewrite (take_S_r d (2 * n) x) by exact Hx.
  now rewrite <- app_assoc.
Qed.

Lemma header_of_write (w : bytes) (fc : Z) :
  (6 <= length w)%nat → at_ w 1 = fc →
  wrap_byte <$> ([at_ w 0; fc] ++ ints_of_bytes (slice 2 4 w)) = take 6 w.
Proof.
  intros Hlen <-.
  destruct w as [|b0 [|b1 [|b2 [|b3 [|b4 [|b5 w]]]]]]; cbn in Hlen; try lia.
  cbn. unfold at_. cbn. now rewrite !wrap_byte_to_int.
Qed.

(** X11. A write multiple registers request (0x10) that carries its
    payload (quantity 1..123, byte count twice the quantity) is answered
    with its own first six bytes and a CRC; it changes only the holding
    registers from the start address on, and a read holding registers
    request for the same range is answered with exactly the payload
    bytes. *)
Theorem write_multiple_registers_then_read (now1 now2 : Z) (st : Server)
    (w r : bytes) (sl : SlaveConfig) :
  port_open st = true →
  slaves st !! at_ w 0 = Some sl →
  (9 <= length w)%nat → _validate_crc w = Some true → at_ w 1 = 0x10 →
  1 <= word_at w 4 <= 123 →
  at_ w 6 = word_at w 4 * 2 →
  (7 + Z.to_nat (2 * word_at w 4) <= length w)%nat →
  (8 <= length r)%nat → _validate_crc r = Some true → at_ r 1 = 0x03 →
  at_ r 0 = at_ w 0 →
  word_at r 2 = word_at w 2 →
  word_at r 4 = word_at w 4 →
  let a := word_at w 2 in
  let q := word_at w 4 in
  let payload := take (Z.to_nat (2 * q)) (drop 7 w) in
  let st1 := _process_request now1 st w in
  let st2 := _process_request now2 st1 r in
  port_written st1 = port_written st ++ [framed (take 6 w)]
  ∧ (∃ sl1,
       slaves st1 = <[at_ w 0 := sl1]> (slaves st)
       ∧ same_read_only sl sl1
       ∧ coils sl1 = coils sl
       ∧ ∀ k, ¬ (a <= k < a + q) →
           holding_registers sl1 !! k = holding_registers sl !! k)
  ∧ port_written st2
    = port_written st1
      ++ [framed ((wrap_byte <$> [at_ w 0; 0x03; 2 * q]) ++ payload)].
Proof.
  intros Hopen Hsl Hlw Hcw Hfw Hq Hbc Hpay Hlr Hcr Hfr Hid Ha Hqr. cbn zeta.
  pose proof (at_range w 0) as Hs.
  destruct (count_request_keeps now1 (at_ w 0) (length w) st) as (Cs & _).
  destruct (write_multiple_registers_legal
              (count_request now1 (at_ w 0) (length w) st) (at_ w 0) w sl)
    as (regs' & Hloop & Hres); try assumption; [congruence|].
  rewrite header_of_write in Hres by (try lia; assumption).
  destruct (process_request_stored now1 st w sl
              (set_holding_registers regs' sl)
              _handle_write_multiple_registers (framed (take 6 w)))
    as (Hs1 & Hw1 & Ho1); try assumption; try lia.
  { rewrite Hfw. reflexivity. }
  { rewrite length_framed, length_take. lia. }
  split; [exact Hw1|]. split.
  { exists (set_holding_registers regs' sl).
    split; [exact Hs1|]. split; [apply same_read_only_holding|].
    split; [reflexivity|].
    intros k Hk. cbn. apply (write_registers_outside _ _ _ _ _ _ k Hloop).
    intros i Hi Heq. apply list_elem_of_In, elem_of_seqZ in Hi. lia. }
  destruct (process_read_registers now2 (_process_request now1 st w) r
              (set_holding_registers regs' sl) 0x03 holding_registers)
    as [Hw2 _]; try assumption; try lia.
  { rewrite Hs1, Hid. apply lookup_insert_eq. }
  { reflexivity. }
  rewrite Hw2, Hqr, Ha, Hid. do 3 f_equal.
  rewrite fmap_app. f_equal; [now rewrite (Z.mul_comm 2)|].
  cbn [holding_registers set_holding_registers].
  rewrite <- (wrap_ints_of_bytes (take _ (drop 7 w))). f_equal.
  replace (word_at w 4) with (Z.of_nat (Z.to_nat (word_at w 4))) at 1 by lia.
  unfold ints_of_bytes. rewrite fmap_take.
  replace (Z.to_nat (2 * word_at w 4)) with (2 * Z.to_nat (word_at w 4))%nat
    by lia.
  apply flat_map_pairs. intros i Hi.
  destruct (write_registers_inside _ _ _ _ _ (Z.of_nat i) Hloop)
    as (hi & lo & Hhi & Hlo & Hreg).
  { apply NoDup_seqZ. }
  { apply list_elem_of_In, elem_of_seqZ. lia. }
  exists (byte_to_int hi), (byte_to_int lo).
  unfold slice in Hhi, Hlo.
  apply lookup_take_Some in Hhi. destruct Hhi as [Hhi _].
  apply lookup_take_Some in Hlo. destruct Hlo as [Hlo _].
  replace (Z.to_nat (Z.of_nat i * 2)) with (2 * i)%nat in Hhi by lia.
  replace (Z.to_nat (Z.of_nat i * 2 + 1)) with (2 * i + 1)%nat in Hlo by lia.
  rewrite !list_lookup_fmap, Hhi, Hlo. cbn.
  split; [reflexivity|]. split; [reflexivity|].
  now apply register_bytes_of_pair.
Qed.

(** Registers 100 and 101 of the example slave written with 0x1234 and
    0xABCD, then read. *)
Lemma write_multiple_registers_then_read_witness :
  ints_of_bytes
    <$> port_written
          (_process_request 1
             (_process_request 0 example_server
                (request_of [1; 0x10; 0; 100; 0; 2; 4; 0x12; 0x34; 0xAB; 0xCD]))
             (request8 1 0x03 100 2))
  = [[0x01; 0x10; 0x00; 0x64; 0x00; 0x02; 0x00; 0x17];
     [0x01; 0x03; 0x04; 0x12; 0x34; 0xAB; 0xCD; 0x00; 0x20]].
Proof.
  assert (Hfacts :
            _validate_crc
              (request_of [1; 0x10; 0; 100; 0; 2; 4; 0x12; 0x34; 0xAB; 0xCD])
            = Some true
            ∧ _validate_crc (request8 1 0x03 100 2) = Some true
            ∧ word_at
                (request_of [1; 0x10; 0; 100; 0; 2; 4; 0x12; 0x34; 0xAB; 0xCD]) 4
              = 2)
    by (vm_compute; auto).
  destruct Hfacts as (Hcw & Hcr & H4).
  destruct (write_multiple_registers_then_read 0 1 example_server
              (request_of [1; 0x10; 0; 100; 0; 2; 4; 0x12; 0x34; 0xAB; 0xCD])
              (request8 1 0x03 100 2) create_example_slave)
    as (Hw1 & _ & Hw2); try assumption;
    try (rewrite ?H4; first [lia | vm_compute; first [exact eq_refl | lia]]).
Defined.

End WriteMultipleRegisters.

(** ** Write multiple coils, then read them back *)

Section WriteMultipleCoilsThenRead.

Lemma write_coils_completes (data : bytes) (a : Z) (ks : list Z)
    (c : gmap Z bool) :
  (∀ i, In i ks → (Z.to_nat (i / 8) < length data)%nat) →
  snd (write_coils data a ks c) = true.
Proof.
  revert c. induction ks as [|i ks IH]; intros c Hks; [reflexivity|].
  cbn [write_coils]. cbn zeta.
  pose proof (Hks i (or_introl eq_refl)) as Hi.
  destruct (data !! Z.to_nat (i / 8)) as [b|] eqn:Eb;
    [|apply lookup_ge_None in Eb; lia].
  apply IH. intros j Hj. apply Hks. now right.
Qed.

(** X12. A write multiple coils request (0x0F) that carries its payload is
    answered with its own first six bytes and a CRC, and a read coils
    request for the same range then returns the payload in canonical
    packing: bit [j] of data byte [i] is payload bit [j] of byte [i] when
    [8i + j] is below the quantity, and 0 beyond it. *)
Theorem write_multiple_coils_then_read (now1 now2 : Z) (st : Server)
    (w r : bytes) (sl : SlaveConfig) :
  port_open st = true →
  slaves st !! at_ w 0 = Some sl →
  (9 <= length w)%nat → _validate_crc w = Some true → at_ w 1 = 0x0F →
  1 <= word_at w 4 <= 1968 →
  at_ w 6 = (word_at w 4 + 7) / 8 →
  (7 + Z.to_nat ((word_at w 4 + 7) / 8) <= length w)%nat →
  (8 <= length r)%nat → _validate_crc r = Some true → at_ r 1 = 0x01 →
  at_ r 0 = at_ w 0 →
  word_at r 2 = word_at w 2 →
  word_at r 4 = word_at w 4 →
  let q := word_at w 4 in
  let st1 := _process_request now1 st w in
  let st2 := _process_request now2 st1 r in
  port_written st1 = port_written st ++ [framed (take 6 w)]
  ∧ ∃ data,
      port_written st2
      = port_written st1
        ++ [framed (wrap_byte <$> ([at_ w 0; 0x01; (q + 7) / 8] ++ data))]
      ∧ length data = Z.to_nat ((q + 7) / 8)
      ∧ ∀ (i : nat) (d j : Z),
          data !! i = Some d → 0 <= j < 8 →
          Z.testbit d j
          = (8 * Z.of_nat i + j <? q) && Z.testbit (at_ w (7 + i)) j.
Proof.
  intros Hopen Hsl Hlw Hcw Hfw Hq Hbc Hpay Hlr Hcr Hfr Hid Ha Hqr. cbn zeta.
  pose proof (at_range w 0) as Hs.
  destruct (count_request_keeps now1 (at_ w 0) (length w) st) as (Cs & _).
  assert (Hbc0 : 0 <= (word_at w 4 + 7) / 8) by (apply Z.div_pos; lia).
  destruct (write_multiple_coils_legal
              (count_request now1 (at_ w 0) (length w) st) (at_ w 0) w sl)
    as (coils' & completed & Hloop & Hres); try assumption; [congruence|].
  assert (Hdone : completed = true).
  { pose proof (write_coils_completes
                  (slice 7 (Z.to_nat (at_ w 6)) w) (word_at w 2)
                  (seqZ 0 (word_at w 4)) (coils sl)) as Hc.
    rewrite Hloop in Hc. apply Hc. intros i Hi.
    apply list_elem_of_In, elem_of_seqZ in Hi.
    unfold slice. rewrite length_take, length_drop, Hbc.
    assert (i / 8 < (word_at w 4 + 7) / 8).
    { apply Z.div_lt_upper_bound; [lia|].
      pose proof (Z.mul_div_le (word_at w 4 + 7) 8 ltac:(lia)).
      pose proof (Z.mod_pos_bound (word_at w 4 + 7) 8 ltac:(lia)).
      pose proof (Z.div_mod (word_at w 4 + 7) 8 ltac:(lia)). lia. }
    assert (0 <= i / 8) by (apply Z.div_pos; lia). lia. }
  subst completed.
  rewrite header_of_write in Hres by (try lia; assumption).
  destruct (process_request_stored now1 st w sl (set_coils coils' sl)
              _handle_write_multiple_coils (framed (take 6 w)))
    as (Hs1 & Hw1 & Ho1); try assumption; try lia.
  { rewrite Hfw. reflexivity. }
  { rewrite length_framed, length_take. lia. }
  split; [exact Hw1|].
  destruct (process_read_bits now2 (_process_request now1 st w) r
              (set_coils coils' sl) 0x01 coils)
    as [Hw2 _]; try assumption; try lia.
  { rewrite Hs1, Hid. apply lookup_insert_eq. }
  { reflexivity. }
  rewrite Hqr, Ha, Hid in Hw2. cbn [coils set_coils] in Hw2.
  eexists. split; [exact Hw2|]. split.
  { rewrite length_fmap, length_seqZ. reflexivity. }
  intros i d j Hd Hj.
  rewrite list_lookup_fmap in Hd.
  apply fmap_Some in Hd. destruct Hd as (k & Ek & ->).
  apply lookup_seqZ in Ek. destruct Ek as [-> Hi].
  rewrite Z.add_0_l.
  apply Bool.eq_iff_eq_true. rewrite packed_byte_bit by lia.
  rewrite andb_true_iff, Z.ltb_lt.
  destruct (Z.lt_ge_cases (8 * Z.of_nat i + j) (word_at w 4)) as [Hin|Hout];
    [|lia].
  destruct (write_coils_inside _ _ _ _ _ (8 * Z.of_nat i + j) Hloop)
    as (b & Hb & Hc).
  { apply NoDup_seqZ. }
  { apply Forall_forall. intros k Hk. apply elem_of_seqZ in Hk. lia. }
  { apply list_elem_of_In, elem_of_seqZ. lia. }
  replace ((8 * Z.of_nat i + j) / 8) with (Z.of_nat i) in Hb
    by (apply (Z.div_unique _ _ _ j); lia).
  replace ((8 * Z.of_nat i + j) mod 8) with j in Hc
    by (apply (Z.mod_unique _ _ (Z.of_nat i)); lia).
  rewrite Nat2Z.id in Hb.
  unfold slice in Hb. apply lookup_take_Some in Hb. destruct Hb as [Hb _].
  rewrite lookup_drop in Hb.
  replace (word_at w 2 + Z.of_nat i * 8 + j)
    with (word_at w 2 + (8 * Z.of_nat i + j)) by lia.
  rewrite Hc. unfold at_. rewrite (nth_lookup_Some _ _ _ _ Hb).
  split.
  - intros (_ & _ & [= H]). split; [lia | exact H].
  - intros [_ H]. split; [lia|]. split; [lia|]. now rewrite H.
Qed.

(** Ten coils from address 20 written with payload 0xA5 0xFF and read
    back: the second data byte comes back as 0x03, its six bits beyond the
    quantity cleared. *)
Lemma write_multiple_coils_then_read_witness :
  ints_of_bytes
    <$> port_written
          (_process_request 1
             (_process_request 0 example_server
                (request_of [1; 0x0F; 0; 20; 0; 10; 2; 0xA5; 0xFF]))
             (request8 1 0x01 20 10))
  = [[0x01; 0x0F; 0x00; 0x14; 0x00; 0x0A; 0x95; 0xC8];
     [0x01; 0x01; 0x02; 0xA5; 0x03; 0x82; 0xAD]].
Proof.
  assert (Hfacts :
            _validate_crc (request_of [1; 0x0F; 0; 20; 0; 10; 2; 0xA5; 0xFF])
            = Some true
            ∧ _validate_crc (request8 1 0x01 20 10) = Some true
            ∧ word_at (request_of [1; 0x0F; 0; 20; 0; 10; 2; 0xA5; 0xFF]) 4 = 10)
    by (vm_compute; auto).
  destruct Hfacts as (Hcw & Hcr & H4).
  destruct (write_multiple_coils_then_read 0 1 example_server
              (request_of [1; 0x0F; 0; 20; 0; 10; 2; 0xA5; 0xFF])
              (request8 1 0x01 20 10) create_example_slave)
    as (Hw1 & data & Hw2 & _); try assumption;
    try (rewrite ?H4; first [lia | vm_compute; first [exact eq_refl | lia]]).
Defined.

End WriteMultipleCoilsThenRead.

(** ** Frame reader *)

Section FrameReader.

Lemma port_read_app (f rest : bytes) :
  port_read (length f) (f ++ rest) = (f, rest).
Proof.
  unfold port_read. now rewrite take_app_length, drop_app_length.
Qed.

Lemma read_counted_complete (prefix : bytes) (b : byte) (data rest : bytes) :
  length data = Z.to_nat (byte_to_int b + 2) →
  read_counted prefix (b :: data ++ rest) = (Some (prefix ++ b :: data), rest).
Proof.
  intros Hlen. unfold read_counted, port_read. cbn [take drop].
  rewrite !drop_0, <- Hlen, take_app_length, drop_app_length.
  unfold bytes_of_ints. cbn [mapM]. rewrite int_to_byte_of_byte. reflexivity.
Qed.

(** [_read_request] once the two header bytes are there. *)
Lemma read_request_header (b0 b1 : byte) (tl : bytes) :
  _read_request (b0 :: b1 :: tl)
  = if bool_decide (byte_to_int b1 ∈ [0x01; 0x02; 0x03; 0x04; 0x05; 0x06]) then
      if (length (take 6 tl) <? 6)%nat then (None, drop 6 tl)
      else (Some ([b0; b1] ++ take 6 tl), drop 6 tl)
    else if (byte_to_int b1 =? 0x0F) || (byte_to_int b1 =? 0x10) then
      if (length (take 4 tl) <? 4)%nat then (None, drop 4 tl)
      else read_counted ([b0; b1] ++ take 4 tl) (drop 4 tl)
    else if byte_to_int b1 =? 0x14 then read_counted [b0; b1] tl
    else (None, tl).
Proof. reflexivity. Qed.

(** A request of the length its function code announces is taken from the
    front of the buffer whole, and what follows it stays. *)
Lemma read_request_complete (f rest : bytes) :
  complete_request f → _read_request (f ++ rest) = (Some f, rest).
Proof.
  unfold complete_request, announced_length. cbn zeta. intros H.
  pose proof (at_range f 6) as H6. pose proof (at_range f 2) as H2.
  destruct f as [|b0 [|b1 tl]].
  1,2: repeat case_bool_decide; repeat case_match; try discriminate;
       injection H; cbn [length]; lia.
  change (at_ (b0 :: b1 :: tl) 1) with (byte_to_int b1) in H.
  change ((b0 :: b1 :: tl) ++ rest) with (b0 :: b1 :: (tl ++ rest)).
  rewrite read_request_header.
  destruct (bool_decide (byte_to_int b1 ∈ [1; 2; 3; 4; 5; 6])).
  - injection H as H. cbn [length] in H.
    assert (Hl : length tl = 6%nat) by lia.
    rewrite <- Hl, take_app_length, drop_app_length.
    rewrite Hl. reflexivity.
  - destruct ((byte_to_int b1 =? 15) || (byte_to_int b1 =? 16)).
    + injection H as H.
      destruct tl as [|b2 [|b3 [|b4 [|b5 [|b6 data]]]]];
        try (cbn [length] in H; lia).
      change (at_ (b0 :: b1 :: b2 :: b3 :: b4 :: b5 :: b6 :: data) 6)
        with (byte_to_int b6) in H.
      cbn [length] in H. cbn [app take drop length Nat.ltb Nat.leb].
      rewrite (read_counted_complete _ b6 data rest) by lia. reflexivity.
    + destruct (byte_to_int b1 =? 20); [|discriminate].
      injection H as H.
      destruct tl as [|b2 data]; [cbn [length] in H; lia|].
      change (at_ (b0 :: b1 :: b2 :: data) 2) with (byte_to_int b2) in H.
      cbn [length] in H. cbn [app].
      rewrite (read_counted_complete _ b2 data rest) by lia. reflexivity.
Qed.

Lemma complete_request_nonempty (f : bytes) : complete_request f → f ≠ [].
Proof.
  intros H ->. unfold complete_request, announced_length in H.
  pose proof (at_range [] 6) as H6. pose proof (at_range [] 2) as H2.
  cbn zeta in H.
  repeat case_bool_decide; repeat case_match; try discriminate;
    injection H; cbn [length]; lia.
Qed.

(** X13. Requests written back to back, each as long as its function code
    and byte-count field announce, are separated again by the frame
    reader: as many turns of the server loop as there are requests return
    exactly those requests, in order. *)
Theorem read_frames_splits_stream (fs : list bytes) :
  Forall complete_request fs →
  read_frames (length fs) (mjoin fs) = fs.
Proof.
  induction 1 as [|f fs Hf Hfs IH]; [reflexivity|].
  cbn [length read_frames mjoin list_join].
  pose proof (complete_request_nonempty f Hf) as Hne.
  destruct (f ++ mjoin fs) as [|b rx] eqn:E.
  { destruct f; [contradiction | discriminate]. }
  rewrite <- E, read_request_complete by exact Hf.
  destruct f as [|b' f']; [contradiction|]. cbn [truthy]. f_equal. exact IH.
Qed.

(** A read of holding registers, a write of four coils and a file record
    request in one buffer. *)
Lemma read_frames_splits_stream_witness :
  read_frames 3
    (request8 1 0x03 2014 2
     ++ request_of [1; 0x0F; 0; 20; 0; 4; 1; 0x0F]
     ++ request_of [1; 0x14; 7; 6; 0; 1; 0; 0; 0; 4])
  = [request8 1 0x03 2014 2;
     request_of [1; 0x0F; 0; 20; 0; 4; 1; 0x0F];
     request_of [1; 0x14; 7; 6; 0; 1; 0; 0; 0; 4]].
Proof.
  pose proof (read_frames_splits_stream
                [request8 1 0x03 2014 2;
                 request_of [1; 0x0F; 0; 20; 0; 4; 1; 0x0F];
                 request_of [1; 0x14; 7; 6; 0; 1; 0; 0; 0; 4]]) as H.
  cbn [length mjoin list_join] in H. rewrite app_nil_r in H. apply H.
  repeat constructor; vm_compute; exact eq_refl.
Defined.

End FrameReader.

Section FrameReaderEdges.

Lemma read_counted_cons (prefix : bytes) (b : byte) (tl : bytes) :
  read_counted prefix (b :: tl)
  = (Some (prefix ++ b :: take (Z.to_nat (byte_to_int b + 2)) tl),
     drop (Z.to_nat (byte_to_int b + 2)) tl).
Proof.
  unfold read_counted, port_read. cbn [take drop]. rewrite !drop_0.
  unfold bytes_of_ints. cbn [mapM]. rewrite int_to_byte_of_byte. reflexivity.
Qed.

Lemma read_counted_nil (prefix : bytes) : read_counted prefix [] = (None, []).
Proof. reflexivity. Qed.

Lemma at_function_code (b0 b1 : byte) (l : bytes) :
  at_ (b0 :: b1 :: l) 1 = byte_to_int b1.
Proof. reflexivity. Qed.

Lemma read_request_short (rx : bytes) :
  (length rx < 2)%nat → _read_request rx = (None, []).
Proof. destruct rx as [|b0 [|b1 tl]]; cbn [length]; [reflexivity..|lia]. Qed.

(** X14. What [_read_request] returns is what it took from the buffer: a
    returned frame followed by the remaining buffer is the buffer it
    started from, its function code is one of the nine, and for function
    codes 0x01 to 0x06 it has exactly eight bytes. With any other function
    code exactly the two header bytes are taken and nothing is returned.
    The counted requests have no length check on their last read: a read
    file record request is returned as soon as its byte count has arrived,
    with whatever follows of the announced bytes. *)
Theorem read_request_consumes (rx : bytes) :
  (∀ f rx',
     _read_request rx = (Some f, rx') →
     rx = f ++ rx'
     ∧ In (at_ f 1) supported_function_codes
     ∧ (3 <= length f)%nat
     ∧ (In (at_ f 1) [0x01; 0x02; 0x03; 0x04; 0x05; 0x06] → length f = 8%nat))
  ∧ (∀ b0 b1 tl,
       rx = b0 :: b1 :: tl →
       ¬ In (byte_to_int b1) supported_function_codes →
       _read_request rx = (None, tl))
  ∧ (∀ b0 b1 b2 tl,
       rx = b0 :: b1 :: b2 :: tl →
       byte_to_int b1 = 0x14 →
       _read_request rx
       = (Some ([b0; b1; b2] ++ take (Z.to_nat (byte_to_int b2 + 2)) tl),
          drop (Z.to_nat (byte_to_int b2 + 2)) tl)).
Proof.
  split; [|split].
  - intros f rx' H.
    destruct rx as [|b0 [|b1 tl]]; try (cbn in H; discriminate).
    rewrite read_request_header in H.
    destruct (bool_decide (byte_to_int b1 ∈ [1; 2; 3; 4; 5; 6])) eqn:E16.
    + apply bool_decide_eq_true, list_elem_of_In in E16.
      destruct (length (take 6 tl) <? 6)%nat eqn:El; [discriminate|].
      apply Nat.ltb_ge in El. injection H as <- <-.
      split; [cbn [app]; now rewrite take_drop|].
      cbn [app]. rewrite !at_function_code.
      split; [unfold supported_function_codes; cbn in E16 |- *; tauto|].
      split; [cbn [app length]; lia|].
      intros _. cbn [app length]. rewrite length_take in *. lia.
    + apply bool_decide_eq_false in E16.
      destruct ((byte_to_int b1 =? 15) || (byte_to_int b1 =? 16)) eqn:Ew.
      * destruct (length (take 4 tl) <? 4)%nat eqn:El; [discriminate|].
        apply Nat.ltb_ge in El.
        destruct (drop 4 tl) as [|b rest] eqn:Ed;
          [rewrite read_counted_nil in H; discriminate|].
        rewrite read_counted_cons in H. injection H as <- <-.
        cbn [app]. rewrite !at_function_code.
        split.
        { cbn [app]. rewrite <- app_assoc. cbn [app].
          rewrite <- (take_drop 4 tl) at 1. rewrite Ed. do 2 f_equal.
          f_equal. f_equal. symmetry. apply take_drop. }
        split.
        { apply orb_true_iff in Ew. rewrite !Z.eqb_eq in Ew.
          destruct Ew as [-> | ->]; unfold supported_function_codes; cbn; tauto. }
        split; [cbn [length]; rewrite length_app; cbn [length]; lia|].
        intros Hin. exfalso. apply E16. now apply list_elem_of_In.
      * destruct (byte_to_int b1 =? 20) eqn:E20; [|discriminate].
        apply Z.eqb_eq in E20.
        destruct tl as [|b rest];
          [rewrite read_counted_nil in H; discriminate|].
        rewrite read_counted_cons in H. injection H as <- <-.
        cbn [app]. rewrite !at_function_code.
        split; [cbn [app]; now rewrite take_drop|].
        split; [rewrite E20; unfold supported_function_codes; cbn; tauto|].
        split; [cbn [app length]; lia|].
        intros Hin. exfalso. apply E16. now apply list_elem_of_In.
  - intros b0 b1 tl -> Hfc. rewrite read_request_header.
    case_bool_decide as E16.
    { exfalso. apply Hfc. apply list_elem_of_In in E16.
      unfold supported_function_codes in Hfc. cbn in E16, Hfc. tauto. }
    destruct (Z.eqb_spec (byte_to_int b1) 15) as [E|_];
      [exfalso; apply Hfc; rewrite E; unfold supported_function_codes; cbn; tauto|].
    destruct (Z.eqb_spec (byte_to_int b1) 16) as [E|_];
      [exfalso; apply Hfc; rewrite E; unfold supported_function_codes; cbn; tauto|].
    destruct (Z.eqb_spec (byte_to_int b1) 20) as [E|_];
      [exfalso; apply Hfc; rewrite E; unfold supported_function_codes; cbn; tauto|].
    reflexivity.
  - intros b0 b1 b2 tl -> Hfc. rewrite read_request_header, Hfc.
    cbn [bool_decide decide_rel orb Z.eqb Pos.eqb].
    case_bool_decide as E16; [apply list_elem_of_In in E16; cbn in E16;
                              intuition discriminate|].
    rewrite read_counted_cons. reflexivity.
Qed.

(** A read file record request of which only the byte count has arrived is
    handed on as a three-byte frame. *)
Lemma read_request_consumes_witness :
  _read_request (raw_frame [1; 0x14; 7])
  = (Some (raw_frame [1; 0x14; 7]), []).
Proof.
  destruct (read_request_consumes (raw_frame [1; 0x14; 7])) as (_ & _ & H).
  apply (H (wrap_byte 1) (wrap_byte 0x14) (wrap_byte 7) []).
  - exact eq_refl.
  - vm_compute. exact eq_refl.
Defined.

End FrameReaderEdges.

Section ClientServer.

Lemma server_line_answer (now : Z) (st : Server) (req resp : bytes) :
  complete_request req →
  port_written (_process_request now st req) = port_written st ++ [resp] →
  server_line now st req = resp.
Proof.
  intros Hc Hw. unfold server_line.
  pose proof (read_request_complete req [] Hc) as Hr.
  rewrite app_nil_r in Hr. rewrite Hr. cbn [fst].
  pose proof (complete_request_nonempty req Hc) as Hne.
  destruct req as [|b r]; [congruence|]. cbn [truthy].
  rewrite Hw, drop_app_length. cbn [mjoin list_join]. apply app_nil_r.
Qed.

Lemma response_crc_matches_framed (body : bytes) :
  response_crc_matches (framed body) = Some true.
Proof.
  unfold response_crc_matches, calculate_crc, slice_until_last, slice_last.
  rewrite length_framed.
  replace (length body + 2 - 2)%nat with (length body) by lia.
  unfold framed. rewrite take_app_length, drop_app_length, calculate_crc_total.
  cbn [mbind option_bind]. f_equal. now apply bool_decide_eq_true.
Qed.

Lemma at_framed (body : bytes) (i : nat) :
  (i < length body)%nat → at_ (framed body) i = at_ body i.
Proof. intros H. unfold at_, framed. now rewrite app_nth1. Qed.

Lemma at_wrap (l : list Z) (i : nat) (x : Z) :
  l !! i = Some x → 0 <= x < 256 → at_ (wrap_byte <$> l) i = x.
Proof.
  intros H Hx. unfold at_.
  rewrite (nth_lookup_Some _ _ _ (wrap_byte x))
    by (rewrite list_lookup_fmap, H; reflexivity).
  rewrite byte_to_int_wrap. now apply Z.mod_small.
Qed.

Lemma at_request_of (fields : list Z) (i : nat) (x : Z) :
  fields !! i = Some x → 0 <= x < 256 → at_ (request_of fields) i = x.
Proof.
  intros H Hx. unfold request_of. rewrite at_framed.
  - now apply at_wrap.
  - rewrite length_fmap. now apply lookup_lt_Some in H.
Qed.

Lemma request_word (n : Z) :
  Z.lor (Z.shiftl (Z.land (Z.shiftr n 8) 0xFF) 8) (Z.land n 0xFF)
  = n mod 65536.
Proof.
  destruct (low_word_bytes n) as [-> ->].
  pose proof (Z.mod_pos_bound n 65536 ltac:(lia)) as Hm.
  pose proof (Z.mod_pos_bound n 256 ltac:(lia)) as Hl.
  pose proof (Z.mod_pos_bound (n mod 65536) 256 ltac:(lia)) as Hml.
  pose proof (Z.div_mod n 65536 ltac:(lia)) as E1.
  pose proof (Z.div_mod (n mod 65536) 256 ltac:(lia)) as E2.
  pose proof (Z.div_mod n 256 ltac:(lia)) as E3.
  rewrite lor_shiftl_bytes; [lia| |lia].
  apply Z.div_pos; lia.
Qed.

Lemma register_bytes_default (registers : gmap Z Z) (addr : Z) :
  register_bytes registers addr
  = [Z.land (Z.shiftr (default 0 (registers !! addr)) 8) 0xFF;
     Z.land (default 0 (registers !! addr)) 0xFF].
Proof. unfold register_bytes. now destruct (registers !! addr). Qed.

Lemma length_register_bytes (registers : gmap Z Z) (l : list Z) :
  length (flat_map (register_bytes registers) l) = (2 * length l)%nat.
Proof.
  induction l as [|k l IH]; [reflexivity|].
  cbn [flat_map]. rewrite register_bytes_default. cbn [app length]. lia.
Qed.

Lemma lookup_register_bytes (registers : gmap Z Z) (l : list Z) (i : nat)
    (k : Z) :
  l !! i = Some k →
  flat_map (register_bytes registers) l !! (2 * i)%nat
  = Some (Z.land (Z.shiftr (default 0 (registers !! k)) 8) 0xFF)
  ∧ flat_map (register_bytes registers) l !! (2 * i + 1)%nat
    = Some (Z.land (default 0 (registers !! k)) 0xFF).
Proof.
  revert i. induction l as [|y l IH]; intros i H; [discriminate|].
  cbn [flat_map]. rewrite register_bytes_default. cbn [app].
  destruct i as [|i].
  - injection H as ->. split; reflexivity.
  - replace (2 * S i)%nat with (S (S (2 * i))) by lia.
    replace (S (S (2 * i)) + 1)%nat with (S (S (2 * i + 1))) by lia.
    exact (IH i H).
Qed.

(** The request frame of [read_holding_registers_raw] as the server sees
    it. *)
Lemma holding_request_fields (sid start n : Z) :
  0 <= sid < 256 → 0 <= n < 65536 →
  let req :=
    request_of [sid; 0x03;
                Z.land (Z.shiftr start 8) 0xFF; Z.land start 0xFF;
                Z.land (Z.shiftr n 8) 0xFF; Z.land n 0xFF] in
  length req = 8%nat
  ∧ at_ req 0 = sid ∧ at_ req 1 = 0x03
  ∧ word_at req 2 = start mod 65536 ∧ word_at req 4 = n
  ∧ _validate_crc req = Some true
  ∧ complete_request req.
Proof.
  intros Hsid Hn req.
  pose proof (land_byte_range (Z.shiftr start 8)) as R2.
  pose proof (land_byte_range start) as R3.
  pose proof (land_byte_range (Z.shiftr n 8)) as R4.
  pose proof (land_byte_range n) as R5.
  assert (H0 : at_ req 0 = sid) by (now apply at_request_of).
  assert (H1 : at_ req 1 = 3) by (now apply at_request_of).
  assert (H2 : at_ req 2 = Z.land (Z.shiftr start 8) 0xFF)
    by (now apply at_request_of).
  assert (H3 : at_ req 3 = Z.land start 0xFF) by (now apply at_request_of).
  assert (H4 : at_ req 4 = Z.land (Z.shiftr n 8) 0xFF)
    by (now apply at_request_of).
  assert (H5 : at_ req 5 = Z.land n 0xFF) by (now apply at_request_of).
  assert (Hl : length req = 8%nat) by reflexivity.
  split; [exact Hl|]. split; [exact H0|]. split; [exact H1|].
  unfold word_at. rewrite H2, H3, H4, H5, !request_word.
  split; [reflexivity|]. split; [apply Z.mod_small; lia|].
  split; [apply framed_valid; rewrite length_fmap; cbn [length]; lia|].
  unfold complete_request, announced_length. cbn zeta. rewrite H1, Hl.
  reflexivity.
Qed.

(** The registers the client takes out of a read response. *)
Lemma response_register (header : list Z) (registers : gmap Z Z) (a n : Z)
    (i : nat) :
  length header = 3%nat →
  (i < Z.to_nat n)%nat →
  let response :=
    framed (wrap_byte <$>
              (header ++ flat_map (register_bytes registers) (seqZ a n))) in
  Z.lor (Z.shiftl (at_ response (Z.to_nat (3 + Z.of_nat i * 2))) 8)
    (at_ response (Z.to_nat (4 + Z.of_nat i * 2)))
  = default 0 (registers !! (a + Z.of_nat i)) mod 65536.
Proof.
  intros Hh Hi response.
  destruct (lookup_register_bytes registers (seqZ a n) i (a + Z.of_nat i))
    as [Hhi Hlo].
  { apply lookup_seqZ. split; lia. }
  assert (Hlen : length (wrap_byte <$>
            (header ++ flat_map (register_bytes registers) (seqZ a n)))
          = (3 + 2 * Z.to_nat n)%nat).
  { rewrite length_fmap, length_app, length_register_bytes, length_seqZ. lia. }
  unfold response. rewrite !at_framed by lia.
  rewrite (at_wrap _ _ (Z.land (Z.shiftr
             (default 0 (registers !! (a + Z.of_nat i))) 8) 0xFF)).
  2:{ rewrite lookup_app_r by lia. rewrite <- Hhi. f_equal. lia. }
  2:{ apply land_byte_range. }
  rewrite (at_wrap _ _ (Z.land
             (default 0 (registers !! (a + Z.of_nat i))) 0xFF)).
  2:{ rewrite lookup_app_r by lia. rewrite <- Hlo. f_equal. lia. }
  2:{ apply land_byte_range. }
  apply request_word.
Qed.

Lemma framed_request_of (fields : list Z) :
  (wrap_byte <$> fields) ++ crc_bytes (wrap_byte <$> fields)
  = request_of fields.
Proof. reflexivity. Qed.

(** [read_holding_registers_raw] once the request bytes are packed. *)
Lemma read_holding_registers_raw_sent (line : bytes → bytes)
    (sid start n : Z) (request_data : bytes) :
  bytes_of_ints
    [sid; 0x03; Z.land (Z.shiftr start 8) 0xFF; Z.land start 0xFF;
     Z.land (Z.shiftr n 8) 0xFF; Z.land n 0xFF] = Some request_data →
  read_holding_registers_raw true line sid start n
  = if Z.of_nat (length (take (Z.to_nat (3 + n * 2 + 2))
                           (line (framed request_data)))) <? 3 + n * 2 + 2
    then None
    else
      match response_crc_matches
              (take (Z.to_nat (3 + n * 2 + 2)) (line (framed request_data)))
      with
      | Some true =>
        Some ((λ i,
                 Z.lor
                   (Z.shiftl
                      (at_ (take (Z.to_nat (3 + n * 2 + 2))
                              (line (framed request_data)))
                         (Z.to_nat (3 + i * 2))) 8)
                   (at_ (take (Z.to_nat (3 + n * 2 + 2))
                           (line (framed request_data)))
                      (Z.to_nat (4 + i * 2))))
                <$> seqZ 0 n)
      | _ => None
      end.
Proof.
  intros H. unfold read_holding_registers_raw. rewrite H.
  cbn [negb mbind option_bind]. unfold calculate_crc at 1.
  rewrite calculate_crc_total. cbn [mbind option_bind]. cbn zeta.
  unfold port_read. cbn [fst].
  change (request_data ++ crc_bytes request_data) with (framed request_data).
  destruct (_ <? _); [reflexivity|].
  destruct (response_crc_matches _) as [[|]|]; reflexivity.
Qed.

(** X15. The client's [read_holding_registers_raw] against the server: for
    a configured slave, an open port and 1 to 125 registers, the client
    returns the stored values of the addresses from the start address
    (taken modulo 65536) on, each cut to its low sixteen bits, with 0 for
    an address that has no register. *)
Theorem client_reads_holding_registers (now : Z) (st : Server)
    (sl : SlaveConfig) (sid start n : Z) :
  port_open st = true →
  0 <= sid < 256 →
  slaves st !! sid = Some sl →
  1 <= n <= 125 →
  read_holding_registers_raw true (server_line now st) sid start n
  = Some ((λ k, default 0 (holding_registers sl !! k) mod 65536)
            <$> seqZ (start mod 65536) n).
Proof.
  intros Hopen Hsid Hsl Hn.
  destruct (holding_request_fields sid start n Hsid ltac:(lia))
    as (Hl & H0 & H1 & Ha & Hq & Hcrc & Hc).
  assert (Hpack : Forall (λ x, 0 <= x < 256)
            [sid; 0x03; Z.land (Z.shiftr start 8) 0xFF; Z.land start 0xFF;
             Z.land (Z.shiftr n 8) 0xFF; Z.land n 0xFF])
    by (repeat constructor; first [lia | apply land_byte_range]).
  rewrite (read_holding_registers_raw_sent _ sid start n _
             (bytes_of_ints_Some _ Hpack)).
  fold (request_of
          [sid; 0x03; Z.land (Z.shiftr start 8) 0xFF; Z.land start 0xFF;
           Z.land (Z.shiftr n 8) 0xFF; Z.land n 0xFF]).
  revert Hl H0 H1 Ha Hq Hcrc Hc. generalize (request_of
          [sid; 0x03; Z.land (Z.shiftr start 8) 0xFF; Z.land start 0xFF;
           Z.land (Z.shiftr n 8) 0xFF; Z.land n 0xFF]).
  intros req Hl H0 H1 Ha Hq Hcrc Hc.
  assert (Hsl' : slaves st !! at_ req 0 = Some sl) by (now rewrite H0).
  assert (Hq' : 1 <= word_at req 4 <= 125) by lia.
  assert (Hl' : (8 <= length req)%nat) by lia.
  destruct (process_read_registers now st req sl 0x03 holding_registers
              Hl' Hsl' Hcrc H1 eq_refl Hq' Hopen) as [Hw _].
  rewrite (server_line_answer now st req _ Hc Hw).
  rewrite H0, Ha, Hq.
  generalize (eq_refl (wrap_byte <$>
     ([sid; 3; n * 2]
      ++ flat_map (register_bytes (holding_registers sl))
           (seqZ (start mod 65536) n)))).
  generalize (wrap_byte <$>
     ([sid; 3; n * 2]
      ++ flat_map (register_bytes (holding_registers sl))
           (seqZ (start mod 65536) n))) at 1 3 4 5 6.
  intros body Ebody.
  assert (Hbody : length body = Z.to_nat (3 + n * 2)).
  { rewrite Ebody, length_fmap, length_app, length_register_bytes,
      length_seqZ. cbn [length]. lia. }
  rewrite take_ge by (rewrite length_framed; lia).
  replace (Z.of_nat (length (framed body)) <? 3 + n * 2 + 2) with false
    by (symmetry; apply Z.ltb_ge; rewrite length_framed; lia).
  rewrite response_crc_matches_framed.
  f_equal.
  replace (seqZ (start mod 65536) n)
    with (Z.add (start mod 65536) <$> seqZ 0 n)
    by (rewrite fmap_add_seqZ; f_equal; lia).
  rewrite <- list_fmap_compose. apply list_fmap_ext. intros i x Hx.
  apply lookup_seqZ in Hx. destruct Hx as [-> Hi]. cbn [compose].
  rewrite Z.add_0_l, Ebody.
  apply (response_register [sid; 3; n * 2] (holding_registers sl)
           (start mod 65536) n i); [reflexivity | lia].
Qed.

(** Three registers of the example slave from 2017 on, asked for with a
    start address one turn of the sixteen bits higher; 2019 is not
    configured. *)
Lemma client_reads_holding_registers_witness :
  read_holding_registers_raw true (server_line 0 example_server) 1
    (65536 + 2017) 3
  = Some [2500; 750; 0].
Proof.
  assert (Hv : (λ k, default 0 (holding_registers create_example_slave !! k)
                     mod 65536) <$> seqZ ((65536 + 2017) mod 65536) 3
               = [2500; 750; 0]) by (vm_compute; exact eq_refl).
  rewrite <- Hv.
  apply (client_reads_holding_registers 0 example_server create_example_slave
           1 (65536 + 2017) 3).
  - exact eq_refl.
  - lia.
  - vm_compute. exact eq_refl.
  - lia.
Defined.

(** The port after a request whose handler returns a response. *)
Lemma process_request_reply (now : Z) (st : Server) (req : bytes)
    (sl : SlaveConfig) h (response : bytes) :
  (4 <= length req)%nat →
  slaves st !! at_ req 0 = Some sl →
  _validate_crc req = Some true →
  handler_for (at_ req 1) = Some h →
  h (count_request now (at_ req 0) (length req) st) (at_ req 0) req
  = (count_request now (at_ req 0) (length req) st,
     Returned (Some response)) →
  (2 <= length response)%nat →
  port_open st = true →
  port_written (_process_request now st req) = port_written st ++ [response].
Proof.
  intros Hlen Hsl Hcrc Hh Hr Hl Hopen.
  rewrite (process_request_answered now st req sl _ _ _ Hlen Hsl Hcrc Hh Hr Hl).
  destruct (count_request_keeps now (at_ req 0) (length req) st)
    as (Cs & Co & Cw & _).
  match goal with |- context [count_success ?a ?b ?c] =>
    destruct (count_success_keeps a b c) as (_ & _ & Kw & _) end.
  rewrite Kw. rewrite send_response_open by congruence. cbn.
  now rewrite Cw.
Qed.

(** The request frame of [read_file_records_raw] as the server sees it. *)
Lemma file_request_fields (sid file record len : Z) :
  0 <= sid < 256 →
  let req :=
    request_of [sid; 0x14; 7; 6;
                Z.land (Z.shiftr file 8) 0xFF; Z.land file 0xFF;
                Z.land (Z.shiftr record 8) 0xFF; Z.land record 0xFF;
                Z.land (Z.shiftr len 8) 0xFF; Z.land len 0xFF] in
  length req = 12%nat
  ∧ at_ req 0 = sid ∧ at_ req 1 = 0x14 ∧ at_ req 2 = 7 ∧ at_ req 3 = 6
  ∧ word_at req 4 = file mod 65536
  ∧ word_at req 6 = record mod 65536
  ∧ word_at req 8 = len mod 65536
  ∧ _validate_crc req = Some true
  ∧ complete_request req.
Proof.
  intros Hsid req.
  pose proof (land_byte_range (Z.shiftr file 8)) as R4.
  pose proof (land_byte_range file) as R5.
  pose proof (land_byte_range (Z.shiftr record 8)) as R6.
  pose proof (land_byte_range record) as R7.
  pose proof (land_byte_range (Z.shiftr len 8)) as R8.
  pose proof (land_byte_range len) as R9.
  assert (H0 : at_ req 0 = sid) by (now apply at_request_of).
  assert (H1 : at_ req 1 = 0x14) by (now apply at_request_of).
  assert (H2 : at_ req 2 = 7) by (now apply at_request_of).
  assert (H3 : at_ req 3 = 6) by (now apply at_request_of).
  assert (H4 : at_ req 4 = Z.land (Z.shiftr file 8) 0xFF)
    by (now apply at_request_of).
  assert (H5 : at_ req 5 = Z.land file 0xFF) by (now apply at_request_of).
  assert (H6 : at_ req 6 = Z.land (Z.shiftr record 8) 0xFF)
    by (now apply at_request_of).
  assert (H7 : at_ req 7 = Z.land record 0xFF) by (now apply at_request_of).
  assert (H8 : at_ req 8 = Z.land (Z.shiftr len 8) 0xFF)
    by (now apply at_request_of).
  assert (H9 : at_ req 9 = Z.land len 0xFF) by (now apply at_request_of).
  assert (Hl : length req = 12%nat) by reflexivity.
  split; [exact Hl|]. split; [exact H0|]. split; [exact H1|].
  split; [exact H2|]. split; [exact H3|].
  unfold word_at. rewrite H4, H5, H6, H7, H8, H9, !request_word.
  split; [reflexivity|]. split; [reflexivity|]. split; [reflexivity|].
  split; [apply framed_valid; rewrite length_fmap; cbn [length]; lia|].
  unfold complete_request, announced_length. cbn zeta. rewrite H1, H2, Hl.
  reflexivity.
Qed.

Lemma at_take (data : bytes) (n i : nat) :
  (i < n)%nat → at_ (take n data) i = at_ data i.
Proof.
  intros H. unfold at_. rewrite !nth_lookup, lookup_take_lt by exact H.
  reflexivity.
Qed.

(** [read_file_records_raw] on a well-formed normal response: a frame whose
    third and fourth byte announce the data that follows the fifth. *)
Lemma client_file_response (line : bytes → bytes)
    (sid file record len : Z) (request_data body : bytes) :
  bytes_of_ints
    [sid; 0x14; 7; 6;
     Z.land (Z.shiftr file 8) 0xFF; Z.land file 0xFF;
     Z.land (Z.shiftr record 8) 0xFF; Z.land record 0xFF;
     Z.land (Z.shiftr len 8) 0xFF; Z.land len 0xFF] = Some request_data →
  line (framed request_data) = framed body →
  (5 <= length body)%nat →
  at_ body 2 = Z.of_nat (length body) - 3 →
  at_ body 3 = Z.of_nat (length body) - 4 →
  read_file_records_raw true line sid file record len
  = Some (mkFileRecordData file record len (at_ body 4) (drop 5 body)).
Proof.
  intros Hreq Hline Hlen H2 H3.
  unfold read_file_records_raw. rewrite Hreq.
  cbn [negb mbind option_bind]. unfold calculate_crc at 1.
  rewrite calculate_crc_total. cbn [mbind option_bind]. cbn zeta.
  change (request_data ++ crc_bytes request_data) with (framed request_data).
  rewrite Hline. unfold port_read. cbn [fst].
  pose proof (length_framed body) as Hfl.
  assert (Hh : length (take 3 (framed body)) = 3%nat)
    by (rewrite length_take; lia).
  rewrite Hh. change (3 <? 3)%nat with false. cbn match.
  rewrite (at_take _ 3 2) by lia. rewrite (at_framed body 2) by lia.
  rewrite H2.
  rewrite (take_ge (drop 3 (framed body))) by (rewrite length_drop; lia).
  replace (Z.of_nat (length (drop 3 (framed body)))
           <? Z.of_nat (length body) - 3 + 2) with false
    by (symmetry; apply Z.ltb_ge; rewrite length_drop; lia).
  rewrite take_drop, response_crc_matches_framed.
  cbn [mbind option_bind negb].
  replace (length (framed body) <? 6)%nat with false
    by (symmetry; apply Nat.ltb_ge; lia).
  rewrite (at_framed body 3), (at_framed body 4), H3 by lia.
  replace (5 + (Z.of_nat (length body) - 4 - 1)
           >? Z.of_nat (length (framed body)) - 2) with false
    by (symmetry; rewrite Z.gtb_ltb; apply Z.ltb_ge; lia).
  do 3 f_equal. unfold slice_range.
  replace (Z.to_nat (5 + (Z.of_nat (length body) - 4 - 1)) - Z.to_nat 5)%nat
    with (length (drop 5 body)) by (rewrite length_drop; lia).
  change (Z.to_nat 5) with 5%nat.
  unfold framed. rewrite drop_app_le by lia. apply take_app_length.
Qed.

(** The normal response of the read file record handler, as the client
    takes it apart. *)
Lemma file_response_body (sid l1 l2 rt : Z) (data : bytes) :
  0 <= l1 < 256 → 0 <= l2 < 256 → 0 <= rt < 256 →
  let body := (wrap_byte <$> [sid; 0x14; l1; l2; rt]) ++ data in
  length body = (5 + length data)%nat
  ∧ at_ body 2 = l1 ∧ at_ body 3 = l2 ∧ at_ body 4 = rt
  ∧ drop 5 body = data.
Proof.
  intros H1 H2 H3 body. unfold body, at_.
  cbn [fmap list_fmap app nth length drop].
  rewrite !byte_to_int_wrap, !Z.mod_small by lia.
  repeat split; reflexivity.
Qed.

(** X16. The client's [read_file_records_raw] against the server, for a
    configured slave and an open port. File number, record number and
    record length reach the server modulo 65536. When the record exists
    and at most 126 words are asked for, the client gets the stored bytes
    cut or zero-padded to twice that many; when the record does not exist
    the client gets an empty data field, not an error, whatever length was
    asked for. The record length the client reports is the one it was
    called with. *)
Theorem client_reads_file_record (now : Z) (st : Server) (sl : SlaveConfig)
    (sid file record len : Z) :
  port_open st = true →
  0 <= sid < 256 →
  slaves st !! sid = Some sl →
  match file_records sl !! (file mod 65536) ≫= (.!! (record mod 65536)) with
  | Some stored =>
    len mod 65536 <= 126 →
    read_file_records_raw true (server_line now st) sid file record len
    = Some (mkFileRecordData file record len 6
              (take (Z.to_nat (2 * (len mod 65536)))
                 (stored
                  ++ replicate (Z.to_nat (2 * (len mod 65536))) Byte.x00)))
  | None =>
    read_file_records_raw true (server_line now st) sid file record len
    = Some (mkFileRecordData file record len 6 [])
  end.
Proof.
  intros Hopen Hsid Hsl.
  destruct (file_request_fields sid file record len Hsid)
    as (Hl & H0 & H1 & H2 & H3 & H4 & H6 & H8 & Hcrc & Hc).
  assert (Hpack : Forall (λ x, 0 <= x < 256)
            [sid; 0x14; 7; 6;
             Z.land (Z.shiftr file 8) 0xFF; Z.land file 0xFF;
             Z.land (Z.shiftr record 8) 0xFF; Z.land record 0xFF;
             Z.land (Z.shiftr len 8) 0xFF; Z.land len 0xFF])
    by (repeat constructor; first [lia | apply land_byte_range]).
  pose proof (bytes_of_ints_Some _ Hpack) as Hreq.
  pose proof (Z.mod_pos_bound len 65536 ltac:(lia)) as Hlm.
  unfold request_of in Hl, H0, H1, H2, H3, H4, H6, H8, Hcrc, Hc.
  revert Hreq Hl H0 H1 H2 H3 H4 H6 H8 Hcrc Hc.
  generalize (wrap_byte <$>
          [sid; 0x14; 7; 6;
           Z.land (Z.shiftr file 8) 0xFF; Z.land file 0xFF;
           Z.land (Z.shiftr record 8) 0xFF; Z.land record 0xFF;
           Z.land (Z.shiftr len 8) 0xFF; Z.land len 0xFF]).
  intros request_data Hreq Hl H0 H1 H2 H3 H4 H6 H8 Hcrc Hc.
  clear Hpack.
  remember (framed request_data) as req eqn:Ereq.
  assert (Hh : handler_for (at_ req 1) = Some _handle_read_file_records)
    by (rewrite H1; reflexivity).
  destruct (count_request_keeps now (at_ req 0) (length req) st) as (Cs & _).
  assert (Hsl0 : slaves st !! at_ req 0 = Some sl) by (now rewrite H0).
  assert (Hsl1 : slaves (count_request now (at_ req 0) (length req) st)
                 !! at_ req 0 = Some sl) by congruence.
  assert (Hl10 : (10 <= length req)%nat) by lia.
  assert (Hl4 : (4 <= length req)%nat) by lia.
  destruct (file_records sl !! (file mod 65536) ≫= (.!! (record mod 65536)))
    as [stored|] eqn:Hrec.
  - intros Hmax.
    assert (Hrec' : file_records sl !! word_at req 4 ≫= (.!! word_at req 6)
                    = Some stored) by (now rewrite H4, H6).
    pose proof (read_file_records_found _ (at_ req 0) req sl stored
                  Hl10 H2 H3 Hsl1 Hrec') as Hr.
    rewrite H8 in Hr.
    pose proof (fit_record_length stored (len mod 65536) ltac:(lia)) as Hfl.
    rewrite (fit_record_take stored (len mod 65536)) in Hr, Hfl by lia.
    revert Hr Hfl.
    generalize (take (Z.to_nat (2 * (len mod 65536)))
                  (stored
                   ++ replicate (Z.to_nat (2 * (len mod 65536))) Byte.x00)).
    intros data Hr Hfl.
    rewrite pack_with_crc_Some in Hr.
    2:{ apply Forall_app. split; [|apply ints_of_bytes_range].
        repeat constructor; lia. }
    rewrite fmap_app, wrap_ints_of_bytes in Hr.
    destruct (file_response_body (at_ req 0)
                (Z.of_nat (length data) + 1 + 1) (Z.of_nat (length data) + 1)
                6 data) as (Bl & B2 & B3 & B4 & B5); try lia.
    revert Hr Bl B2 B3 B4 B5.
    generalize ((wrap_byte <$>
                   [at_ req 0; 20; Z.of_nat (length data) + 1 + 1;
                    Z.of_nat (length data) + 1; 6]) ++ data).
    intros body Hr Bl B2 B3 B4 B5.
    pose proof (process_request_reply now st req sl _ _ Hl4 Hsl0 Hcrc Hh Hr)
      as Hw.
    rewrite length_framed in Hw. specialize (Hw ltac:(lia) Hopen).
    pose proof (server_line_answer now st req _ Hc Hw) as Hline.
    rewrite Ereq in Hline.
    rewrite (client_file_response _ sid file record len request_data body
               Hreq Hline) by lia.
    now rewrite B4, B5.
  - assert (Hrec' : file_records sl !! word_at req 4 ≫= (.!! word_at req 6)
                    = None) by (now rewrite H4, H6).
    pose proof (read_file_records_absent _ (at_ req 0) req sl
                  Hl10 H2 H3 Hsl1 Hrec') as Hr.
    rewrite pack_with_crc_Some in Hr by (repeat constructor; lia).
    destruct (file_response_body (at_ req 0) 2 1 6 [])
      as (Bl & B2 & B3 & B4 & B5); try lia.
    rewrite app_nil_r in Bl, B2, B3, B4, B5.
    revert Hr Bl B2 B3 B4 B5.
    generalize (wrap_byte <$> [at_ req 0; 20; 2; 1; 6]).
    intros body Hr Bl B2 B3 B4 B5. cbn [length] in Bl.
    pose proof (process_request_reply now st req sl _ _ Hl4 Hsl0 Hcrc Hh Hr)
      as Hw.
    rewrite length_framed in Hw. specialize (Hw ltac:(lia) Hopen).
    pose proof (server_line_answer now st req _ Hc Hw) as Hline.
    rewrite Ereq in Hline.
    rewrite (client_file_response _ sid file record len request_data body
               Hreq Hline) by lia.
    now rewrite B4, B5.
Qed.

(** Record (1, 0) of the example slave, four words, and record (1, 9),
    which does not exist, asked for with 500 words. *)
Lemma client_reads_file_record_witness :
  read_file_records_raw true (server_line 0 example_server) 1 1 0 4
  = Some (mkFileRecordData 1 0 4 6 (String.list_byte_of_string "INDUSTRI"))
  ∧ read_file_records_raw true (server_line 0 example_server) 1 1 9 500
    = Some (mkFileRecordData 1 9 500 6 []).
Proof.
  assert (Hsl : slaves example_server !! 1 = Some create_example_slave)
    by (vm_compute; exact eq_refl).
  assert (Hmax : 4 mod 65536 <= 126) by (vm_compute; discriminate).
  split.
  - pose proof (client_reads_file_record 0 example_server
                  create_example_slave 1 1 0 4 eq_refl ltac:(lia) Hsl) as H.
    match type of H with match ?x with _ => _ end =>
      destruct x as [stored|] eqn:E end.
    + vm_compute in E. injection E as <-. rewrite (H Hmax).
      vm_compute. exact eq_refl.
    + vm_compute in E. discriminate E.
  - pose proof (client_reads_file_record 0 example_server
                  create_example_slave 1 1 9 500 eq_refl ltac:(lia) Hsl) as H.
    match type of H with match ?x with _ => _ end =>
      destruct x as [stored|] eqn:E end.
    + vm_compute in E. discriminate E.
    + exact H.
Defined.

End ClientServer.

(** ** The request counters *)

Section RequestCounters.

Lemma count_request_pending (now sid : Z) (n : nat) (st : Server) :
  stats_consistent st → request_pending sid (count_request now sid n st).
Proof.
  intros H k s Hk. unfold count_request in Hk.
  destruct (stats st !! sid) as [s0|] eqn:E.
  - cbn in Hk. destruct (decide (k = sid)) as [->|Hne].
    + rewrite lookup_insert_eq in Hk. injection Hk as <-.
      destruct (H _ _ E) as (A & B & C & D & F).
      unfold counters_consistent. cbn. repeat split; lia.
    + rewrite lookup_insert_ne in Hk by congruence.
      split; [now apply (H k)|congruence].
  - split; [now apply (H k)|]. intros ->. congruence.
Qed.

Lemma request_pending_consistent (sid : Z) (st : Server) :
  request_pending sid st → stats_consistent st.
Proof. intros H k s Hk. now apply (H k s Hk). Qed.

Lemma request_pending_stats (sid : Z) (st st' : Server) :
  stats st' = stats st → request_pending sid st → request_pending sid st'.
Proof. unfold request_pending. intros ->. auto. Qed.

Lemma count_success_consistent (sid : Z) (n : nat) (st : Server) :
  request_pending sid st → stats_consistent (count_success sid n st).
Proof.
  intros H k s Hk. unfold count_success in Hk.
  destruct (stats st !! sid) as [s0|] eqn:E.
  - cbn in Hk. destruct (decide (k = sid)) as [->|Hne].
    + rewrite lookup_insert_eq in Hk. injection Hk as <-.
      destruct (H _ _ E) as ((A & B & C & D & F) & G).
      specialize (G eq_refl).
      unfold counters_consistent. cbn. repeat split; lia.
    + rewrite lookup_insert_ne in Hk by congruence. now apply (H k).
  - now apply (H k).
Qed.

Lemma count_failure_consistent (sid : Z) (st : Server) :
  request_pending sid st → stats_consistent (count_failure sid st).
Proof.
  intros H k s Hk. unfold count_failure in Hk.
  destruct (stats st !! sid) as [s0|] eqn:E.
  - cbn in Hk. destruct (decide (k = sid)) as [->|Hne].
    + rewrite lookup_insert_eq in Hk. injection Hk as <-.
      destruct (H _ _ E) as ((A & B & C & D & F) & G).
      specialize (G eq_refl).
      unfold counters_consistent. cbn. repeat split; lia.
    + rewrite lookup_insert_ne in Hk by congruence. now apply (H k).
  - now apply (H k).
Qed.

Lemma process_request_counters (now : Z) (st : Server) (req : bytes) :
  stats_consistent st → stats_consistent (_process_request now st req).
Proof.
  intros H.
  pose proof (count_request_pending now (at_ req 0) (length req) st H) as Hp.
  unfold _process_request.
  destruct (length req <? 4)%nat; [exact H|]. cbn zeta.
  assert (Hexc : ∀ st1 code,
            request_pending (at_ req 0) st1 →
            stats_consistent
              (_send_exception_response st1 (at_ req 0) (at_ req 1) code)).
  { intros st1 code H1. apply (request_pending_consistent (at_ req 0)).
    refine (request_pending_stats _ _ _ _ H1).
    apply send_exception_response_keeps. }
  assert (Herr : ∀ st1,
            request_pending (at_ req 0) st1 →
            stats_consistent (on_processing_error st1 req)).
  { intros st1 H1. unfold on_processing_error.
    destruct (2 <=? length req)%nat; [now apply Hexc|].
    now apply (request_pending_consistent (at_ req 0)). }
  destruct (slaves _ !! at_ req 0); [|now apply Hexc].
  destruct (_validate_crc req) as [[|]|].
  - destruct (handler_for (at_ req 1)) as [h|] eqn:Hh; [|now apply Hexc].
    destruct (handler_for_store_effect _ h
                (count_request now (at_ req 0) (length req) st)
                (at_ req 0) req Hh) as [_ Hst].
    destruct (h _ _ _) as [st2 o]. cbn [fst] in Hst.
    pose proof (request_pending_stats _ _ _ Hst Hp) as H2.
    destruct o as [response|]; [|now apply Herr].
    destruct (truthy response) as [r|].
    + apply count_success_consistent.
      refine (request_pending_stats _ _ _ _ H2). apply send_response_keeps.
    + now apply count_failure_consistent.
  - now apply (request_pending_consistent (at_ req 0)).
  - now apply Herr.
Qed.

Lemma apply_operation_counters (st : Server) (op : Operation) :
  stats_consistent st → stats_consistent (apply_operation st op).
Proof.
  intros H.
  destruct op as [cfg | sid | sid kind address value | now req];
    cbn [apply_operation].
  - unfold add_slave.
    destruct (Z.of_nat (size (slaves st)) >=? max_slaves st); [exact H|].
    intros k s Hk. cbn in Hk.
    destruct (decide (k = slave_id cfg)) as [->|Hne].
    + rewrite lookup_insert_eq in Hk. injection Hk as <-.
      unfold counters_consistent. cbn. lia.
    + rewrite lookup_insert_ne in Hk by congruence. now apply (H k).
  - unfold remove_slave. destruct (slaves st !! sid) as [sl|]; [|exact H].
    cbn. destruct (stats st !! sid) as [s0|]; [|exact H].
    intros k s Hk. cbn in Hk. apply lookup_delete_Some in Hk.
    now apply (H k).
  - intros k s Hk.
    destruct (update_register_store_effect st sid kind address value)
      as (_ & Hst & _).
    rewrite Hst in Hk. now apply (H k).
  - now apply process_request_counters.
Qed.

(** X17. The counters stay consistent under every sequence of add_slave,
    remove_slave, update_register and requests: in each statistics record
    no counter is negative and successful plus failed requests never
    exceed the total, so the success rate that [_log_statistics] computes
    is never above 100 per cent. (The two can stay below the total: a
    request whose CRC does not match is counted in the total only.) *)
Theorem operations_keep_counters (ops : list Operation) (st : Server) :
  stats_consistent st → stats_consistent (run ops st).
Proof.
  unfold run. revert st. induction ops as [|op ops IH]; intros st H; [exact H|].
  cbn [fold_left]. apply IH. now apply apply_operation_counters.
Qed.

Lemma new_server_counters (open : bool) : stats_consistent (new_server open).
Proof. intros k s Hk. cbn in Hk. now rewrite lookup_empty in Hk. Qed.

(** The example slave is added, read once and sent one request with a
    wrong CRC. *)
Lemma operations_keep_counters_witness :
  stats_consistent
    (run [AddSlave create_example_slave;
          Request 0 (request8 1 0x03 2014 2);
          Request 1 (raw_frame [1; 0x03; 0x07; 0xDE; 0; 2; 0; 0])]
       (new_server true)).
Proof.
  apply (operations_keep_counters _ (new_server true)).
  intros k s Hk. cbn in Hk. now rewrite lookup_empty in Hk.
Defined.

End RequestCounters.
